(** * unwind: marshal deserializer, instruction decoder and stack
      reconstruction engine ([src/unwind/disasm.py])

    A shallow embedding of [disasm.py] and the properties of its
    deserializer ([_Disassembler]) and of its reconstruction engine
    ([_CommandHandler]).

    Conventions of the embedding.
    - The module is Python 2.7 code ([dict.iteritems], automatic [{}] format
      fields, old-style classes); its semantics is followed where the two
      language versions differ.
    - An exception is a value of [exn]; every fallible operation returns
      [res].  The order of evaluation of the source decides which exception
      is raised first.
    - The input file is the list of the bytes that are still unread;
      [struct] formats use the host byte order ([=]), taken to be
      little-endian, the byte order of every marshal file.
    - [print] output ([handle]'s trace, [print_result]) is not part of the
      state: the reconstructed lines are read from [result].  The trace
      that [handle] prints first, of the opcode, the argument and the stack,
      is left out altogether, with the [UnicodeEncodeError] that it raises
      when an object on the stack holds unicode text that is not ASCII and
      writes it as it is.
    - An object is a value: two references to one object are two equal
      values.  The one place where the code shares a mutable object is
      [IMPORT_NAME], which pushes the entry of [co_names] itself; when the
      entry is a list, a later [STORE_MAP] changes it in the code object as
      well, which the model does not follow.
    - The interpreter is taken to have 64-bit C longs and enough memory and
      recursion depth: CPython raises [RuntimeError] at its recursion limit
      (1000 frames by default, two for each level of nesting of a value),
      which is not modelled. *)

From Stdlib Require Import ZArith List String Ascii Bool Lia.
From Stdlib Require Import Strings.Byte.
Import ListNotations.
Local Open Scope string_scope.
Local Open Scope list_scope.
Local Open Scope Z_scope.

(** String concatenation, written apart from the append of lists. *)
Notation "a +++ b" := (String.append a%string b%string)
  (at level 60, right associativity).

Set Implicit Arguments.

(** ** The opcode table ([unwind.op])

    The module [unwind.op] is imported by [disasm.py] and is not part of it.
    Its symbolic opcode names are the constructors below: the names
    [disasm.py] refers to, and [OTHER] for every other entry of the table. *)

Inductive opname : Type :=
| NOP | POP_TOP | ROT_TWO | ROT_THREE | ROT_FOUR
| UNARY_POSITIVE | UNARY_NEGATIVE | UNARY_NOT | UNARY_INVERT
| LOAD_CONST | LOAD_NAME
| BUILD_LIST | BUILD_SET | BUILD_TUPLE | BUILD_MAP | STORE_MAP
| BINARY_POWER | BINARY_MULTIPLY | BINARY_FLOOR_DIVIDE | BINARY_TRUE_DIVIDE
| BINARY_MODULO | BINARY_ADD | BINARY_SUBTRACT | BINARY_LSHIFT
| BINARY_RSHIFT | BINARY_AND | BINARY_XOR | BINARY_OR
| INPLACE_POWER | INPLACE_MULTIPLY | INPLACE_FLOOR_DIVIDE
| INPLACE_TRUE_DIVIDE | INPLACE_MODULO | INPLACE_ADD | INPLACE_SUBTRACT
| INPLACE_LSHIFT | INPLACE_RSHIFT | INPLACE_AND | INPLACE_XOR | INPLACE_OR
| SLICE_0 | SLICE_1 | SLICE_2 | SLICE_3
| STORE_SLICE_0 | STORE_SLICE_1 | STORE_SLICE_2 | STORE_SLICE_3
| DELETE_SLICE_0 | DELETE_SLICE_1 | DELETE_SLICE_2 | DELETE_SLICE_3
| STORE_SUBSCR | DELETE_SUBSCR | BINARY_SUBSCR
| IMPORT_NAME | IMPORT_STAR | IMPORT_FROM
| PRINT_ITEM_TO | PRINT_NEWLINE_TO | PRINT_ITEM | PRINT_NEWLINE
| CALL_FUNCTION | CALL_FUNCTION_VAR | CALL_FUNCTION_KW | CALL_FUNCTION_VAR_KW
| MAKE_FUNCTION | RETURN_VALUE | DELETE_NAME | STORE_NAME
| EXTENDED_ARG
| LOAD_ATTR | STORE_ATTR | DELETE_ATTR
| LOAD_GLOBAL | STORE_GLOBAL | DELETE_GLOBAL
| LOAD_FAST | STORE_FAST | DELETE_FAST
| OTHER (name : string).

Definition opname_eq_dec (a b : opname) : {a = b} + {a <> b}.
Proof. decide equality. apply string_dec. Defined.

Definition opname_eqb (a b : opname) : bool :=
  if opname_eq_dec a b then true else false.

(** [opcode in l] *)
Definition op_in (o : opname) (l : list opname) : bool :=
  existsb (opname_eqb o) l.

(** The functions of [unwind.op] that [disasm.py] calls. *)
Class OpTable : Type := {
  (** [op.from_bytecode(byte, magic)], [None] for an unknown byte *)
  from_bytecode : Z -> Z -> option opname;
  (** [op.has_argument(opcode)] *)
  has_argument : opname -> bool;
  (** [op.has_kwonlyargcount(magic)] *)
  has_kwonlyargcount : Z -> bool;
  (** [op.python_version_from_magic(magic)], [None] for an unknown magic *)
  python_version_from_magic : Z -> option string;
  (** [repr] of an opcode name *)
  repr_opname : opname -> string
}.

(** ** Exceptions and results *)

(** The messages of [DisassemblerException], with the values they are
    formatted from. *)
Inductive dis_message : Type :=
| Unknown_magic_header_number (magic : Z)
| String_index_outside_string_table (index : Z)
| Bytecode_not_marshalled_as_string (type : Z)
| Unknown_bytecode (b : Z)
| Invalid_argument_for_opcode (argument : Z) (opcode : opname)
| Cannot_unmarshal_unknown_type (type : Z).

Inductive exn : Type :=
| DisassemblerException (m : dis_message)
| IndexError
| TypeError
| AttributeError
| ValueError
| NameError
| KeyError
| UnicodeDecodeError
| OverflowError
| struct_error
| OutOfFuel.  (* not a Python exception: the recursion bound of the model *)

Inductive res (A : Type) : Type :=
| Ok (a : A)
| Raise (e : exn).
Arguments Ok {A} a.
Arguments Raise {A} e.

(** State and exception monad: a method of an object with state [S]. *)
Definition ST (S A : Type) : Type := S -> res (A * S).

Definition ret {S A} (a : A) : ST S A := fun s => Ok (a, s).
Definition raise {S A} (e : exn) : ST S A := fun _ => Raise e.
Definition bind {S A B} (m : ST S A) (k : A -> ST S B) : ST S B :=
  fun s => match m s with
           | Ok (a, s') => k a s'
           | Raise e => Raise e
           end.
Definition lift {S A} (r : res A) : ST S A :=
  fun s => match r with Ok a => Ok (a, s) | Raise e => Raise e end.
Definition get {S} : ST S S := fun s => Ok (s, s).
Definition put {S} (s : S) : ST S unit := fun _ => Ok (tt, s).

Declare Scope st_scope.
Delimit Scope st_scope with st.
Notation "x <- m ;; k" := (bind m (fun x => k))
  (at level 61, m at next level, right associativity) : st_scope.
Notation "m ;;; k" := (bind m (fun _ => k))
  (at level 61, right associativity) : st_scope.
Local Open Scope st_scope.

Definition rbind {A B} (r : res A) (k : A -> res B) : res B :=
  match r with Ok a => k a | Raise e => Raise e end.

(** ** Bytes and [struct] *)

Definition byte_to_Z (b : byte) : Z := Z.of_N (Byte.to_N b).

Definition byte_of_Z (z : Z) : byte :=
  match Byte.of_N (Z.to_N (z mod 256)) with
  | Some b => b
  | None => x00
  end.

(** Little-endian value of a byte string. *)
Fixpoint unpack_le (data : list byte) : Z :=
  match data with
  | [] => 0
  | b :: data' => Z.lor (byte_to_Z b) (Z.shiftl (unpack_le data') 8)
  end.

Fixpoint pack_le (n : nat) (z : Z) : list byte :=
  match n with
  | O => []
  | S n' => byte_of_Z z :: pack_le n' (Z.shiftr z 8)
  end.

Definition to_signed (bits : Z) (u : Z) : Z :=
  if u <? 2 ^ (bits - 1) then u else u - 2 ^ bits.

(** [struct.unpack] of one integer field of [n] bytes: the data must have
    exactly the length of the format. *)
Definition unpack_unsigned (n : nat) (data : list byte) : res Z :=
  if Nat.eqb (List.length data) n then Ok (unpack_le data) else Raise struct_error.

Definition unpack_signed (n : nat) (data : list byte) : res Z :=
  rbind (unpack_unsigned n data)
        (fun u => Ok (to_signed (8 * Z.of_nat n) u)).

(** [file.read(count)]: at most [count] bytes, fewer at the end of the file;
    a negative [count] reads up to the end of the file. *)
Definition file_read (count : Z) (f : list byte) : list byte * list byte :=
  if count <? 0 then (f, [])
  else (firstn (Z.to_nat count) f, skipn (Z.to_nat count) f).

(** ** Python objects

    One type for the values the deserializer returns and for the objects
    of the reconstruction engine: both live on the operand stack and in
    the containers the engine builds. *)

Record Opcode_ (A : Type) : Type := Opcode {
  offset : Z;
  size : Z;
  opcode : opname;
  argument : A
}.

Record CodeObject_ (A : Type) : Type := CodeObject {
  co_argcount : Z;
  co_kwonlyargcount : Z;
  co_nlocals : Z;
  co_stacksize : Z;
  co_flags : Z;
  co_code : list Z;
  co_consts : A;
  co_names : A;
  co_varnames : A;
  co_freevars : A;
  co_cellvars : A;
  co_filename : A;
  co_name : A;
  co_firstlineno : Z;
  co_lnotab : A;
  opcodes : list (Opcode_ A)
}.

(** The integers of Python 2 are of two types, [int] within the range of
    a C long, which is taken to have 64 bits, and [long]; arithmetic on
    ints gives a long when the result is outside that range, and a long
    stays a long.  [PInt z] is the integer [z] in the type that a number
    of its size has: an int from [-2^63] to [2^63 - 1], a long outside.
    [PLong z] is a long within the range of a C long: the deserializer
    builds one only from the digits of [_TYPE_LONG] when some digit has a
    sign, which no compiler writes.  The long [-2^63], which [_TYPE_LONG]
    can hold, is written [PInt] like the int: the text of [PInt (-2^63)]
    is not determined by the model. *)
#[warnings="-register-all"]
Inductive pyobj : Type :=
| PNone
| PBool (b : bool)
| PInt (z : Z)                       (* int, and long outside its range *)
| PLong (z : Z)                      (* long within the range of an int *)
| PFloat (bits : list byte)          (* the 8 bytes of a double *)
| PComplex (bits : list byte)        (* the 16 bytes of two doubles *)
| PStr (s : string)
| PUnicode (s : string)
| PTuple (l : list pyobj)
| PList (l : list pyobj)
| PSet (l : list pyobj)              (* a set of the distinct elements l *)
| PFrozenSet (l : list pyobj)        (* a frozenset of the same *)
| PDict (items : list (pyobj * pyobj))
| PCode (co : CodeObject_ pyobj)
| _PyObject (val : pyobj) (print_raw skip_it : bool)
| _FuncCall (func_name : string) (pargs : list pyobj)
            (kargs : list (pyobj * pyobj)) (args_repr : string) (val : string)
| _MathOperation (val1 val2 : pyobj) (operation : string).

Definition Opcode_t : Type := Opcode_ pyobj.
Definition CodeObject_t : Type := CodeObject_ pyobj.

(** ** Text: [repr], [str] and [format]

    What Python itself provides for floating-point numbers and for unicode
    text is a parameter of the development. *)

Class Runtime : Type := {
  (** [bytes.decode('utf8')], [None] when the bytes are not UTF-8 *)
  utf8_decode : list byte -> option string;
  repr_unicode : string -> string;
  repr_float : list byte -> string;
  str_float : list byte -> string;
  repr_complex : list byte -> string;
  str_complex : list byte -> string
}.

Definition nl : string := String (ascii_of_nat 10) EmptyString.

(** [n * s] for a string [s]: empty when [n] is not positive. *)
Fixpoint str_repeat (s : string) (n : nat) : string :=
  match n with
  | O => EmptyString
  | S n' => s +++ str_repeat s n'
  end.

Definition str_mul (n : Z) (s : string) : string := str_repeat s (Z.to_nat n).

(** Decimal digits of a natural number, most significant digit first; the
    fuel bounds the number of digits. *)
Fixpoint dec_digits (fuel : nat) (n : N) (acc : string) : string :=
  match fuel with
  | O => acc
  | S fuel' =>
      let d := ascii_of_N (48 + N.modulo n 10) in
      let acc' := String d acc in
      if N.ltb n 10 then acc' else dec_digits fuel' (N.div n 10) acc'
  end.

(** [repr] of an integer. *)
Definition repr_int (z : Z) : string :=
  let n := Z.to_N (Z.abs z) in
  let digits := dec_digits (S (N.to_nat (N.log2 n))) n EmptyString in
  if z <? 0 then "-" +++ digits else digits.

Definition hex_digit (n : N) : ascii :=
  if N.ltb n 10 then ascii_of_N (48 + n) else ascii_of_N (87 + n).

Fixpoint str_contains (c : ascii) (s : string) : bool :=
  match s with
  | EmptyString => false
  | String c' s' => Ascii.eqb c c' || str_contains c s'
  end.

Definition squote : ascii := ascii_of_nat 39.
Definition dquote : ascii := ascii_of_nat 34.
Definition backslash : ascii := ascii_of_nat 92.

Fixpoint repr_str_body (quote : ascii) (s : string) : string :=
  match s with
  | EmptyString => EmptyString
  | String c s' =>
      let n := N_of_ascii c in
      let rest := repr_str_body quote s' in
      if Ascii.eqb c quote || Ascii.eqb c backslash
      then String backslash (String c rest)
      else if N.eqb n 9 then String backslash (String "t" rest)
      else if N.eqb n 10 then String backslash (String "n" rest)
      else if N.eqb n 13 then String backslash (String "r" rest)
      else if N.ltb n 32 || N.leb 127 n
      then String backslash
             (String "x" (String (hex_digit (N.div n 16))
                                 (String (hex_digit (N.modulo n 16)) rest)))
      else String c rest
  end.

(** [repr] of a byte string: single quotes, unless the string has a single
    quote and no double quote. *)
Definition repr_str (s : string) : string :=
  let quote :=
    if str_contains squote s && negb (str_contains dquote s)
    then dquote else squote in
  String quote (repr_str_body quote s +++ String quote EmptyString).

Definition _INDENT : string := "    ".

Section Text.
Context {optable : OpTable} {runtime : Runtime}.

(** [z] is in the range of a C long. *)
Definition fits_long (z : Z) : bool := (- 2 ^ 63 <=? z) && (z <? 2 ^ 63).

(** [repr] of the integer that [PInt z] is: a long has the suffix [L]. *)
Definition repr_PInt (z : Z) : string :=
  if fits_long z then repr_int z else repr_int z +++ "L".

(** [repr(o)], for every object, when the global [_indent] of the module
    is [ind]: [CodeObject.__repr__] adds to [_indent] while it runs and
    restores it before it returns.

    The text is the one Python gives when it gives one.  Not modelled:
    formatting unicode text that is not ASCII into a template raises
    [UnicodeEncodeError] in Python 2, and here gives the text; a set and
    a dict are written in the order of their elements in the model, where
    Python writes them in the order of its hash table. *)
Fixpoint py_repr (ind : nat) (o : pyobj) {struct o} : string :=
  let fmt := fun v : pyobj =>
    match v with
    | PStr s | PUnicode s => s
    | PInt z | PLong z => repr_int z
    | PFloat b => str_float b
    | PComplex b => str_complex b
    | _ => py_repr ind v
    end in
  let elems := fun l : list pyobj => String.concat ", " (map (py_repr ind) l) in
  match o with
  | PNone => "None"
  | PBool true => "True"
  | PBool false => "False"
  | PInt z => repr_PInt z
  | PLong z => repr_int z +++ "L"
  | PFloat b => repr_float b
  | PComplex b => repr_complex b
  | PStr s => repr_str s
  | PUnicode s => repr_unicode s
  | PTuple [x] => "(" +++ py_repr ind x +++ ",)"
  | PTuple l => "(" +++ elems l +++ ")"
  | PList l => "[" +++ elems l +++ "]"
  | PSet l => "set([" +++ elems l +++ "])"
  | PFrozenSet l => "frozenset([" +++ elems l +++ "])"
  | PDict items =>
      "{" +++ String.concat ", "
                (map (fun kv => py_repr ind (fst kv) +++ ": "
                                +++ py_repr ind (snd kv)) items) +++ "}"
  | PCode co =>
      let indent := str_repeat _INDENT (S ind) in
      let field := fun (f r : string) => indent +++ f +++ " = " +++ r +++ "," +++ nl in
      "CodeObject(" +++ nl
      +++ field "co_argcount" (repr_int (co_argcount co))
      +++ field "co_kwonlyargcount" (repr_int (co_kwonlyargcount co))
      +++ field "co_nlocals" (repr_int (co_nlocals co))
      +++ field "co_stacksize" (repr_int (co_stacksize co))
      +++ field "co_flags" (repr_int (co_flags co))
      +++ field "co_filename" (py_repr (S ind) (co_filename co))
      +++ field "co_name" (py_repr (S ind) (co_name co))
      +++ field "co_firstlineno" (repr_int (co_firstlineno co))
      +++ indent +++ "opcodes = ["
      +++ String.concat ","
            (map (fun o =>
                    nl +++ str_repeat _INDENT (S (S ind))
                    +++ "Opcode(offset = " +++ repr_int (offset o)
                    +++ ", size = " +++ repr_int (size o)
                    +++ ", opcode = " +++ repr_opname (opcode o)
                    +++ ", argument = " +++ py_repr (S (S ind)) (argument o)
                    +++ ")")
                 (opcodes co))
      +++ "])" +++ ")"
  | _PyObject val print_raw _ => if print_raw then fmt val else py_repr ind val
  | _FuncCall _ _ _ _ val => val
  | _MathOperation val1 val2 operation =>
      "(" +++ fmt val1 +++ " " +++ operation +++ " " +++ fmt val2 +++ ")"
  end.

(** [str(o)] and ["{}".format(o)], at [_indent = 0]: a long is written
    without its suffix.  See [py_repr] for what is not modelled. *)
Definition py_str (o : pyobj) : string :=
  match o with
  | PStr s | PUnicode s => s
  | PInt z | PLong z => repr_int z
  | PFloat b => str_float b
  | PComplex b => str_complex b
  | _ => py_repr 0 o
  end.

(** [template.format] on the arguments [args], for a template whose fields
    are all automatic ([{}]), as the templates of [disasm.py] are.  Too few
    arguments raise [IndexError]; arguments in excess are ignored. *)
Fixpoint str_format (template : string) (args : list pyobj) : res string :=
  match template with
  | EmptyString => Ok EmptyString
  | String "{" (String "}" template') =>
      match args with
      | [] => Raise IndexError
      | a :: args' =>
          rbind (str_format template' args') (fun s => Ok (py_str a +++ s))
      end
  | String c template' =>
      rbind (str_format template' args) (fun s => Ok (String c s))
  end.

End Text.

(** ** Operations of Python objects *)

(** Truth value of an object.  A double is zero when every bit but its
    sign is zero. *)
Definition float_is_zero (bits : list byte) : bool :=
  forallb (fun b => Z.eqb (byte_to_Z b) 0) (removelast bits)
  && match rev bits with
     | [] => true
     | b :: _ => Z.eqb (Z.land (byte_to_Z b) 127) 0
     end.

Definition is_empty {A} (l : list A) : bool :=
  match l with [] => true | _ => false end.

Definition py_truth (o : pyobj) : bool :=
  match o with
  | PNone => false
  | PBool b => b
  | PInt z | PLong z => negb (Z.eqb z 0)
  | PFloat bits => negb (float_is_zero bits)
  | PComplex bits =>
      negb (float_is_zero (firstn 8 bits) && float_is_zero (skipn 8 bits))
  | PStr s | PUnicode s => negb (String.eqb s EmptyString)
  | PTuple l | PList l | PSet l | PFrozenSet l => negb (is_empty l)
  | PDict items => negb (is_empty items)
  | PCode _ | _PyObject _ _ _ | _FuncCall _ _ _ _ _ | _MathOperation _ _ _ => true
  end.

(** An object used as an integer ([range(o)], [o & 0xff], [a - o]). *)
Definition as_int (o : pyobj) : res Z :=
  match o with
  | PInt z | PLong z => Ok z
  | PBool b => Ok (if b then 1 else 0)
  | _ => Raise TypeError
  end.

(** An object used as text (["-" + o], an item of [", ".join]). *)
Definition as_text (o : pyobj) : res string :=
  match o with
  | PStr s | PUnicode s => Ok s
  | _ => Raise TypeError
  end.

(** [hash(o)] is defined. *)
Fixpoint hashable (o : pyobj) : bool :=
  match o with
  | PList _ | PSet _ | PDict _ => false
  | PTuple l => forallb hashable l
  | _ => true
  end.

(** Equality of two keys of a dict, or of two elements of a set.  It is
    the equality of Python for [None], booleans, integers, byte strings
    and tuples of these.  Instances of the classes of [disasm.py] are
    equal when they are the same object: the engine makes each one in the
    instruction that pushes it and moves it without ever copying the
    reference, so that two such keys are different objects.

    Not modelled, and taken as different: a float or a complex number and
    an equal number ([1 == 1.0]), two equal frozensets, a byte string and
    unicode text, and one object that the engine holds twice because
    [IMPORT_NAME] has pushed the same entry of [co_names] twice (a code
    object, a float that is not a number). *)
Fixpoint key_eqb (a b : pyobj) {struct a} : bool :=
  let as_num := fun o : pyobj =>
    match o with
    | PInt z | PLong z => Some z
    | PBool true => Some 1
    | PBool false => Some 0
    | _ => None
    end in
  match a, b with
  | PNone, PNone => true
  | (PStr s | PUnicode s), (PStr t | PUnicode t) => String.eqb s t
  | PTuple l, PTuple m =>
      (fix all2 (l : list pyobj) (m : list pyobj) {struct l} : bool :=
         match l, m with
         | [], [] => true
         | x :: l', y :: m' => key_eqb x y && all2 l' m'
         | _, _ => false
         end) l m
  | _, _ =>
      match as_num a, as_num b with
      | Some x, Some y => Z.eqb x y
      | _, _ => false
      end
  end.


(** The elements of [set(l)]: of equal elements the first is kept. *)
Fixpoint distinct (l : list pyobj) : list pyobj :=
  match l with
  | [] => []
  | x :: l' => x :: filter (fun y => negb (key_eqb x y)) (distinct l')
  end.

(** [d[key] = value] on the items of a dict [d]: the value of an equal key
    is replaced, a new key is added after the others. *)
Fixpoint dict_store (items : list (pyobj * pyobj)) (key value : pyobj)
  : list (pyobj * pyobj) :=
  match items with
  | [] => [(key, value)]
  | (k, v) :: items' =>
      if key_eqb k key then (k, value) :: items'
      else (k, v) :: dict_store items' key value
  end.

(** Index of a sequence of length [len] from a Python index, which counts
    from the end when negative. *)
Definition seq_index (len i : Z) : res nat :=
  let j := if i <? 0 then i + len else i in
  if (0 <=? j) && (j <? len) then Ok (Z.to_nat j) else Raise IndexError.

Fixpoint list_update {A} (l : list A) (n : nat) (x : A) : list A :=
  match l, n with
  | [], _ => []
  | _ :: l', O => x :: l'
  | y :: l', S n' => y :: list_update l' n' x
  end.

(** [d[key] = value] for a dict [d] with the given items. *)
Definition dict_setitem (items : list (pyobj * pyobj)) (key value : pyobj)
  : res (list (pyobj * pyobj)) :=
  if hashable key then Ok (dict_store items key value) else Raise TypeError.

(** [target[key] = value]: the new [target]. *)
Definition py_setitem (target key value : pyobj) : res pyobj :=
  match target with
  | PDict items =>
      rbind (dict_setitem items key value) (fun items' => Ok (PDict items'))
  | PList l =>
      rbind (as_int key) (fun i =>
      rbind (seq_index (Z.of_nat (List.length l)) i) (fun n =>
      Ok (PList (list_update l n value))))
  | PCode _ | _PyObject _ _ _ | _FuncCall _ _ _ _ _ | _MathOperation _ _ _ =>
      Raise AttributeError
  | _ => Raise TypeError
  end.

(** Bound of a slice: a negative bound counts from the end, and every
    bound is clipped to the sequence. *)
Definition slice_bound (len : Z) (b : Z) : nat :=
  Z.to_nat (if b <? 0 then Z.max 0 (b + len) else Z.min b len).

(** [l[lo:hi]]; an absent bound is [None]. *)
Definition list_slice {A} (l : list A) (lo hi : option Z) : list A :=
  let len := Z.of_nat (List.length l) in
  let a := match lo with Some b => slice_bound len b | None => O end in
  let b := match hi with Some b => slice_bound len b | None => List.length l end in
  firstn (b - a) (skipn a l).

Fixpoint chars (s : string) : list string :=
  match s with
  | EmptyString => []
  | String c s' => String c EmptyString :: chars s'
  end.

(** The items of [o[lo:hi]]. *)
Definition py_slice (o : pyobj) (lo hi : option Z) : res (list pyobj) :=
  match o with
  | PTuple l | PList l => Ok (list_slice l lo hi)
  | PStr s => Ok (map PStr (list_slice (chars s) lo hi))
  | PUnicode s => Ok (map PUnicode (list_slice (chars s) lo hi))
  | PCode _ | _PyObject _ _ _ | _FuncCall _ _ _ _ _ | _MathOperation _ _ _ =>
      Raise AttributeError
  | _ => Raise TypeError
  end.

(** [len(o)] *)
Definition py_len (o : pyobj) : res Z :=
  match o with
  | PStr s | PUnicode s => Ok (Z.of_nat (String.length s))
  | PTuple l | PList l | PSet l | PFrozenSet l => Ok (Z.of_nat (List.length l))
  | PDict items => Ok (Z.of_nat (List.length items))
  | PCode _ | _PyObject _ _ _ | _FuncCall _ _ _ _ _ | _MathOperation _ _ _ =>
      Raise AttributeError
  | _ => Raise TypeError
  end.

(** [o[i]] for an integer [i]. *)
Definition py_getitem (o : pyobj) (i : Z) : res pyobj :=
  let item := fun (l : list pyobj) =>
    rbind (seq_index (Z.of_nat (List.length l)) i)
          (fun n => match nth_error l n with
                    | Some x => Ok x
                    | None => Raise IndexError
                    end) in
  match o with
  | PTuple l | PList l => item l
  | PStr s => item (map PStr (chars s))
  | PUnicode s => item (map PUnicode (chars s))
  | PDict items =>
      match find (fun kv => key_eqb (fst kv) (PInt i)) items with
      | Some kv => Ok (snd kv)
      | None => Raise KeyError
      end
  | PCode _ | _PyObject _ _ _ | _FuncCall _ _ _ _ _ | _MathOperation _ _ _ =>
      Raise AttributeError
  | _ => Raise TypeError
  end.

(** [o.val] *)
Definition get_val (o : pyobj) : res pyobj :=
  match o with
  | _PyObject val _ _ => Ok val
  | _FuncCall _ _ _ _ val => Ok (PStr val)
  | _ => Raise AttributeError
  end.

(** [o.val = prefix + o.val]: the object after the assignment. *)
Definition prefix_val (prefix : string) (o : pyobj) : res pyobj :=
  match o with
  | _PyObject (PStr s) print_raw skip_it =>
      Ok (_PyObject (PStr (prefix +++ s)) print_raw skip_it)
  | _PyObject (PUnicode s) print_raw skip_it =>
      Ok (_PyObject (PUnicode (prefix +++ s)) print_raw skip_it)
  | _PyObject _ _ _ => Raise TypeError
  | _FuncCall func_name pargs kargs args_repr val =>
      Ok (_FuncCall func_name pargs kargs args_repr (prefix +++ val))
  | _ => Raise AttributeError
  end.

(** ** The reconstruction engine ([_CommandHandler]) *)

Record _CommandHandler : Type := mk_CommandHandler {
  stack : list pyobj;          (* the top of the stack is the last element *)
  result : list string;
  indent_count : Z
}.

Definition INDENT_SIZE : string := "    ".

Definition slice_expression : list opname :=
  [SLICE_0; SLICE_1; SLICE_2; SLICE_3].
Definition slice_statemant : list opname :=
  [STORE_SLICE_0; STORE_SLICE_1; STORE_SLICE_2; STORE_SLICE_3;
   DELETE_SLICE_0; DELETE_SLICE_1; DELETE_SLICE_2; DELETE_SLICE_3;
   STORE_SUBSCR; DELETE_SUBSCR].
Definition math_operations : list opname :=
  [BINARY_POWER; BINARY_MULTIPLY; BINARY_FLOOR_DIVIDE; BINARY_TRUE_DIVIDE;
   BINARY_MODULO; BINARY_ADD; BINARY_SUBTRACT; BINARY_LSHIFT; BINARY_RSHIFT;
   BINARY_AND; BINARY_XOR; BINARY_OR;
   INPLACE_POWER; INPLACE_MULTIPLY; INPLACE_FLOOR_DIVIDE; INPLACE_TRUE_DIVIDE;
   INPLACE_MODULO; INPLACE_ADD; INPLACE_SUBTRACT; INPLACE_LSHIFT;
   INPLACE_RSHIFT; INPLACE_AND; INPLACE_XOR; INPLACE_OR].
Definition function_call : list opname :=
  [CALL_FUNCTION; CALL_FUNCTION_VAR; CALL_FUNCTION_KW; CALL_FUNCTION_VAR_KW].
Definition pwr_operations := [BINARY_POWER; INPLACE_POWER].
Definition mul_operations := [BINARY_MULTIPLY; INPLACE_MULTIPLY].
Definition floor_div_operations := [BINARY_FLOOR_DIVIDE; INPLACE_FLOOR_DIVIDE].
Definition true_div_operations := [BINARY_TRUE_DIVIDE; INPLACE_TRUE_DIVIDE].
Definition mod_operations := [BINARY_MODULO; INPLACE_MODULO].
Definition add_operations := [BINARY_ADD; INPLACE_ADD].
Definition sub_operations := [BINARY_SUBTRACT; INPLACE_SUBTRACT].
Definition shl_operations := [BINARY_LSHIFT; INPLACE_LSHIFT].
Definition shr_operations := [BINARY_RSHIFT; INPLACE_RSHIFT].
Definition and_operations := [BINARY_AND; INPLACE_AND].
Definition xor_operations := [BINARY_XOR; INPLACE_XOR].
Definition or_operations := [BINARY_OR; INPLACE_OR].

(** [_CommandHandler()] *)
Definition new_CommandHandler : _CommandHandler :=
  {| stack := []; result := []; indent_count := 0 |}.

(** A method of the engine. *)
Definition H (A : Type) : Type := ST _CommandHandler A.

(** [l.pop()] on a list: its last element and the list without it. *)
Fixpoint list_pop {A} (l : list A) : option (A * list A) :=
  match l with
  | [] => None
  | [x] => Some (x, [])
  | x :: l' =>
      match list_pop l' with
      | Some (y, r) => Some (y, x :: r)
      | None => None
      end
  end.

Definition set_stack (s : list pyobj) : H unit :=
  fun h => Ok (tt, {| stack := s; result := result h;
                      indent_count := indent_count h |}).

(** [self.result.append(line)] *)
Definition append_result (line : string) : H unit :=
  fun h => Ok (tt, {| stack := stack h; result := result h ++ [line];
                      indent_count := indent_count h |}).

Definition indent : H string :=
  fun h => Ok (str_mul (indent_count h) INDENT_SIZE, h).

Definition inc_indent : H unit :=
  fun h => Ok (tt, {| stack := stack h; result := result h;
                      indent_count := indent_count h + 1 |}).

Definition dec_indent : H unit :=
  fun h => Ok (tt, {| stack := stack h; result := result h;
                      indent_count := indent_count h - 1 |}).

Definition pop : H pyobj :=
  fun h => match list_pop (stack h) with
           | Some (x, s) =>
               Ok (x, {| stack := s; result := result h;
                         indent_count := indent_count h |})
           | None => Raise IndexError
           end.

Fixpoint pop_n (n : nat) : H (list pyobj) :=
  match n with
  | O => ret []
  | S n' => x <- pop ;; xs <- pop_n n' ;; ret (x :: xs)
  end.

Definition pop_n_rev (n : nat) : H (list pyobj) :=
  temp <- pop_n n ;; ret (rev temp).

Definition push (val : pyobj) : H unit :=
  fun h => Ok (tt, {| stack := stack h ++ [val]; result := result h;
                      indent_count := indent_count h |}).

(** [self.stack[-1]] *)
Definition top : H pyobj :=
  fun h => match list_pop (stack h) with
           | Some (x, _) => Ok (x, h)
           | None => Raise IndexError
           end.

(** [l[n:] + l[:n]] *)
Definition rotate (n : Z) (l : list pyobj) : list pyobj :=
  list_slice l (Some n) None ++ list_slice l None (Some n).

Definition pop_n_rev_rot (shiftn : Z) (popn : nat) : H (list pyobj) :=
  l <- pop_n_rev popn ;; ret (rotate shiftn l).

Fixpoint read_kargs_loop (num : nat) (kargs : list (pyobj * pyobj))
  : H (list (pyobj * pyobj)) :=
  match num with
  | O => ret kargs
  | S num' =>
      val <- pop ;;
      key <- pop ;;
      kargs' <- lift (dict_setitem kargs key val) ;;
      read_kargs_loop num' kargs'
  end.

(** The items of the dict that [read_kargs] returns. *)
Definition read_kargs (num : Z) : H (list (pyobj * pyobj)) :=
  read_kargs_loop (Z.to_nat num) [].

Fixpoint read_pargs_loop (num : nat) (pargs : list pyobj) : H (list pyobj) :=
  match num with
  | O => ret pargs
  | S num' => x <- pop ;; read_pargs_loop num' (x :: pargs)
  end.

Definition read_pargs (num : Z) : H (list pyobj) :=
  read_pargs_loop (Z.to_nat num) [].

(** The length of [range(o)]: the list is built before it is used, it is
    empty for a negative number, and a number of items that is not in the
    range of a C long raises [OverflowError].  A list of that length is
    taken to fit in memory. *)
Definition range_length (o : pyobj) : res nat :=
  rbind (as_int o) (fun n =>
  if 2 ^ 63 <=? n then Raise OverflowError else Ok (Z.to_nat n)).

(** [[self.stack.pop() for _ in range(argc)]], reversed *)
Definition _make_list (argc : pyobj) : H (list pyobj) :=
  n <- lift (range_length argc) ;;
  temp <- pop_n n ;;
  ret (rev temp).

(** [self.stack[-n:] = l] *)
Definition set_stack_tail (n : Z) (l : list pyobj) : H unit :=
  fun h => set_stack (list_slice (stack h) None (Some (- n)) ++ l) h.

(** [self.stack[-n:]] *)
Definition stack_tail (n : Z) : H (list pyobj) :=
  fun h => Ok (list_slice (stack h) (Some (- n)) None, h).

Section Engine.
Context {optable : OpTable} {runtime : Runtime}.

(** [_FuncCall(func_name, pargs, kargs, pargs_ext, kargs_ext)]; an absent
    extension is [None].  The items of [kargs] are taken in the order of
    the model. *)
Definition new_FuncCall (func_name : string) (pargs : list pyobj)
    (kargs : list (pyobj * pyobj)) (pargs_ext kargs_ext : pyobj) : res pyobj :=
  let all_args := map (py_repr 0) pargs in
  let all_args :=
    if py_truth pargs_ext then all_args ++ ["*" +++ py_repr 0 pargs_ext]
    else all_args in
  rbind
    ((fix items (l : list (pyobj * pyobj)) : res (list string) :=
        match l with
        | [] => Ok []
        | (k, v) :: l' =>
            rbind (get_val k) (fun kval =>
            rbind (as_text kval) (fun ktext =>
            rbind (items l') (fun rest =>
            Ok ((ktext +++ "=" +++ py_str v) :: rest))))
        end) kargs)
    (fun kw =>
       let all_args := all_args ++ kw in
       let all_args :=
         if py_truth kargs_ext then all_args ++ ["**" +++ py_repr 0 kargs_ext]
         else all_args in
       let args_repr := String.concat ", " all_args in
       Ok (_FuncCall func_name pargs kargs args_repr
                     (func_name +++ "(" +++ args_repr +++ ")"))).

(** [_Assigment(name, val).__repr__()], with the default [indent = 0] *)
Definition repr_Assigment (name val : pyobj) : string :=
  str_mul 0 _INDENT +++ py_str name +++ " = " +++ py_str val.

(** [", ".join(l)]: every item is text. *)
Fixpoint join_items (l : list pyobj) : res (list string) :=
  match l with
  | [] => Ok []
  | x :: l' =>
      rbind (as_text x) (fun s =>
      rbind (join_items l') (fun rest => Ok (s :: rest)))
  end.

(** [hasattr(o, "skip_it") and not o.skip_it] *)
Definition has_skip_it_unset (o : pyobj) : bool :=
  match o with
  | _PyObject _ _ skip_it => negb skip_it
  | _ => false
  end.

(** [self.result.append(self.indent() + template.format(...))] *)
Definition emit (template : string) (args : list pyobj) : H unit :=
  ind <- indent ;;
  line <- lift (str_format template args) ;;
  append_result (ind +++ line).

Definition math_symbol (opcode : opname) : string :=
  if op_in opcode pwr_operations then "**"
  else if op_in opcode mul_operations then "*"
  else if op_in opcode floor_div_operations then "//"
  else if op_in opcode true_div_operations then "/"
  else if op_in opcode mod_operations then "%"
  else if op_in opcode add_operations then "+"
  else if op_in opcode sub_operations then "-"
  else if op_in opcode shl_operations then "<<"
  else if op_in opcode shr_operations then ">>"
  else if op_in opcode and_operations then "&"
  else if op_in opcode xor_operations then "^"
  else "|".

(** [self.stack[-1] = o]: the object at the top of the stack after it was
    changed in place. *)
Definition set_top (o : pyobj) : H unit :=
  fun h => match list_pop (stack h) with
           | Some (_, s) => set_stack (s ++ [o]) h
           | None => Raise IndexError
           end.

(** [top.val = prefix + top.val] *)
Definition prefix_top (prefix : string) : H unit :=
  t <- top ;; t' <- lift (prefix_val prefix t) ;; set_top t'.

(** [handle(opcode, arg)]; [arg] is [None] for an opcode without
    argument.  The first statement of the method, the trace
    [print(opcode, arg, self.stack)], is not modelled: see the conventions.
    [IMPORT_NAME] pushes the value of the entry of [co_names], where the
    code pushes the entry itself. *)
Definition handle (opcode : opname) (arg : pyobj) : H unit :=
  if opname_eqb opcode NOP then ret tt
  else if opname_eqb opcode POP_TOP then pop ;;; ret tt
  else if opname_eqb opcode ROT_TWO then
    l <- stack_tail 2 ;; set_stack_tail 2 (rotate 2 l)
  else if opname_eqb opcode ROT_THREE then
    l <- stack_tail 3 ;; set_stack_tail 3 (rotate 3 l)
  else if opname_eqb opcode ROT_FOUR then
    l <- stack_tail 4 ;; set_stack_tail 4 (rotate 4 l)

  else if opname_eqb opcode UNARY_POSITIVE then ret tt
  else if opname_eqb opcode UNARY_NEGATIVE then prefix_top "-"
  else if opname_eqb opcode UNARY_NOT then prefix_top "not "
  else if opname_eqb opcode UNARY_INVERT then prefix_top "~"

  else if opname_eqb opcode LOAD_CONST then push (_PyObject arg false false)
  else if opname_eqb opcode LOAD_NAME then push (_PyObject arg true false)

  else if opname_eqb opcode BUILD_LIST then
    l <- _make_list arg ;; push (PList l)
  else if opname_eqb opcode BUILD_SET then
    l <- _make_list arg ;;
    if forallb hashable l then push (PSet (distinct l)) else raise TypeError
  else if opname_eqb opcode BUILD_TUPLE then
    l <- _make_list arg ;; push (PTuple l)

  else if opname_eqb opcode BUILD_MAP then push (PDict [])
  else if opname_eqb opcode STORE_MAP then
    key <- pop ;;
    value <- pop ;;
    d <- top ;;
    d' <- lift (py_setitem d key value) ;;
    set_top d'

  else if op_in opcode math_operations then
    val2 <- pop ;;
    val1 <- pop ;;
    (* every opcode of [math_operations] is in one of the twelve lists *)
    push (_MathOperation val1 val2 (math_symbol opcode))

  else if op_in opcode slice_expression then
    val <- (if opname_eqb opcode SLICE_0 then
              l <- pop_n_rev 1 ;; lift (str_format "{}[:]" l)
            else if opname_eqb opcode SLICE_1 then
              l <- pop_n_rev 2 ;; lift (str_format "{}[{}:]" l)
            else if opname_eqb opcode SLICE_2 then
              l <- pop_n_rev 2 ;; lift (str_format "{}[:{}]" l)
            else
              l <- pop_n_rev 3 ;; lift (str_format "{}[{}:{}]" l)) ;;
    push (_PyObject (PStr val) true false)

  else if op_in opcode slice_statemant then
    var <- (if opname_eqb opcode STORE_SLICE_0 then
              l <- pop_n 2 ;; lift (str_format "{}[:] = {}" l)
            else if opname_eqb opcode STORE_SLICE_1 then
              l <- pop_n_rev_rot 1 3 ;;
              lift (str_format "{}[{}:] = {}" l)
            else if opname_eqb opcode STORE_SLICE_2 then
              l <- pop_n_rev_rot 1 3 ;;
              lift (str_format "{}[:{}] = {}" l)
            else if opname_eqb opcode STORE_SLICE_3 then
              l <- pop_n_rev_rot 1 4 ;;
              lift (str_format "{}[{}:{}] = {}" l)

            else if opname_eqb opcode DELETE_SLICE_0 then
              x <- pop ;; lift (str_format "del {}[:]" [x])
            else if opname_eqb opcode DELETE_SLICE_1 then
              l <- pop_n_rev 2 ;; lift (str_format "del {}[{}:]" l)
            else if opname_eqb opcode DELETE_SLICE_2 then
              l <- pop_n_rev 2 ;; lift (str_format "del {}[{}:]" l)
            else if opname_eqb opcode DELETE_SLICE_3 then
              l <- pop_n_rev 3 ;; lift (str_format "del {}[{}:{}]" l)

            else if opname_eqb opcode DELETE_SUBSCR then
              (* [pop_n_rev] is called without [self.] *)
              raise NameError
            else
              l <- pop_n_rev_rot 1 3 ;;
              lift (str_format "{}[{}] = {}" l)) ;;
    ind <- indent ;;
    append_result (ind +++ var)
  else if opname_eqb opcode BINARY_SUBSCR then
    tos <- pop ;;
    tos1 <- pop ;;
    s <- lift (str_format "{}[{}]" [tos1; tos]) ;;
    push (PStr s)

  else if opname_eqb opcode IMPORT_NAME then
    pop ;;; push arg

  else if opname_eqb opcode IMPORT_STAR then
    x <- pop ;; emit "from {} import *" [x]
  else if opname_eqb opcode IMPORT_FROM then
    t <- top ;;
    s <- lift (str_format "{}.{}" [t; arg]) ;;
    push (PStr s)

  else if opname_eqb opcode PRINT_ITEM_TO then
    t <- top ;; x <- pop ;; emit "print >> {}, {}" [t; x]
  else if opname_eqb opcode PRINT_NEWLINE_TO then
    x <- pop ;; emit "print >> {}" [x]
  else if opname_eqb opcode PRINT_ITEM then
    x <- pop ;; emit "print({}, end='')" [x]
  else if opname_eqb opcode PRINT_NEWLINE then
    emit "print()" []

  else if op_in opcode function_call then
    a <- lift (as_int arg) ;;
    let pargc := Z.land a 255 in
    let kargc := Z.land (Z.shiftr a 8) 255 in
    ext <- (if opname_eqb opcode CALL_FUNCTION then ret (PNone, PNone)
            else if opname_eqb opcode CALL_FUNCTION_VAR then
              ext_list <- pop ;; ret (ext_list, PNone)
            else if opname_eqb opcode CALL_FUNCTION_KW then
              ext_dict <- pop ;; ret (PNone, ext_dict)
            else
              ext_dict <- pop ;; ext_list <- pop ;; ret (ext_list, ext_dict)) ;;
    kargs <- read_kargs kargc ;;
    pargs <- read_pargs pargc ;;
    f <- pop ;;
    let func_name := py_repr 0 f in
    call <- lift (new_FuncCall func_name pargs kargs (fst ext) (snd ext)) ;;
    push call

  else if opname_eqb opcode MAKE_FUNCTION then
    o <- pop ;;
    code_obj <- lift (get_val o) ;;
    match code_obj with
    | PCode co =>
        let func_name := co_name co in
        let argc := co_argcount co in
        let local_vars := co_varnames co in
        kwargc <- lift (as_int arg) ;;
        plain <- lift (py_slice local_vars None (Some (argc - kwargc))) ;;
        keys <- lift (py_slice local_vars (Some (argc - kwargc)) (Some argc)) ;;
        vals <- pop_n_rev 2 ;;
        let defaults :=
          map (fun kv => PStr (py_str (fst kv) +++ "=" +++ py_str (snd kv)))
              (combine keys vals) in
        all_args <- lift (join_items (plain ++ defaults)) ;;
        ind <- indent ;;
        append_result (ind +++ "def " +++ py_str func_name +++ "("
                       +++ String.concat ", " all_args +++ "):") ;;;
        (* no need to STORE_NAME the function declaration *)
        push (_PyObject (PInt 0) false true)
    | _ => raise AttributeError
    end

  else if opname_eqb opcode RETURN_VALUE then
    (if py_truth arg then emit "return {}" [arg] else ret tt) ;;;
    dec_indent
  else if opname_eqb opcode DELETE_NAME then emit "del {}" [arg]
  else if opname_eqb opcode STORE_NAME then
    tos <- pop ;;
    if has_skip_it_unset tos then
      ind <- indent ;;
      append_result (ind +++ repr_Assigment arg tos)
    else ret tt
  else ret tt.

(** The engine run on a sequence of instructions. *)
Fixpoint handle_all (instrs : list (opname * pyobj)) : H unit :=
  match instrs with
  | [] => ret tt
  | (opcode, arg) :: instrs' => handle opcode arg ;;; handle_all instrs'
  end.

End Engine.

(** ** The deserializer and instruction decoder ([_Disassembler]) *)

Record Module : Type := mk_Module {
  module_magic : Z;
  timestamp : Z;
  python_version : string;
  body : pyobj
}.

Definition _TYPE_NULL : Z := 48.          (* ord('0') *)
Definition _TYPE_NONE : Z := 78.          (* ord('N') *)
Definition _TYPE_FALSE : Z := 70.         (* ord('F') *)
Definition _TYPE_TRUE : Z := 84.          (* ord('T') *)
Definition _TYPE_STOP_ITER : Z := 83.     (* ord('S') *)
Definition _TYPE_ELLIPSIS : Z := 46.      (* ord('.') *)
Definition _TYPE_INT : Z := 105.          (* ord('i') *)
Definition _TYPE_INT64 : Z := 73.         (* ord('I') *)
Definition _TYPE_FLOAT : Z := 102.        (* ord('f') *)
Definition _TYPE_BINARY_FLOAT : Z := 103. (* ord('g') *)
Definition _TYPE_COMPLEX : Z := 120.      (* ord('x') *)
Definition _TYPE_BINARY_COMPLEX : Z := 121. (* ord('y') *)
Definition _TYPE_LONG : Z := 108.         (* ord('l') *)
Definition _TYPE_STRING : Z := 115.       (* ord('s') *)
Definition _TYPE_INTERNED : Z := 116.     (* ord('t') *)
Definition _TYPE_STRING_REF : Z := 82.    (* ord('R') *)
Definition _TYPE_TUPLE : Z := 40.         (* ord('(') *)
Definition _TYPE_LIST : Z := 91.          (* ord('[') *)
Definition _TYPE_DICT : Z := 123.         (* ord('{') *)
Definition _TYPE_CODE : Z := 99.          (* ord('c') *)
Definition _TYPE_UNICODE : Z := 117.      (* ord('u') *)
Definition _TYPE_SET : Z := 60.           (* ord('<') *)
Definition _TYPE_FROZEN_SET : Z := 62.    (* ord('>') *)

Record _Disassembler : Type := mk_Disassembler {
  magic : Z;
  string_table : list string;
  file : list byte
}.

(** A method of the disassembler. *)
Definition D (A : Type) : Type := ST _Disassembler A.

(** [self.file.read(count)] *)
Definition read (count : Z) : D (list byte) :=
  fun d => let (data, rest) := file_read count (file d) in
           Ok (data, {| magic := magic d; string_table := string_table d;
                        file := rest |}).

(** [self.string_table.append(data)] *)
Definition string_table_append (data : string) : D unit :=
  fun d => Ok (tt, {| magic := magic d;
                      string_table := string_table d ++ [data];
                      file := file d |}).

Definition read_int8 : D Z := data <- read 1 ;; lift (unpack_signed 1 data).
Definition read_int16 : D Z := data <- read 2 ;; lift (unpack_signed 2 data).
Definition read_int32 : D Z := data <- read 4 ;; lift (unpack_signed 4 data).

(** [struct.unpack('=' + 'B' * count, data)]: the format has no field when
    [count] is negative. *)
Definition unpack_bytes (count : Z) (data : list byte) : res (list Z) :=
  if Nat.eqb (List.length data) (Z.to_nat count)
  then Ok (map byte_to_Z data) else Raise struct_error.

Definition read_byte_array : D (list Z) :=
  count <- read_int32 ;;
  data <- read count ;;
  lift (unpack_bytes count data).

(** [''.join(chr(c) for c in l)] *)
Fixpoint string_of_codes (l : list Z) : string :=
  match l with
  | [] => EmptyString
  | c :: l' => String (ascii_of_N (Z.to_N c)) (string_of_codes l')
  end.

Definition read_string_ascii : D string :=
  l <- read_byte_array ;; ret (string_of_codes l).

Section Disassembler.
Context {optable : OpTable} {runtime : Runtime}.

Definition read_string_utf8 : D string :=
  count <- read_int32 ;;
  data <- read count ;;
  match utf8_decode data with
  | Some s => ret s
  | None => raise UnicodeDecodeError
  end.

(** [a << b] on an int [a] and a count [b] that is not negative is a long
    when the result is outside the range of an int. *)
Definition shift_is_long (a b : Z) : bool :=
  negb (a =? 0) && negb (b =? 0)
  && ((64 <=? b) || negb (fits_long (Z.shiftl a b))).

(** The loop of [_TYPE_LONG]: [count] digits are still to read, [i] is the
    index of the next one, [n] is a long when [is_long]: [n |= x] is a
    long when [n] or [x] is one. *)
Fixpoint read_digits (count : nat) (i : Z) (n : Z) (is_long : bool)
  : D (Z * bool) :=
  match count with
  | O => ret (n, is_long)
  | S count' =>
      digit <- read_int16 ;;
      read_digits count' (i + 1) (Z.lor n (Z.shiftl digit (i * 15)))
        (is_long || shift_is_long digit (i * 15))
  end.

(** The integer [z] that the code has computed, a long when [is_long]. *)
Definition py_integer (z : Z) (is_long : bool) : pyobj :=
  if is_long && (- 2 ^ 63 <? z) && (z <? 2 ^ 63) then PLong z else PInt z.

(** The branch [_TYPE_LONG]; [-n] on the int [-2^63] is a long. *)
Definition unmarshal_long : D pyobj :=
  nbits <- read_int32 ;;
  if nbits =? 0 then ret (PInt 0)
  else
    r <- read_digits (Z.to_nat (Z.abs nbits)) 0 0 false ;;
    if nbits >? 0 then ret (py_integer (fst r) (snd r))
    else ret (py_integer (- fst r) (snd r || (fst r =? - 2 ^ 63))).

(** The sequence types that [unmarshal_collection] is called with. *)
Inductive collection_type : Type := tuple | list_ | set | frozenset.

(** [type(nodes)] *)
Definition make_collection (type : collection_type) (nodes : list pyobj)
  : res pyobj :=
  match type with
  | tuple => Ok (PTuple nodes)
  | list_ => Ok (PList nodes)
  | set =>
      if forallb hashable nodes then Ok (PSet (distinct nodes))
      else Raise TypeError
  | frozenset =>
      if forallb hashable nodes then Ok (PFrozenSet (distinct nodes))
      else Raise TypeError
  end.

Definition name_opcodes : list opname :=
  [LOAD_NAME; STORE_NAME; DELETE_NAME;
   LOAD_ATTR; STORE_ATTR; DELETE_ATTR;
   LOAD_GLOBAL; STORE_GLOBAL; DELETE_GLOBAL;
   IMPORT_NAME; IMPORT_FROM].
Definition fast_opcodes : list opname := [LOAD_FAST; STORE_FAST; DELETE_FAST].

(** [table[argument]] after the check of [argument] against [len(table)]. *)
Definition table_entry (table : pyobj) (opcode : opname) (argument : Z)
  : res pyobj :=
  rbind (py_len table) (fun n =>
  if argument >=? n
  then Raise (DisassemblerException (Invalid_argument_for_opcode argument opcode))
  else py_getitem table argument).

(** The table that the argument of [opcode] is an index of, if any. *)
Definition argument_table (co_consts co_names co_varnames : pyobj)
    (opcode : opname) : option pyobj :=
  if opname_eqb opcode LOAD_CONST then Some co_consts
  else if op_in opcode name_opcodes then Some co_names
  else if op_in opcode fast_opcodes then Some co_varnames
  else None.

(** "Decode the opcode argument if present" *)
Definition decode_argument (co_consts co_names co_varnames : pyobj)
    (opcode : opname) (argument : Z) : res pyobj :=
  if has_argument opcode then
    match argument_table co_consts co_names co_varnames opcode with
    | Some table => table_entry table opcode argument
    | None => Ok (PInt argument)
    end
  else Ok PNone.

(** The state of the loop "Start disassembly" besides [i] and [argument]. *)
Definition loop_state : Type := (list Opcode_t * _CommandHandler)%type.

(** The body of the loop once the opcode and its argument bytes are read:
    [i] is the offset of the next instruction and [continue_ argument] the
    rest of the loop. *)
Definition loop_body (co_consts co_names co_varnames : pyobj)
    (offset i : Z) (opcode : opname) (argument : Z) (st : loop_state)
    (continue_ : Z -> loop_state -> res loop_state) : res loop_state :=
  if opname_eqb opcode EXTENDED_ARG then continue_ (Z.shiftl argument 16) st
  else
    rbind (decode_argument co_consts co_names co_varnames opcode argument)
      (fun arg =>
         let opcodes := fst st ++ [Opcode offset (i - offset) opcode arg] in
         match handle opcode arg (snd st) with
         | Ok (_, handler) => continue_ 0 (opcodes, handler)
         | Raise e => Raise e
         end).

(** [while i < len(co.co_code)]: [code] is [co.co_code[i:]]. *)
Fixpoint disassemble_loop (magic : Z) (co_consts co_names co_varnames : pyobj)
    (code : list Z) (i : Z) (argument : Z) (st : loop_state) {struct code}
  : res loop_state :=
  match code with
  | [] => Ok st
  | b :: code1 =>
      match from_bytecode b magic with
      | None => Raise (DisassemblerException (Unknown_bytecode b))
      | Some opcode =>
          if has_argument opcode then
            match code1 with
            | lo :: hi :: code2 =>
                loop_body co_consts co_names co_varnames i (i + 1 + 2) opcode
                  (Z.lor argument (Z.lor lo (Z.shiftl hi 8))) st
                  (disassemble_loop magic co_consts co_names co_varnames
                     code2 (i + 1 + 2))
            | _ => Raise ValueError
            end
          else
            loop_body co_consts co_names co_varnames i (i + 1) opcode
              argument st
              (disassemble_loop magic co_consts co_names co_varnames
                 code1 (i + 1))
      end
  end.

(** [[node() for i in range(count)]] *)
Fixpoint repeat_node (node : D pyobj) (count : nat) : D (list pyobj) :=
  match count with
  | O => ret []
  | S count' => x <- node ;; xs <- repeat_node node count' ;; ret (x :: xs)
  end.

Definition unmarshal_collection (unmarshal_node : D pyobj)
    (type : collection_type) : D pyobj :=
  count <- read_int32 ;;
  nodes <- repeat_node unmarshal_node (Z.to_nat count) ;;
  lift (make_collection type nodes).

(** "Start disassembly": the opcodes of a code object and the engine that
    has handled them. *)
Definition disassemble_code (magic : Z) (co_consts co_names co_varnames : pyobj)
    (co_code : list Z) : res loop_state :=
  disassemble_loop magic co_consts co_names co_varnames co_code 0 0
    ([], new_CommandHandler).

(** The branch [_TYPE_CODE] of [unmarshal_node]. *)
Definition unmarshal_code (unmarshal_node : D pyobj) : D pyobj :=
  d <- get ;;
  co_argcount <- read_int32 ;;
  co_kwonlyargcount <-
    (if has_kwonlyargcount (magic d) then read_int32 else ret 0) ;;
  co_nlocals <- read_int32 ;;
  co_stacksize <- read_int32 ;;
  co_flags <- read_int32 ;;
  type <- read_int8 ;;
  if negb (type =? _TYPE_STRING)
  then raise (DisassemblerException (Bytecode_not_marshalled_as_string type))
  else
    co_code <- read_byte_array ;;
    co_consts <- unmarshal_node ;;
    co_names <- unmarshal_node ;;
    co_varnames <- unmarshal_node ;;
    co_freevars <- unmarshal_node ;;
    co_cellvars <- unmarshal_node ;;
    co_filename <- unmarshal_node ;;
    co_name <- unmarshal_node ;;
    co_firstlineno <- read_int32 ;;
    co_lnotab <- unmarshal_node ;;
    st <- lift (disassemble_code (magic d) co_consts co_names co_varnames
                                 co_code) ;;
    ret (PCode (CodeObject co_argcount co_kwonlyargcount co_nlocals
                           co_stacksize co_flags co_code co_consts co_names
                           co_varnames co_freevars co_cellvars co_filename
                           co_name co_firstlineno co_lnotab (fst st))).

(** [unmarshal_node()]; [fuel] bounds the depth of the recursion.  Every
    call reads a byte first, so that the depth never exceeds the length of
    the file.  CPython bounds the depth as well, by its recursion limit,
    and raises [RuntimeError] there: the results of the model are those of
    an interpreter whose limit is not reached. *)
Fixpoint unmarshal_node (fuel : nat) : D pyobj :=
  match fuel with
  | O => raise OutOfFuel
  | S fuel' =>
      type <- read_int8 ;;

      (* Global singletons *)
      if type =? _TYPE_NONE then ret PNone
      else if type =? _TYPE_TRUE then ret (PBool true)
      else if type =? _TYPE_FALSE then ret (PBool false)

      (* Collections *)
      else if type =? _TYPE_TUPLE then
        unmarshal_collection (unmarshal_node fuel') tuple
      else if type =? _TYPE_LIST then
        unmarshal_collection (unmarshal_node fuel') list_
      else if type =? _TYPE_SET then
        unmarshal_collection (unmarshal_node fuel') set
      else if type =? _TYPE_FROZEN_SET then
        unmarshal_collection (unmarshal_node fuel') frozenset

      (* Numbers *)
      else if type =? _TYPE_INT then n <- read_int32 ;; ret (PInt n)
      else if type =? _TYPE_INT64 then
        data <- read 8 ;; n <- lift (unpack_signed 8 data) ;; ret (PInt n)
      else if type =? _TYPE_BINARY_FLOAT then
        data <- read 8 ;;
        if Nat.eqb (List.length data) 8 then ret (PFloat data)
        else raise struct_error
      else if type =? _TYPE_BINARY_COMPLEX then
        data <- read 16 ;;
        if Nat.eqb (List.length data) 16 then ret (PComplex data)
        else raise struct_error
      else if type =? _TYPE_LONG then unmarshal_long

      (* Strings *)
      else if type =? _TYPE_STRING then
        s <- read_string_ascii ;; ret (PStr s)
      else if type =? _TYPE_UNICODE then
        s <- read_string_utf8 ;; ret (PUnicode s)
      else if type =? _TYPE_INTERNED then
        data <- read_string_ascii ;;
        string_table_append data ;;;
        ret (PStr data)
      else if type =? _TYPE_STRING_REF then
        index <- read_int32 ;;
        d <- get ;;
        if (index <? 0) || (index >=? Z.of_nat (List.length (string_table d)))
        then raise (DisassemblerException
                      (String_index_outside_string_table index))
        else
          match nth_error (string_table d) (Z.to_nat index) with
          | Some data => ret (PStr data)
          | None => raise IndexError
          end

      (* Code objects *)
      else if type =? _TYPE_CODE then unmarshal_code (unmarshal_node fuel')

      else raise (DisassemblerException (Cannot_unmarshal_unknown_type type))
  end.

(** [_Disassembler().disassemble(file)] *)
Definition disassemble (fuel : nat) (f : list byte) : res Module :=
  let (header, rest) := file_read 8 f in
  if negb (Nat.eqb (List.length header) 8) then Raise struct_error
  else
    let magic := unpack_le (firstn 4 header) in
    let timestamp := unpack_le (skipn 4 header) in
    match python_version_from_magic magic with
    | Some version =>
        if String.eqb version EmptyString
        then Raise (DisassemblerException (Unknown_magic_header_number magic))
        else
          match unmarshal_node fuel
                  {| magic := magic; string_table := []; file := rest |} with
          | Ok (body, _) =>
              Ok {| module_magic := magic; timestamp := timestamp;
                    python_version := "Python " +++ version; body := body |}
          | Raise e => Raise e
          end
    | None => Raise (DisassemblerException (Unknown_magic_header_number magic))
    end.

End Disassembler.

(** ** A sample opcode table and runtime

    The entries of the opcode table of CPython 2.7 for the opcodes used in
    the examples below, and a runtime that writes a double as the decimal
    value of its bit pattern. *)

Definition sample_from_bytecode (b magic : Z) : option opname :=
  if b =? 9 then Some NOP
  else if b =? 1 then Some POP_TOP
  else if b =? 2 then Some ROT_TWO
  else if b =? 23 then Some BINARY_ADD
  else if b =? 83 then Some RETURN_VALUE
  else if b =? 90 then Some STORE_NAME
  else if b =? 100 then Some LOAD_CONST
  else if b =? 101 then Some LOAD_NAME
  else if b =? 102 then Some BUILD_TUPLE
  else if b =? 124 then Some LOAD_FAST
  else if b =? 131 then Some CALL_FUNCTION
  else if b =? 132 then Some MAKE_FUNCTION
  else if b =? 145 then Some EXTENDED_ARG
  else None.

Definition sample_has_argument (o : opname) : bool :=
  op_in o [STORE_NAME; LOAD_CONST; LOAD_NAME; BUILD_TUPLE; LOAD_FAST;
           CALL_FUNCTION; MAKE_FUNCTION; EXTENDED_ARG].

#[export] Instance sample_optable : OpTable := {|
  from_bytecode := sample_from_bytecode;
  has_argument := sample_has_argument;
  has_kwonlyargcount := fun _ => false;
  python_version_from_magic := fun m => if m =? 168686339 then Some "2.7" else None;
  repr_opname := fun _ => "<opcode>"
|}.

#[export] Instance sample_runtime : Runtime := {|
  utf8_decode := fun data => Some (string_of_codes (map byte_to_Z data));
  repr_unicode := fun s => "u" +++ repr_str s;
  repr_float := fun bits => repr_int (unpack_le bits);
  str_float := fun bits => repr_int (unpack_le bits);
  repr_complex := fun bits => repr_int (unpack_le bits);
  str_complex := fun bits => repr_int (unpack_le bits)
|}.

(** ** Inputs of the examples *)

(** The code object of [def name(a, b=5): pass], once decoded. *)
Definition name_a_b : CodeObject_t :=
  CodeObject 2 0 2 1 67 [100; 0; 0; 83]
    (PTuple [PNone]) (PTuple []) (PTuple [PStr "a"; PStr "b"])
    (PTuple []) (PTuple []) (PStr "m.py") (PStr "name") 1 (PStr EmptyString)
    [Opcode 0 3 LOAD_CONST PNone; Opcode 3 1 RETURN_VALUE PNone].

(** ** The encodings that the properties decode

    [disasm.py] has no encoder.  The byte strings below follow the
    description of the marshal format: a tag byte, then 32-bit counts and
    16-bit digits in little-endian order. *)

(** The [count] digits of [m] in base [2^15], least significant first. *)
Fixpoint long_digits (count : nat) (m : Z) : list Z :=
  match count with
  | O => []
  | S count' => Z.land m 32767 :: long_digits count' (Z.shiftr m 15)
  end.

(** The number of digits in base [2^15] of a natural number [m]. *)
Definition long_size (m : Z) : nat :=
  if m =? 0 then O else Z.to_nat (Z.log2 m / 15 + 1).

(** The encoding of the integer [n] as an arbitrary-precision integer: the
    tag, the number of digits with the sign of [n], the digits of [|n|]. *)
Definition encode_long (n : Z) : list byte :=
  let size := long_size (Z.abs n) in
  byte_of_Z _TYPE_LONG
  :: pack_le 4 (Z.sgn n * Z.of_nat size)
  ++ flat_map (pack_le 2) (long_digits size (Z.abs n)).

(** An interned string: the tag, the length, the characters. *)
Definition encode_interned (s : string) : list byte :=
  byte_of_Z _TYPE_INTERNED
  :: pack_le 4 (Z.of_nat (String.length s)) ++ list_byte_of_string s.

(** A reference to the entry [index] of the string table. *)
Definition encode_string_ref (index : Z) : list byte :=
  byte_of_Z _TYPE_STRING_REF :: pack_le 4 index.

(** A value with the tag [type] and the element count [count], before its
    elements. *)
Definition encode_counted (type count : Z) : list byte :=
  byte_of_Z type :: pack_le 4 count.

(** [self.file = f] *)
Definition with_file (d : _Disassembler) (f : list byte) : _Disassembler :=
  {| magic := magic d; string_table := string_table d; file := f |}.

(** A later state of the disassembler in one pass: every change of the
    state is a read of the file or happens in a call of [unmarshal_node]. *)
Inductive later {optable : OpTable} {runtime : Runtime}
  : _Disassembler -> _Disassembler -> Prop :=
| later_now (d : _Disassembler) : later d d
| later_read (count : Z) (d d1 d2 : _Disassembler) (data : list byte) :
    read count d = Ok (data, d1) -> later d1 d2 -> later d d2
| later_node (fuel : nat) (d d1 d2 : _Disassembler) (v : pyobj) :
    unmarshal_node fuel d = Ok (v, d1) -> later d1 d2 -> later d d2.

(** A method that leaves the magic number and can only append to the
    string table. *)
Definition grows {A} (m : D A) : Prop :=
  forall d a d', m d = Ok (a, d') ->
    magic d' = magic d
    /\ exists ext, string_table d' = string_table d ++ ext.

(** ** Definitions of the further properties *)

(** The operands whose text the model has as Python writes it: [None],
    booleans, ints, byte strings, tuples and lists of these, and the
    objects that the engine makes of them.  A long, unicode text, a float,
    a set, a dict, a code object and a call are not among them: see
    [py_repr]. *)
Fixpoint plain (o : pyobj) : bool :=
  match o with
  | PNone | PBool _ | PStr _ => true
  | PInt z => (- 2 ^ 63 <? z) && (z <? 2 ^ 63)
  | PTuple l | PList l => forallb plain l
  | _PyObject val _ _ => plain val
  | _MathOperation val1 val2 _ => plain val1 && plain val2
  | _ => false
  end.


(** The prefixes that the unary instructions write. *)
Definition unary_prefixes : list (opname * string) :=
  [(UNARY_NEGATIVE, "-"); (UNARY_NOT, "not "); (UNARY_INVERT, "~")].

(** A method of the engine that leaves the output and the indentation. *)
Definition quiet {A} (m : H A) : Prop :=
  forall h a h', m h = Ok (a, h') ->
    result h' = result h /\ indent_count h' = indent_count h.

(** A method of the engine that leaves the indentation and appends at most
    one line to the output. *)
Definition emits {A} (m : H A) : Prop :=
  forall h a h', m h = Ok (a, h') ->
    indent_count h' = indent_count h
    /\ (result h' = result h \/ exists line, result h' = result h ++ [line]).

(** A 32-bit integer: the tag, the four bytes. *)
Definition encode_int (z : Z) : list byte :=
  byte_of_Z _TYPE_INT :: pack_le 4 z.

(** A 64-bit integer: the tag, the eight bytes. *)
Definition encode_int64 (z : Z) : list byte :=
  byte_of_Z _TYPE_INT64 :: pack_le 8 z.

(** A string that is not interned: the tag, the length, the characters. *)
Definition encode_string (s : string) : list byte :=
  byte_of_Z _TYPE_STRING
  :: pack_le 4 (Z.of_nat (String.length s)) ++ list_byte_of_string s.

(** The type tags that [unmarshal_node] has a branch for. *)
Definition handled_types : list Z :=
  [_TYPE_NONE; _TYPE_TRUE; _TYPE_FALSE; _TYPE_TUPLE; _TYPE_LIST; _TYPE_SET;
   _TYPE_FROZEN_SET; _TYPE_INT; _TYPE_INT64; _TYPE_BINARY_FLOAT;
   _TYPE_BINARY_COMPLEX; _TYPE_LONG; _TYPE_STRING; _TYPE_UNICODE;
   _TYPE_INTERNED; _TYPE_STRING_REF; _TYPE_CODE].

(** A method of the disassembler that only takes bytes from the front of
    the file. *)
Definition consumes {A} (m : D A) : Prop :=
  forall d a d', m d = Ok (a, d') ->
    exists consumed, file d = consumed ++ file d'.

Section Dispatch.
Context {optable : OpTable} {runtime : Runtime}.

(** The branches of [unmarshal_node] after the type tag; [node] is the
    recursive call. *)
Definition dispatch (node : D pyobj) (type : Z) : D pyobj :=
  if type =? _TYPE_NONE then ret PNone
  else if type =? _TYPE_TRUE then ret (PBool true)
  else if type =? _TYPE_FALSE then ret (PBool false)
  else if type =? _TYPE_TUPLE then unmarshal_collection node tuple
  else if type =? _TYPE_LIST then unmarshal_collection node list_
  else if type =? _TYPE_SET then unmarshal_collection node set
  else if type =? _TYPE_FROZEN_SET then unmarshal_collection node frozenset
  else if type =? _TYPE_INT then n <- read_int32 ;; ret (PInt n)
  else if type =? _TYPE_INT64 then
    data <- read 8 ;; n <- lift (unpack_signed 8 data) ;; ret (PInt n)
  else if type =? _TYPE_BINARY_FLOAT then
    data <- read 8 ;;
    if Nat.eqb (List.length data) 8 then ret (PFloat data)
    else raise struct_error
  else if type =? _TYPE_BINARY_COMPLEX then
    data <- read 16 ;;
    if Nat.eqb (List.length data) 16 then ret (PComplex data)
    else raise struct_error
  else if type =? _TYPE_LONG then unmarshal_long
  else if type =? _TYPE_STRING then s <- read_string_ascii ;; ret (PStr s)
  else if type =? _TYPE_UNICODE then
    s <- read_string_utf8 ;; ret (PUnicode s)
  else if type =? _TYPE_INTERNED then
    data <- read_string_ascii ;;
    string_table_append data ;;;
    ret (PStr data)
  else if type =? _TYPE_STRING_REF then
    index <- read_int32 ;;
    d <- get ;;
    if (index <? 0) || (index >=? Z.of_nat (List.length (string_table d)))
    then raise (DisassemblerException
                  (String_index_outside_string_table index))
    else
      match nth_error (string_table d) (Z.to_nat index) with
      | Some data => ret (PStr data)
      | None => raise IndexError
      end
  else if type =? _TYPE_CODE then unmarshal_code node
  else raise (DisassemblerException (Cannot_unmarshal_unknown_type type)).

End Dispatch.

(** No entry of the table is a list.  [IMPORT_NAME] pushes the entry of
    [co_names] itself, and [STORE_MAP] changes in place a list that is the
    top of the stack: without a list among the entries, no object of the
    code object is changed by the engine. *)
Definition has_no_list_entry (table : pyobj) : bool :=
  match table with
  | PTuple l | PList l =>
      forallb (fun x => match x with PList _ => false | _ => true end) l
  | _ => true
  end.

(** What the engine is given for a record. *)
Definition instruction_of (r : Opcode_t) : opname * pyobj :=
  (opcode r, argument r).

(** Records in the order of their offsets, none overlapping the next,
    all between the offsets [lo] and [hi]. *)
Fixpoint in_order (lo hi : Z) (recs : list Opcode_t) : bool :=
  match recs with
  | [] => lo <=? hi
  | r :: recs' =>
      (lo <=? offset r) && in_order (offset r + size r) hi recs'
  end.

Section Records.
Context {optable : OpTable}.

(** A record of an instruction of the bytecode [code], which starts at the
    offset [i]: the byte at the offset of the record is the byte of its
    opcode, and its size counts the two bytes of the argument. *)
Definition record_of (magic : Z) (code : list Z) (i : Z) (r : Opcode_t)
  : Prop :=
  (exists b,
     nth_error code (Z.to_nat (offset r - i)) = Some b
     /\ from_bytecode b magic = Some (opcode r))
  /\ i <= offset r
  /\ size r = (if has_argument (opcode r) then 3 else 1)
  /\ opcode r <> EXTENDED_ARG
  /\ (has_argument (opcode r) = false -> argument r = PNone).

End Records.

(** A code object up to its bytecode: the tag, the counts and flags (the
    number of keyword-only arguments only when [kwonly]), and the bytecode
    as a string. *)
Definition encode_code_header (kwonly : bool)
    (argcount kwonlyargcount nlocals stacksize flags : Z)
    (code : list byte) : list byte :=
  byte_of_Z _TYPE_CODE
  :: pack_le 4 argcount
  ++ (if kwonly then pack_le 4 kwonlyargcount else [])
  ++ pack_le 4 nlocals ++ pack_le 4 stacksize ++ pack_le 4 flags
  ++ byte_of_Z _TYPE_STRING
  :: pack_le 4 (Z.of_nat (List.length code)) ++ code.

Section Chunks.
Context {optable : OpTable} {runtime : Runtime}.

(** The bytes [chunk] are the encoding of the value [v] for a disassembler
    in the state [d] (its file apart): whatever follows them in the file,
    [unmarshal_node] reads them, returns [v] and leaves the state [d']. *)
Definition decodes (fuel : nat) (d : _Disassembler) (chunk : list byte)
    (v : pyobj) (d' : _Disassembler) : Prop :=
  forall rest,
    unmarshal_node fuel (with_file d (chunk ++ rest))
    = Ok (v, with_file d' rest).

(** Encodings of values one after the other. *)
Inductive decodes_all (fuel : nat)
  : _Disassembler -> list (list byte) -> list pyobj -> _Disassembler -> Prop :=
| decodes_nil (d : _Disassembler) : decodes_all fuel d [] [] d
| decodes_cons (d d1 d2 : _Disassembler) (chunk : list byte) (v : pyobj)
    (chunks : list (list byte)) (vs : list pyobj) :
    decodes fuel d chunk v d1 ->
    decodes_all fuel d1 chunks vs d2 ->
    decodes_all fuel d (chunk :: chunks) (v :: vs) d2.

End Chunks.

(** * Properties *)

(** ** Lists, slices and the operand stack *)

Lemma list_pop_app {A} (l : list A) (x : A) :
  list_pop (l ++ [x]) = Some (x, l).
Proof.
  induction l as [|y l IH]; simpl; [reflexivity|].
  rewrite IH. destruct (l ++ [x]) eqn:E; [|reflexivity].
  destruct l; discriminate.
Qed.

Lemma list_pop_app_r {A} (rest l l' : list A) (x : A) :
  list_pop l = Some (x, l') -> list_pop (rest ++ l) = Some (x, rest ++ l').
Proof.
  intros Hl. induction rest as [|y rest IH]; simpl; [exact Hl|].
  rewrite IH. destruct (rest ++ l) eqn:E; [|reflexivity].
  destruct rest; simpl in E; [rewrite E in Hl|]; discriminate.
Qed.

Lemma list_slice_to {A} (l : list A) (b : Z) :
  list_slice l None (Some b)
  = firstn (slice_bound (Z.of_nat (List.length l)) b) l.
Proof. unfold list_slice. simpl. now rewrite Nat.sub_0_r. Qed.

Lemma list_slice_from {A} (l : list A) (a : Z) :
  list_slice l (Some a) None
  = skipn (slice_bound (Z.of_nat (List.length l)) a) l.
Proof.
  unfold list_slice. apply firstn_all2. rewrite length_skipn.
  apply Nat.le_refl.
Qed.

(** [l[:b] + l[b:]] is [l], for every bound. *)
Lemma list_slice_split {A} (l : list A) (b : Z) :
  list_slice l None (Some b) ++ list_slice l (Some b) None = l.
Proof. rewrite list_slice_to, list_slice_from. apply firstn_skipn. Qed.

Lemma slice_bound_all (len n : Z) :
  0 <= len <= n -> slice_bound len n = Z.to_nat len.
Proof. intros Hn. unfold slice_bound. destruct (Z.ltb_spec n 0); f_equal; lia. Qed.

(** The rotation by [n] of a list of at most [n] elements is the list. *)
Lemma rotate_all (n : Z) (l : list pyobj) :
  Z.of_nat (List.length l) <= n -> rotate n l = l.
Proof.
  intros Hn. unfold rotate. rewrite list_slice_to, list_slice_from.
  rewrite slice_bound_all by lia. rewrite Nat2Z.id.
  now rewrite skipn_all, firstn_all.
Qed.

Lemma length_stack_tail (n : Z) (s : list pyobj) :
  0 < n -> Z.of_nat (List.length (list_slice s (Some (- n)) None)) <= n.
Proof.
  intros Hn. rewrite list_slice_from, length_skipn. unfold slice_bound.
  destruct (Z.ltb_spec (- n) 0); lia.
Qed.

Lemma handler_eta (h : _CommandHandler) :
  {| stack := stack h; result := result h; indent_count := indent_count h |}
  = h.
Proof. now destruct h. Qed.

(** [self.stack[-n:] = self.rotate(n, self.stack[-n:])] changes nothing. *)
Lemma rotate_tail_id (n : Z) (h : _CommandHandler) :
  0 < n ->
  (l <- stack_tail n ;; set_stack_tail n (rotate n l)) h = Ok (tt, h).
Proof.
  intros Hn. unfold bind, stack_tail, set_stack_tail, set_stack.
  rewrite rotate_all by now apply length_stack_tail.
  now rewrite list_slice_split, handler_eta.
Qed.

Lemma append_empty_r (s : string) : s +++ EmptyString = s.
Proof. induction s as [|c s IH]; simpl; [reflexivity | now rewrite IH]. Qed.

(** ** The reconstruction engine *)

Section EngineProperties.
Context {optable : OpTable} {runtime : Runtime}.

Lemma pop_app (rest : list pyobj) (x : pyobj) (r : list string) (ind : Z) :
  pop {| stack := rest ++ [x]; result := r; indent_count := ind |}
  = Ok (x, {| stack := rest; result := r; indent_count := ind |}).
Proof. unfold pop. simpl. now rewrite list_pop_app. Qed.

Lemma top_app (rest : list pyobj) (x : pyobj) (r : list string) (ind : Z) :
  top {| stack := rest ++ [x]; result := r; indent_count := ind |}
  = Ok (x, {| stack := rest ++ [x]; result := r; indent_count := ind |}).
Proof. unfold top. simpl. now rewrite list_pop_app. Qed.

Lemma pop_nil (r : list string) (ind : Z) :
  pop {| stack := []; result := r; indent_count := ind |} = Raise IndexError.
Proof. reflexivity. Qed.

(** C9. On an operand stack of at least two (three, four) elements,
    ROT_TWO (ROT_THREE, ROT_FOUR) leaves the engine, and so the operand
    stack, exactly as it was: [rotate] with shift [n] is the identity on a
    slice of [n] elements. *)
Theorem rot_leaves_stack_unchanged
    (opcode : opname) (n : Z) (arg : pyobj) (h : _CommandHandler) :
  In (opcode, n) [(ROT_TWO, 2); (ROT_THREE, 3); (ROT_FOUR, 4)] ->
  n <= Z.of_nat (List.length (stack h)) ->
  handle opcode arg h = Ok (tt, h)
  /\ List.length (list_slice (stack h) (Some (- n)) None) = Z.to_nat n
  /\ (forall l : list pyobj,
        Z.of_nat (List.length l) = n -> rotate n l = l).
Proof.
  intros Hop Hlen.
  assert (Hn : 0 < n)
    by (simpl in Hop; intuition (try congruence);
        match goal with E : (_, _) = (_, _) |- _ => inversion E; lia end).
  repeat split.
  - simpl in Hop.
    destruct Hop as [E|[E|[E|[]]]]; inversion E; subst;
      unfold handle; simpl; now apply rotate_tail_id.
  - rewrite list_slice_from, length_skipn. unfold slice_bound.
    destruct (Z.ltb_spec (- n) 0); lia.
  - intros l Hl. apply rotate_all. lia.
Qed.

(** [STORE_NAME] of an instance of [_PyObject] whose [skip_it] is unset
    appends the assignment at the current indent. *)
Lemma store_name_PyObject (arg val : pyobj) (print_raw : bool)
    (rest : list pyobj) (r : list string) (ind : Z) :
  handle STORE_NAME arg
    {| stack := rest ++ [_PyObject val print_raw false]; result := r;
       indent_count := ind |}
  = Ok (tt, {| stack := rest;
               result := r ++ [str_mul ind INDENT_SIZE +++ py_str arg +++ " = "
                               +++ py_str (_PyObject val print_raw false)];
               indent_count := ind |}).
Proof. unfold handle. simpl. unfold bind. now rewrite pop_app. Qed.

(** [STORE_NAME] of the marker that [MAKE_FUNCTION] pushes appends
    nothing. *)
Lemma store_name_skip (arg val : pyobj) (print_raw : bool)
    (rest : list pyobj) (r : list string) (ind : Z) :
  handle STORE_NAME arg
    {| stack := rest ++ [_PyObject val print_raw true]; result := r;
       indent_count := ind |}
  = Ok (tt, {| stack := rest; result := r; indent_count := ind |}).
Proof. unfold handle. simpl. unfold bind. now rewrite pop_app. Qed.


(** C1. The sequence "push name f; push constant 1; push constant 2; call
    with 2 positional arguments; store into name x" runs without error
    and leaves no line in the output: the line [x = f(1, 2)] is not
    appended, the call on the stack being an instance of [_FuncCall],
    which has no attribute [skip_it]. *)
Theorem call_then_store_name_emits_nothing :
  handle_all [(LOAD_NAME, PStr "f"); (LOAD_CONST, PInt 1);
              (LOAD_CONST, PInt 2); (CALL_FUNCTION, PInt 2);
              (STORE_NAME, PStr "x")] new_CommandHandler
  = Ok (tt, {| stack := []; result := []; indent_count := 0 |})
  /\ handle_all [(LOAD_NAME, PStr "f"); (LOAD_CONST, PInt 1);
                 (LOAD_CONST, PInt 2); (CALL_FUNCTION, PInt 2)]
       new_CommandHandler
     = Ok (tt, {| stack := [_FuncCall "f" [_PyObject (PInt 1) false false;
                                           _PyObject (PInt 2) false false]
                                      [] "1, 2" "f(1, 2)"];
                  result := []; indent_count := 0 |}).
Proof. split; reflexivity. Qed.

(** C2. The sequence "push constant 2; push constant 3; binary-add;
    return" leaves no line in the output: [RETURN_VALUE] tests and writes
    its own argument, which is [None] for an opcode without argument, and
    not the value on the stack; it decrements the indent counter. *)
Theorem return_of_sum_emits_nothing :
  handle_all [(LOAD_CONST, PInt 2); (LOAD_CONST, PInt 3);
              (BINARY_ADD, PNone); (RETURN_VALUE, PNone)] new_CommandHandler
  = Ok (tt, {| stack := [_MathOperation (_PyObject (PInt 2) false false)
                                        (_PyObject (PInt 3) false false) "+"];
               result := []; indent_count := -1 |})
  /\ py_str (_MathOperation (_PyObject (PInt 2) false false)
                            (_PyObject (PInt 3) false false) "+")
     = "(2 + 3)".
Proof. split; reflexivity. Qed.

(** What [RETURN_VALUE] does: a line [return <arg>] when its argument is
    true, and one level of indentation less in every case. *)
Lemma return_value_spec (arg : pyobj) (h : _CommandHandler) :
  handle RETURN_VALUE arg h
  = Ok (tt, {| stack := stack h;
               result := if py_truth arg
                         then result h ++ [str_mul (indent_count h) INDENT_SIZE
                                           +++ "return " +++ py_str arg]
                         else result h;
               indent_count := indent_count h - 1 |}).
Proof.
  unfold handle. simpl. unfold bind, emit, bind, indent, lift. simpl.
  destruct (py_truth arg); simpl; [|reflexivity].
  unfold append_result, dec_indent. simpl.
  now rewrite append_empty_r.
Qed.

Lemma pop_app_r (rest l l' : list pyobj) (x : pyobj) (r : list string)
    (ind : Z) :
  list_pop l = Some (x, l') ->
  pop {| stack := rest ++ l; result := r; indent_count := ind |}
  = Ok (x, {| stack := rest ++ l'; result := r; indent_count := ind |}).
Proof. intros Hl. unfold pop. simpl. now rewrite (@list_pop_app_r _ rest _ _ _ Hl). Qed.

(** Rewrites the first [pop] from a stack [rest ++ l] whose end [l] is
    explicit. *)
Ltac pop_step :=
  match goal with
  | |- context [pop {| stack := ?rest ++ ?l; result := ?r;
                       indent_count := ?i |}] =>
      let p := eval simpl in (list_pop l) in
      match p with
      | Some (?x, ?l') => rewrite (@pop_app_r rest l l' x r i eq_refl)
      end
  end.

(** C3. The instructions that define [def name(a, b=5)] -- push the
    default 5, push the code object, [MAKE_FUNCTION 1], store into [name]
    -- raise [IndexError] at [MAKE_FUNCTION], which pops two operands
    below the code object where one default was pushed: no header line is
    appended. *)
Theorem make_function_one_default_underflows :
  handle_all [(LOAD_CONST, PInt 5); (LOAD_CONST, PCode name_a_b);
              (MAKE_FUNCTION, PInt 1); (STORE_NAME, PStr "name")]
             new_CommandHandler
  = Raise IndexError
  /\ handle_all [(LOAD_CONST, PInt 5); (LOAD_CONST, PCode name_a_b)]
                new_CommandHandler
     = Ok (tt, {| stack := [_PyObject (PInt 5) false false;
                            _PyObject (PCode name_a_b) false false];
                  result := []; indent_count := 0 |}).
Proof. split; reflexivity. Qed.

(** With two operands below the code object, [MAKE_FUNCTION 1] writes the
    header with the lower of the two as the default of [b], drops both and
    pushes the marker whose [skip_it] is set. *)
Lemma make_function_two_operands (d1 d2 : pyobj) (rest : list pyobj)
    (r : list string) (ind : Z) :
  handle MAKE_FUNCTION (PInt 1)
    {| stack := rest ++ [d1; d2; _PyObject (PCode name_a_b) false false];
       result := r; indent_count := ind |}
  = Ok (tt, {| stack := rest ++ [_PyObject (PInt 0) false true];
               result := r ++ [str_mul ind INDENT_SIZE +++ "def name(a, b="
                               +++ py_str d1 +++ "):"];
               indent_count := ind |}).
Proof.
  unfold handle. simpl. unfold bind.
  pop_step. simpl.
  unfold pop_n_rev, bind. simpl. unfold bind.
  do 2 pop_step. simpl.
  rewrite app_nil_r. reflexivity.
Qed.



End EngineProperties.

(** C9 at the stack [1, 2, 3] and [ROT_THREE]. *)
Lemma rot_leaves_stack_unchanged_witness :
  handle ROT_THREE PNone
    {| stack := [PInt 1; PInt 2; PInt 3]; result := []; indent_count := 0 |}
  = Ok (tt, {| stack := [PInt 1; PInt 2; PInt 3]; result := [];
               indent_count := 0 |}).
Proof.
  apply (@rot_leaves_stack_unchanged sample_optable sample_runtime
           ROT_THREE 3 PNone).
  - simpl. right. left. reflexivity.
  - simpl. lia.
Defined.



(** ** Bytes and integers *)

Lemma byte_to_Z_range (b : byte) : 0 <= byte_to_Z b < 256.
Proof.
  unfold byte_to_Z. pose proof (Byte.to_N_bounded b). lia.
Qed.

Lemma byte_to_of_Z (z : Z) : byte_to_Z (byte_of_Z z) = z mod 256.
Proof.
  unfold byte_to_Z, byte_of_Z.
  pose proof (Z.mod_pos_bound z 256 ltac:(lia)) as Hm.
  destruct (Byte.of_N (Z.to_N (z mod 256))) as [b|] eqn:E.
  - apply Byte.to_of_N in E. rewrite E. lia.
  - apply Byte.of_N_None_iff in E. lia.
Qed.

(** A number is its [k] low bits and the rest, shifted back. *)
Lemma lor_low_high (k x : Z) :
  0 <= k -> Z.lor (Z.land x (Z.ones k)) (Z.shiftl (Z.shiftr x k) k) = x.
Proof.
  intros Hk. apply Z.bits_inj'. intros n Hn.
  rewrite Z.lor_spec, Z.land_spec, Z.shiftl_spec by exact Hn.
  destruct (Z.ltb_spec n k) as [Hlt|Hge].
  - rewrite Z.ones_spec_low by lia.
    rewrite (Z.testbit_neg_r _ (n - k)) by lia.
    now rewrite andb_true_r, orb_false_r.
  - rewrite Z.ones_spec_high by lia.
    rewrite Z.shiftr_spec by lia.
    rewrite andb_false_r. simpl. f_equal. lia.
Qed.

Lemma lor_mod_shiftl (k x y : Z) :
  0 <= k -> 0 <= x < 2 ^ k -> Z.lor x (Z.shiftl y k) = x + y * 2 ^ k.
Proof.
  intros Hk Hx. rewrite <- Z.shiftl_mul_pow2 by exact Hk.
  enough (Hland : Z.land x (Z.shiftl y k) = 0)
    by (pose proof (Z.add_lor_land x (Z.shiftl y k)) as Hadd;
        rewrite Hland in Hadd; lia).
  apply Z.bits_inj'. intros n Hn.
  rewrite Z.land_spec, Z.bits_0, Z.shiftl_spec by exact Hn.
  destruct (Z.ltb_spec n k) as [Hlt|Hge].
  - rewrite (Z.testbit_neg_r _ (n - k)) by lia. apply andb_false_r.
  - assert (Hbit : Z.testbit x n = false).
    { destruct (Z.eq_dec x 0) as [->|Hx0]; [apply Z.bits_0|].
      apply Z.bits_above_log2; [lia|].
      apply Z.log2_lt_pow2; [lia|].
      apply Z.lt_le_trans with (2 ^ k); [lia|].
      apply Z.pow_le_mono_r; lia. }
    now rewrite Hbit.
Qed.

Lemma unpack_pack_le (n : nat) (z : Z) :
  unpack_le (pack_le n z) = z mod 2 ^ (8 * Z.of_nat n).
Proof.
  revert z. induction n as [|n IH]; intros z.
  - simpl. now rewrite Z.mod_1_r.
  - cbn [pack_le unpack_le]. rewrite IH, byte_to_of_Z.
    rewrite lor_mod_shiftl
      by (try lia; change (2 ^ 8) with 256; apply Z.mod_pos_bound; lia).
    rewrite Z.shiftr_div_pow2 by lia.
    replace (8 * Z.of_nat (S n)) with (8 + 8 * Z.of_nat n) by lia.
    rewrite Z.pow_add_r by lia. change (2 ^ 8) with 256.
    rewrite Z.rem_mul_r by lia. lia.
Qed.

Lemma length_pack_le (n : nat) (z : Z) : List.length (pack_le n z) = n.
Proof.
  revert z. induction n as [|n IH]; intros z; simpl; [|rewrite IH];
    reflexivity.
Qed.

Lemma to_signed_mod (bits z : Z) :
  0 < bits -> - 2 ^ (bits - 1) <= z < 2 ^ (bits - 1) ->
  to_signed bits (z mod 2 ^ bits) = z.
Proof.
  intros Hb Hz. unfold to_signed.
  assert (Hp : 2 ^ bits = 2 * 2 ^ (bits - 1)).
  { replace bits with (1 + (bits - 1)) at 1 by lia.
    now rewrite Z.pow_add_r by lia. }
  destruct (Z.neg_nonneg_cases z) as [Hneg|Hpos].
  - replace (z mod 2 ^ bits) with (z + 2 ^ bits)
      by (apply Z.mod_unique with (q := -1); lia).
    destruct (Z.ltb_spec (z + 2 ^ bits) (2 ^ (bits - 1))); lia.
  - rewrite Z.mod_small by lia.
    destruct (Z.ltb_spec z (2 ^ (bits - 1))); lia.
Qed.

Lemma file_read_app (data f : list byte) :
  file_read (Z.of_nat (List.length data)) (data ++ f) = (data, f).
Proof.
  unfold file_read. destruct (Z.ltb_spec (Z.of_nat (List.length data)) 0);
    [lia|].
  rewrite Nat2Z.id, firstn_app, skipn_app, Nat.sub_diag, firstn_all,
    skipn_all. simpl. now rewrite app_nil_r.
Qed.

(** Reading a signed integer of [n] bytes that was written in the file. *)
Lemma read_packed (n : nat) (z : Z) (d : _Disassembler) (f : list byte) :
  (0 < n)%nat ->
  - 2 ^ (8 * Z.of_nat n - 1) <= z < 2 ^ (8 * Z.of_nat n - 1) ->
  (data <- read (Z.of_nat n) ;; lift (unpack_signed n data))
    (with_file d (pack_le n z ++ f))
  = Ok (z, with_file d f).
Proof.
  intros Hn Hz. unfold bind, read, with_file. simpl.
  rewrite <- (length_pack_le n z) at 1. rewrite file_read_app.
  unfold lift, unpack_signed, unpack_unsigned, rbind.
  rewrite length_pack_le, Nat.eqb_refl, unpack_pack_le.
  rewrite to_signed_mod by lia. reflexivity.
Qed.

Lemma read_int32_packed (z : Z) (d : _Disassembler) (f : list byte) :
  - 2 ^ 31 <= z < 2 ^ 31 ->
  read_int32 (with_file d (pack_le 4 z ++ f)) = Ok (z, with_file d f).
Proof. intros Hz. apply (@read_packed 4 z d f); [lia | exact Hz]. Qed.

Lemma read_int16_packed (z : Z) (d : _Disassembler) (f : list byte) :
  - 2 ^ 15 <= z < 2 ^ 15 ->
  read_int16 (with_file d (pack_le 2 z ++ f)) = Ok (z, with_file d f).
Proof. intros Hz. apply (@read_packed 2 z d f); [lia | exact Hz]. Qed.

(** Reading the tag of a value. *)
Lemma read_int8_tag (type : Z) (d : _Disassembler) (f : list byte) :
  0 <= type < 128 ->
  read_int8 (with_file d (byte_of_Z type :: f)) = Ok (type, with_file d f).
Proof.
  intros Ht.
  change (byte_of_Z type :: f) with (pack_le 1 type ++ f).
  apply (@read_packed 1 type d f); [lia | simpl; lia].
Qed.

(** ** The deserializer *)

Section DisassemblerProperties.
Context {optable : OpTable} {runtime : Runtime}.

(** A number that is not negative is at least [2^63] when its binary
    logarithm is at least 63. *)
Lemma log2_63 (v : Z) : 63 <= Z.log2 v -> 2 ^ 63 <= v.
Proof.
  intros Hv. destruct (Z.le_gt_cases v 0) as [Hle|Hgt].
  - rewrite (Z.log2_nonpos v Hle) in Hv. lia.
  - now apply Z.log2_le_pow2.
Qed.

(** A shift of a digit that is not negative is a long only when it is at
    least [2^63]. *)
Lemma shift_is_long_log2 (a b : Z) :
  0 <= a -> 0 <= b -> shift_is_long a b = true ->
  63 <= Z.log2 (Z.shiftl a b).
Proof.
  unfold shift_is_long, fits_long. intros Ha Hb H.
  apply andb_true_iff in H. destruct H as [H Hbig].
  apply andb_true_iff in H. destruct H as [Ha0 _].
  apply negb_true_iff, Z.eqb_neq in Ha0.
  rewrite Z.log2_shiftl by lia.
  apply orb_true_iff in Hbig. destruct Hbig as [H64|Hfit].
  - apply Z.leb_le in H64. pose proof (Z.log2_nonneg a). lia.
  - rewrite <- Z.log2_shiftl by lia.
    apply Z.log2_le_pow2.
    + rewrite Z.shiftl_mul_pow2 by lia.
      apply Z.mul_pos_pos; [lia | apply Z.pow_pos_nonneg; lia].
    + apply negb_true_iff, andb_false_iff in Hfit.
      assert (0 <= Z.shiftl a b) by (apply Z.shiftl_nonneg; lia).
      destruct Hfit as [Hfit|Hfit];
        [apply Z.leb_gt in Hfit | apply Z.ltb_ge in Hfit]; lia.
Qed.

(** The digits of [m], written in the file, are read back as [m] shifted by
    the position [i] of the first digit; the result is a long only when it
    is outside the range of an int. *)
Lemma read_digits_encoded (count : nat) :
  forall (m i acc : Z) (is_long : bool) (d : _Disassembler) (f : list byte),
    0 <= m < 2 ^ (15 * Z.of_nat count) -> 0 <= i -> 0 <= acc ->
    (is_long = true -> 63 <= Z.log2 acc) ->
    exists is_long' : bool,
      read_digits count i acc is_long
        (with_file d (flat_map (pack_le 2) (long_digits count m) ++ f))
      = Ok ((Z.lor acc (Z.shiftl m (i * 15)), is_long'), with_file d f)
      /\ (is_long' = true
          -> 2 ^ 63 <= Z.lor acc (Z.shiftl m (i * 15))).
Proof.
  induction count as [|count IH]; intros m i acc is_long d f Hm Hi Hacc Hl.
  - simpl in *. assert (m = 0) as -> by lia.
    rewrite Z.shiftl_0_l, Z.lor_0_r. exists is_long.
    split; [reflexivity|]. intros E. apply log2_63. auto.
  - cbn [long_digits flat_map read_digits]. rewrite <- app_assoc.
    unfold bind at 1.
    assert (Hd : 0 <= Z.land m 32767 < 2 ^ 15).
    { change 32767 with (Z.ones 15). rewrite Z.land_ones by lia.
      apply Z.mod_pos_bound. lia. }
    rewrite read_int16_packed by lia.
    assert (Hx : 0 <= Z.shiftl (Z.land m 32767) (i * 15))
      by (apply Z.shiftl_nonneg; lia).
    destruct (IH (Z.shiftr m 15) (i + 1)
                (Z.lor acc (Z.shiftl (Z.land m 32767) (i * 15)))
                (is_long || shift_is_long (Z.land m 32767) (i * 15))
                d f) as (is_long' & E & Hl').
    + rewrite Z.shiftr_div_pow2 by lia. split.
      * apply Z.div_pos; lia.
      * apply Z.div_lt_upper_bound; [lia|].
        rewrite <- Z.pow_add_r by lia.
        replace (15 + 15 * Z.of_nat count) with (15 * Z.of_nat (S count))
          by lia.
        apply Hm.
    + lia.
    + apply Z.lor_nonneg. lia.
    + intros E. rewrite Z.log2_lor by lia.
      apply orb_true_iff in E. destruct E as [E|E].
      * specialize (Hl E). lia.
      * assert (Hs : 0 <= i * 15) by lia.
        pose proof (@shift_is_long_log2 _ _ (proj1 Hd) Hs E). lia.
    + assert (Hval : Z.lor (Z.lor acc (Z.shiftl (Z.land m 32767) (i * 15)))
                       (Z.shiftl (Z.shiftr m 15) ((i + 1) * 15))
                     = Z.lor acc (Z.shiftl m (i * 15))).
      { rewrite <- Z.lor_assoc. f_equal.
        replace ((i + 1) * 15) with (15 + i * 15) by lia.
        rewrite <- Z.shiftl_shiftl, <- Z.shiftl_lor by lia.
        f_equal. change 32767 with (Z.ones 15). apply lor_low_high. lia. }
      rewrite Hval in E, Hl'. exists is_long'. split; assumption.
Qed.

Lemma long_size_bound (m : Z) :
  0 <= m -> m < 2 ^ (15 * Z.of_nat (long_size m)).
Proof.
  intros Hm. unfold long_size. destruct (Z.eqb_spec m 0) as [->|Hm0].
  - reflexivity.
  - pose proof (Z.log2_nonneg m) as Hl.
    assert (Hq : 0 <= Z.log2 m / 15) by (apply Z.div_pos; lia).
    rewrite Z2Nat.id by lia.
    apply Z.lt_le_trans with (2 ^ (Z.log2 m + 1)).
    + replace (Z.log2 m + 1) with (Z.succ (Z.log2 m)) by lia.
      apply Z.log2_spec. lia.
    + apply Z.pow_le_mono_r; [lia|].
      pose proof (Z.mod_pos_bound (Z.log2 m) 15 ltac:(lia)).
      pose proof (Z.div_mod (Z.log2 m) 15 ltac:(lia)). lia.
Qed.

Lemma unmarshal_node_long (fuel : nat) (d : _Disassembler) (f : list byte) :
  unmarshal_node (S fuel) (with_file d (byte_of_Z _TYPE_LONG :: f))
  = unmarshal_long (with_file d f).
Proof.
  cbn [unmarshal_node]. unfold bind at 1.
  rewrite read_int8_tag by (unfold _TYPE_LONG; lia). reflexivity.
Qed.

(** C5. Decoding the arbitrary-precision encoding of an integer [n] -- the
    tag, the signed 32-bit number of digits and the 16-bit digits in base
    [2^15] -- returns [n] and leaves the rest of the file, for every [n]
    whose number of digits fits the signed 32-bit count, with enough fuel
    for one call. *)
Theorem unmarshal_long_roundtrip
    (n : Z) (fuel : nat) (d : _Disassembler) (rest : list byte) :
  Z.of_nat (long_size (Z.abs n)) < 2 ^ 31 ->
  unmarshal_node (S fuel) (with_file d (encode_long n ++ rest))
  = Ok (PInt n, with_file d rest).
Proof.
  intros Hsize. unfold encode_long. cbn [app].
  rewrite unmarshal_node_long. unfold unmarshal_long.
  rewrite <- app_assoc. unfold bind at 1.
  pose proof (long_size_bound (Z.abs_nonneg n)) as Hbound.
  set (size := long_size (Z.abs n)) in *.
  rewrite read_int32_packed by (destruct n; simpl Z.sgn; lia).
  destruct (Z.eqb_spec (Z.sgn n * Z.of_nat size) 0) as [E|E].
  - assert (Hn : n = 0).
    { destruct n; [reflexivity | | ]; simpl Z.sgn in E;
        (assert (Hs : size = 0%nat) by lia; rewrite Hs in Hbound;
         simpl in Hbound; lia). }
    subst n. reflexivity.
  - unfold bind.
    replace (Z.to_nat (Z.abs (Z.sgn n * Z.of_nat size))) with size
      by (destruct n; simpl Z.sgn; lia).
    destruct (@read_digits_encoded size (Z.abs n) 0 0 false d rest)
      as (is_long & Hread & Hlong); [lia | lia | lia | discriminate |].
    rewrite Hread. rewrite Z.lor_0_l, Z.shiftl_0_r in Hlong |- *.
    cbn [fst snd]. unfold ret, py_integer.
    destruct n as [|p|p]; [lia | |].
    + destruct (Z.gtb_spec (Z.sgn (Z.pos p) * Z.of_nat size) 0);
        simpl Z.sgn in *; [|lia].
      destruct is_long; [|reflexivity].
      specialize (Hlong eq_refl). simpl Z.abs in *.
      destruct (Z.ltb_spec (Z.pos p) (2 ^ 63)); [lia|].
      now rewrite andb_false_r.
    + destruct (Z.gtb_spec (Z.sgn (Z.neg p) * Z.of_nat size) 0);
        simpl Z.sgn in *; [lia|].
      simpl Z.abs in *. change (- Z.pos p) with (Z.neg p).
      destruct (Z.ltb_spec (- 2 ^ 63) (Z.neg p)) as [Hlt|Hge].
      * destruct is_long; [specialize (Hlong eq_refl); lia|].
        destruct (Z.eqb_spec (Z.pos p) (- 2 ^ 63)); [lia|]. reflexivity.
      * now rewrite andb_false_r.
Qed.

(** *** The string table only grows *)

Lemma grows_ret {A} (a : A) : grows (ret a).
Proof.
  intros d a' d' E. inversion E; subst. split; [reflexivity|].
  exists []. now rewrite app_nil_r.
Qed.

Lemma grows_raise {A} (e : exn) : grows (@raise _ A e).
Proof. intros d a d' E. discriminate. Qed.

Lemma grows_lift {A} (r : res A) : grows (lift r).
Proof.
  intros d a d' E. unfold lift in E. destruct r; [|discriminate].
  now apply (@grows_ret A a0 d a d').
Qed.

Lemma grows_get : grows get.
Proof. intros d a d' E. now apply (@grows_ret _ d d a d'). Qed.

Lemma grows_bind {A B} (m : D A) (k : A -> D B) :
  grows m -> (forall a, grows (k a)) -> grows (bind m k).
Proof.
  intros Hm Hk d b d' E. unfold bind in E.
  destruct (m d) as [[a d1]|] eqn:Em; [|discriminate].
  destruct (Hm _ _ _ Em) as (Hmag1 & ext1 & Ht1).
  destruct (Hk a _ _ _ E) as (Hmag2 & ext2 & Ht2).
  split; [congruence|].
  exists (ext1 ++ ext2). now rewrite Ht2, Ht1, app_assoc.
Qed.

Lemma grows_read (count : Z) : grows (read count).
Proof.
  intros d a d' E. unfold read in E.
  destruct (file_read count (file d)). inversion E; subst. simpl.
  split; [reflexivity|]. exists []. now rewrite app_nil_r.
Qed.

Lemma grows_string_table_append (data : string) :
  grows (string_table_append data).
Proof.
  intros d a d' E. inversion E; subst. simpl.
  split; [reflexivity|]. now exists [data].
Qed.

(** Decomposes a method into the methods it is made of. *)
Ltac grows_step :=
  match goal with
  | |- grows (bind _ _) => apply grows_bind; [|intros ?]
  | |- grows (ret _) => apply grows_ret
  | |- grows (raise _) => apply grows_raise
  | |- grows (lift _) => apply grows_lift
  | |- grows get => apply grows_get
  | |- grows (read _) => apply grows_read
  | |- grows (string_table_append _) => apply grows_string_table_append
  | |- grows (if ?c then _ else _) => destruct c
  | |- grows (match ?x with _ => _ end) => destruct x
  | H : grows ?m |- grows ?m => exact H
  end.

Lemma grows_read_int8 : grows read_int8.
Proof. unfold read_int8. repeat grows_step. Qed.

Lemma grows_read_int16 : grows read_int16.
Proof. unfold read_int16. repeat grows_step. Qed.

Lemma grows_read_int32 : grows read_int32.
Proof. unfold read_int32. repeat grows_step. Qed.

Lemma grows_read_byte_array : grows read_byte_array.
Proof.
  unfold read_byte_array. apply grows_bind; [apply grows_read_int32|].
  intros count. repeat grows_step.
Qed.

Lemma grows_read_string_ascii : grows read_string_ascii.
Proof.
  unfold read_string_ascii. apply grows_bind; [apply grows_read_byte_array|].
  intros l. repeat grows_step.
Qed.

Lemma grows_read_string_utf8 : grows read_string_utf8.
Proof.
  unfold read_string_utf8. apply grows_bind; [apply grows_read_int32|].
  intros count. repeat grows_step.
Qed.

Lemma grows_read_digits (count : nat) :
  forall i n is_long, grows (read_digits count i n is_long).
Proof.
  induction count as [|count IH]; intros i n is_long; simpl.
  - apply grows_ret.
  - apply grows_bind; [apply grows_read_int16|]. intros digit. apply IH.
Qed.

Lemma grows_unmarshal_long : grows unmarshal_long.
Proof.
  unfold unmarshal_long. apply grows_bind; [apply grows_read_int32|].
  intros nbits. destruct (nbits =? 0); [apply grows_ret|].
  apply grows_bind; [apply grows_read_digits|]. intros r.
  destruct (nbits >? 0); apply grows_ret.
Qed.

Lemma grows_repeat_node (node : D pyobj) (count : nat) :
  grows node -> grows (repeat_node node count).
Proof.
  intros Hnode. induction count as [|count IH]; simpl; repeat grows_step.
Qed.

Lemma grows_unmarshal_collection (node : D pyobj) (type : collection_type) :
  grows node -> grows (unmarshal_collection node type).
Proof.
  intros Hnode. unfold unmarshal_collection.
  apply grows_bind; [apply grows_read_int32|]. intros count.
  apply grows_bind; [now apply grows_repeat_node|]. intros nodes.
  apply grows_lift.
Qed.

Lemma grows_unmarshal_code (node : D pyobj) :
  grows node -> grows (unmarshal_code node).
Proof.
  intros Hnode. unfold unmarshal_code.
  repeat first
    [ apply grows_read_int32 | apply grows_read_int8
    | apply grows_read_byte_array | grows_step ].
Qed.

Lemma grows_unmarshal_node (fuel : nat) : grows (unmarshal_node fuel).
Proof.
  induction fuel as [|fuel IH]; [apply grows_raise|].
  cbn [unmarshal_node].
  apply grows_bind; [apply grows_read_int8|]. intros type.
  repeat first
    [ apply grows_read_int32 | apply grows_unmarshal_long
    | apply grows_read_string_ascii | apply grows_read_string_utf8
    | apply (grows_unmarshal_collection _ IH)
    | apply (grows_unmarshal_code IH)
    | match goal with
      | |- grows (if ?c then _ else _) => destruct c
      end
    | grows_step ].
Qed.

(** In a later state the string table has the entries it had, at the same
    indices. *)
Lemma later_string_table (d1 d2 : _Disassembler) :
  later d1 d2 -> exists ext, string_table d2 = string_table d1 ++ ext.
Proof.
  induction 1 as [d|count d d1 d2 data E _ IH|fuel d d1 d2 v E _ IH].
  - exists []. now rewrite app_nil_r.
  - destruct (grows_read count _ E) as (_ & ext1 & H1). destruct IH as (ext2 & H2).
    exists (ext1 ++ ext2). now rewrite H2, H1, app_assoc.
  - destruct (grows_unmarshal_node fuel _ E) as (_ & ext1 & H1).
    destruct IH as (ext2 & H2).
    exists (ext1 ++ ext2). now rewrite H2, H1, app_assoc.
Qed.

(** *** Strings and the string table *)

Lemma with_file_file (d : _Disassembler) : with_file d (file d) = d.
Proof. now destruct d. Qed.

Lemma read_app (data : list byte) (d : _Disassembler) (f : list byte) :
  read (Z.of_nat (List.length data)) (with_file d (data ++ f))
  = Ok (data, with_file d f).
Proof. unfold read, with_file. simpl. now rewrite file_read_app. Qed.

Lemma string_of_codes_bytes (s : string) :
  string_of_codes (map byte_to_Z (list_byte_of_string s)) = s.
Proof.
  unfold list_byte_of_string. induction s as [|c s IH]; simpl;
    [reflexivity|].
  rewrite IH. f_equal. unfold byte_to_Z. rewrite N2Z.id.
  now rewrite <- ascii_of_byte_via_N, ascii_of_byte_of_ascii.
Qed.

Lemma length_list_byte_of_string (s : string) :
  List.length (list_byte_of_string s) = String.length s.
Proof.
  unfold list_byte_of_string. rewrite length_map.
  induction s as [|c s IH]; simpl; [|rewrite IH]; reflexivity.
Qed.

(** A byte string of known length, written in the file, is read back. *)
Lemma read_byte_array_packed (data : list byte) (d : _Disassembler)
    (f : list byte) :
  Z.of_nat (List.length data) < 2 ^ 31 ->
  read_byte_array
    (with_file d (pack_le 4 (Z.of_nat (List.length data)) ++ data ++ f))
  = Ok (map byte_to_Z data, with_file d f).
Proof.
  intros Hlen. unfold read_byte_array, bind.
  rewrite read_int32_packed by lia. rewrite read_app.
  unfold lift, unpack_bytes. now rewrite Nat2Z.id, Nat.eqb_refl.
Qed.

Lemma unmarshal_node_interned (fuel : nat) (d : _Disassembler)
    (f : list byte) :
  unmarshal_node (S fuel) (with_file d (byte_of_Z _TYPE_INTERNED :: f))
  = (data <- read_string_ascii ;;
     string_table_append data ;;; ret (PStr data)) (with_file d f).
Proof.
  cbn [unmarshal_node]. unfold bind at 1.
  rewrite read_int8_tag by (unfold _TYPE_INTERNED; lia). reflexivity.
Qed.

Lemma unmarshal_node_string_ref_tag (fuel : nat) (d : _Disassembler)
    (f : list byte) :
  unmarshal_node (S fuel) (with_file d (byte_of_Z _TYPE_STRING_REF :: f))
  = (index <- read_int32 ;;
     d <- get ;;
     if (index <? 0) || (index >=? Z.of_nat (List.length (string_table d)))
     then raise (DisassemblerException
                   (String_index_outside_string_table index))
     else
       match nth_error (string_table d) (Z.to_nat index) with
       | Some data => ret (PStr data)
       | None => raise IndexError
       end) (with_file d f).
Proof.
  cbn [unmarshal_node]. unfold bind at 1.
  rewrite read_int8_tag by (unfold _TYPE_STRING_REF; lia). reflexivity.
Qed.

Lemma unmarshal_node_string_ref (fuel : nat) (d : _Disassembler)
    (index : Z) (f : list byte) :
  - 2 ^ 31 <= index < 2 ^ 31 ->
  unmarshal_node (S fuel) (with_file d (encode_string_ref index ++ f))
  = if (index <? 0) || (index >=? Z.of_nat (List.length (string_table d)))
    then Raise (DisassemblerException
                  (String_index_outside_string_table index))
    else match nth_error (string_table d) (Z.to_nat index) with
         | Some data => Ok (PStr data, with_file d f)
         | None => Raise IndexError
         end.
Proof.
  intros Hi. unfold encode_string_ref. cbn [app].
  rewrite unmarshal_node_string_ref_tag.
  unfold bind. rewrite read_int32_packed by exact Hi.
  unfold get. cbn [string_table with_file].
  destruct ((index <? 0)
            || (index >=? Z.of_nat (List.length (string_table d))));
    [reflexivity|].
  destruct (nth_error (string_table d) (Z.to_nat index)); reflexivity.
Qed.

(** C7. In one pass, decoding an interned string returns it and appends it
    to the string table; in every later state of the pass, a reference to
    the index of that entry decodes to the same string; a reference to a
    negative index, or to an index that is not less than the number of
    entries, raises the exception of an index outside the string table. *)
Theorem interned_then_string_ref
    (s : string) (fuel : nat) (d : _Disassembler) (rest : list byte) :
  Z.of_nat (String.length s) < 2 ^ 31 ->
  Z.of_nat (List.length (string_table d)) < 2 ^ 31 ->
  let d1 := {| magic := magic d; string_table := string_table d ++ [s];
               file := rest |} in
  unmarshal_node (S fuel) (with_file d (encode_interned s ++ rest))
  = Ok (PStr s, d1)
  /\ (forall (d2 : _Disassembler) (fuel' : nat) (rest' : list byte),
        later d1 d2 ->
        file d2
        = encode_string_ref (Z.of_nat (List.length (string_table d)))
          ++ rest' ->
        unmarshal_node (S fuel') d2 = Ok (PStr s, with_file d2 rest'))
  /\ (forall (d2 : _Disassembler) (fuel' : nat) (index : Z)
             (rest' : list byte),
        - 2 ^ 31 <= index < 2 ^ 31 ->
        index < 0 \/ Z.of_nat (List.length (string_table d2)) <= index ->
        file d2 = encode_string_ref index ++ rest' ->
        unmarshal_node (S fuel') d2
        = Raise (DisassemblerException
                   (String_index_outside_string_table index))).
Proof.
  intros Hs Ht d1. repeat split.
  - unfold encode_interned. cbn [app]. rewrite unmarshal_node_interned.
    unfold bind at 1. unfold read_string_ascii, bind at 1.
    rewrite <- length_list_byte_of_string in Hs |- *.
    rewrite <- app_assoc, read_byte_array_packed by exact Hs.
    unfold ret. rewrite string_of_codes_bytes. reflexivity.
  - intros d2 fuel' rest' Hlater Hfile.
    destruct (later_string_table Hlater) as (ext & Hext).
    subst d1. cbn [string_table] in Hext.
    destruct d2 as [m2 t2 f2]. cbn [file string_table] in Hfile, Hext.
    subst f2 t2.
    match goal with
    | |- unmarshal_node _ {| magic := ?m; string_table := ?t;
                            file := ?e ++ ?r |} = _ =>
        change (unmarshal_node (S fuel')
                  (with_file {| magic := m; string_table := t; file := [] |}
                             (e ++ r))
                = Ok (PStr s,
                      with_file {| magic := m; string_table := t;
                                   file := [] |} r))
    end.
    rewrite unmarshal_node_string_ref by lia. cbn [string_table].
    destruct (Z.ltb_spec (Z.of_nat (List.length (string_table d))) 0);
      [lia|].
    rewrite !length_app. cbn [List.length orb].
    destruct (Z.geb_spec (Z.of_nat (List.length (string_table d)))
                (Z.of_nat (List.length (string_table d) + 1
                           + List.length ext))); [lia|].
    rewrite Nat2Z.id, <- app_assoc, nth_error_app2 by lia.
    rewrite Nat.sub_diag. reflexivity.
  - intros d2 fuel' index rest' Hi Hout Hfile.
    destruct d2 as [m2 t2 f2]. cbn [file string_table] in Hfile, Hout.
    subst f2.
    match goal with
    | |- unmarshal_node _ {| magic := ?m; string_table := ?t;
                            file := ?e ++ ?r |} = _ =>
        change {| magic := m; string_table := t; file := e ++ r |}
          with (with_file {| magic := m; string_table := t; file := [] |}
                          (e ++ r))
    end.
    rewrite unmarshal_node_string_ref by exact Hi. cbn [string_table].
    destruct (Z.ltb_spec index 0); [reflexivity|].
    destruct (Z.geb_spec index (Z.of_nat (List.length t2)));
      [reflexivity | lia].
Qed.

(** *** Negative counts *)

Lemma unmarshal_node_collection (fuel : nat) (d : _Disassembler)
    (type : Z) (ctype : collection_type) (f : list byte) :
  In (type, ctype) [(_TYPE_TUPLE, tuple); (_TYPE_LIST, list_);
                    (_TYPE_SET, set); (_TYPE_FROZEN_SET, frozenset)] ->
  unmarshal_node (S fuel) (with_file d (byte_of_Z type :: f))
  = unmarshal_collection (unmarshal_node fuel) ctype (with_file d f).
Proof.
  intros Hin. simpl in Hin.
  destruct Hin as [E|[E|[E|[E|[]]]]]; inversion E; subst;
    cbn [unmarshal_node]; unfold bind at 1;
    (rewrite read_int8_tag
       by (unfold _TYPE_TUPLE, _TYPE_LIST, _TYPE_SET, _TYPE_FROZEN_SET; lia));
    reflexivity.
Qed.

Lemma unmarshal_node_string (fuel : nat) (d : _Disassembler)
    (f : list byte) :
  unmarshal_node (S fuel) (with_file d (byte_of_Z _TYPE_STRING :: f))
  = (s <- read_string_ascii ;; ret (PStr s)) (with_file d f).
Proof.
  cbn [unmarshal_node]. unfold bind at 1.
  rewrite read_int8_tag by (unfold _TYPE_STRING; lia). reflexivity.
Qed.

(** With a negative count [read_byte_array] reads the file to its end and
    unpacks what it has read with a format without field. *)
Lemma read_byte_array_negative (count : Z) (d : _Disassembler)
    (rest : list byte) :
  - 2 ^ 31 <= count < 0 ->
  read_byte_array (with_file d (pack_le 4 count ++ rest))
  = match rest with
    | [] => Ok ([], with_file d [])
    | _ :: _ => Raise struct_error
    end.
Proof.
  intros Hc. unfold read_byte_array, bind.
  rewrite read_int32_packed by lia.
  unfold read, file_read. cbn [file with_file].
  destruct (Z.ltb_spec count 0); [|lia].
  unfold lift, unpack_bytes.
  replace (Z.to_nat count) with 0%nat by lia.
  destruct rest; reflexivity.
Qed.

(** C10 (amended). With a negative element count, a tuple, list, set or
    frozenset is decoded as the empty collection and nothing more is read.
    A byte array or string with a negative count is not: when bytes
    follow the count, they are all read and decoding raises the error of
    [struct]. *)
Theorem negative_count
    (count : Z) (fuel : nat) (d : _Disassembler) (rest : list byte) :
  - 2 ^ 31 <= count < 0 ->
  (forall (type : Z) (ctype : collection_type) (empty : pyobj),
     In (type, ctype, empty)
        [(_TYPE_TUPLE, tuple, PTuple []); (_TYPE_LIST, list_, PList []);
         (_TYPE_SET, set, PSet []);
         (_TYPE_FROZEN_SET, frozenset, PFrozenSet [])] ->
     unmarshal_collection (unmarshal_node fuel) ctype
       (with_file d (pack_le 4 count ++ rest))
     = Ok (empty, with_file d rest)
     /\ unmarshal_node (S fuel)
          (with_file d (encode_counted type count ++ rest))
        = Ok (empty, with_file d rest))
  /\ (rest <> [] ->
      read_byte_array (with_file d (pack_le 4 count ++ rest))
      = Raise struct_error
      /\ read_string_ascii (with_file d (pack_le 4 count ++ rest))
         = Raise struct_error
      /\ forall type : Z,
           In type [_TYPE_STRING; _TYPE_INTERNED] ->
           unmarshal_node (S fuel)
             (with_file d (encode_counted type count ++ rest))
           = Raise struct_error).
Proof.
  intros Hc. split.
  - intros type ctype empty Hin.
    assert (Hcoll : unmarshal_collection (unmarshal_node fuel) ctype
                      (with_file d (pack_le 4 count ++ rest))
                    = Ok (empty, with_file d rest)).
    { unfold unmarshal_collection, bind.
      rewrite read_int32_packed by lia.
      replace (Z.to_nat count) with 0%nat by lia. simpl in Hin |- *.
      destruct Hin as [E|[E|[E|[E|[]]]]]; inversion E; subst; reflexivity. }
    split; [exact Hcoll|].
    unfold encode_counted. cbn [app].
    rewrite (@unmarshal_node_collection fuel d type ctype); [exact Hcoll|].
    simpl in Hin |- *.
    destruct Hin as [E|[E|[E|[E|[]]]]]; inversion E; subst; auto.
  - intros Hrest.
    assert (Harr : read_byte_array (with_file d (pack_le 4 count ++ rest))
                   = Raise struct_error).
    { rewrite read_byte_array_negative by exact Hc.
      destruct rest; [congruence | reflexivity]. }
    assert (Hstr : read_string_ascii (with_file d (pack_le 4 count ++ rest))
                   = Raise struct_error).
    { unfold read_string_ascii, bind. now rewrite Harr. }
    repeat split; [exact Harr | exact Hstr |].
    intros type Hin. unfold encode_counted. cbn [app]. simpl in Hin.
    destruct Hin as [E|[E|[]]]; subst type.
    + rewrite unmarshal_node_string. unfold bind at 1. now rewrite Hstr.
    + rewrite unmarshal_node_interned. unfold bind at 1. now rewrite Hstr.
Qed.

(** *** The instruction decoder *)

Lemma opname_eqb_refl (o : opname) : opname_eqb o o = true.
Proof. unfold opname_eqb. now destruct (opname_eq_dec o o). Qed.

Lemma opname_eqb_neq (a b : opname) : a <> b -> opname_eqb a b = false.
Proof. intros Hab. unfold opname_eqb. now destruct (opname_eq_dec a b). Qed.

(** The argument classes of [decode_argument]. *)
Lemma argument_table_class (co_consts co_names co_varnames : pyobj)
    (opcode : opname) (table : pyobj) :
  (opcode = LOAD_CONST /\ table = co_consts)
  \/ (In opcode name_opcodes /\ table = co_names)
  \/ (In opcode fast_opcodes /\ table = co_varnames) ->
  argument_table co_consts co_names co_varnames opcode = Some table
  /\ opcode <> EXTENDED_ARG.
Proof.
  unfold name_opcodes, fast_opcodes. simpl.
  intros [[-> ->]|[[Hin ->]|[Hin ->]]].
  - split; [reflexivity | discriminate].
  - repeat (destruct Hin as [<-|Hin]; [split; [reflexivity|discriminate]|]).
    destruct Hin.
  - repeat (destruct Hin as [<-|Hin]; [split; [reflexivity|discriminate]|]).
    destruct Hin.
Qed.

Lemma table_entry_sequence (table : pyobj) (l : list pyobj)
    (opcode : opname) (argument : Z) :
  table = PTuple l \/ table = PList l ->
  0 <= argument < Z.of_nat (List.length l) ->
  exists x, nth_error l (Z.to_nat argument) = Some x
            /\ table_entry table opcode argument = Ok x.
Proof.
  intros Htable Harg.
  destruct (nth_error l (Z.to_nat argument)) as [x|] eqn:E.
  - exists x. split; [reflexivity|].
    unfold table_entry.
    destruct Htable as [-> | ->]; simpl;
      (destruct (Z.geb_spec argument (Z.of_nat (List.length l))); [lia|]);
      unfold seq_index;
      (destruct (Z.ltb_spec argument 0); [lia|]);
      (destruct (Z.leb_spec 0 argument); [|lia]);
      (destruct (Z.ltb_spec argument (Z.of_nat (List.length l))); [|lia]);
      simpl; now rewrite E.
  - apply nth_error_None in E. lia.
Qed.

(** C6. For an instruction whose argument indexes [co_consts], [co_names]
    or [co_varnames], an argument that is not less than the length of the
    table makes the decoder raise the exception of an invalid argument,
    however large the argument; an argument within the table, a tuple or a
    list, is resolved to the entry of that index, which the decoder records
    and hands to the engine. *)
Theorem table_argument_bounds
    (magic : Z) (co_consts co_names co_varnames : pyobj)
    (b lo hi : Z) (rest : list Z) (i acc : Z) (st : loop_state)
    (opcode : opname) (table : pyobj) (n : Z) :
  from_bytecode b magic = Some opcode ->
  has_argument opcode = true ->
  (opcode = LOAD_CONST /\ table = co_consts)
  \/ (In opcode name_opcodes /\ table = co_names)
  \/ (In opcode fast_opcodes /\ table = co_varnames) ->
  py_len table = Ok n ->
  let argument := Z.lor acc (Z.lor lo (Z.shiftl hi 8)) in
  (n <= argument ->
   decode_argument co_consts co_names co_varnames opcode argument
   = Raise (DisassemblerException
              (Invalid_argument_for_opcode argument opcode))
   /\ disassemble_loop magic co_consts co_names co_varnames
        (b :: lo :: hi :: rest) i acc st
      = Raise (DisassemblerException
                 (Invalid_argument_for_opcode argument opcode)))
  /\ (0 <= argument < n ->
      forall l : list pyobj,
        table = PTuple l \/ table = PList l ->
        exists x,
          nth_error l (Z.to_nat argument) = Some x
          /\ decode_argument co_consts co_names co_varnames opcode argument
             = Ok x
          /\ disassemble_loop magic co_consts co_names co_varnames
               (b :: lo :: hi :: rest) i acc st
             = match handle opcode x (snd st) with
               | Ok (_, handler) =>
                   disassemble_loop magic co_consts co_names co_varnames
                     rest (i + 3) 0
                     (fst st ++ [Opcode i 3 opcode x], handler)
               | Raise e => Raise e
               end).
Proof.
  intros Hb Harg Hclass Hlen argument.
  destruct (argument_table_class Hclass)
    as [Htable Hext].
  assert (Hloop :
    disassemble_loop magic co_consts co_names co_varnames
      (b :: lo :: hi :: rest) i acc st
    = rbind (decode_argument co_consts co_names co_varnames opcode argument)
        (fun arg =>
           match handle opcode arg (snd st) with
           | Ok (_, handler) =>
               disassemble_loop magic co_consts co_names co_varnames
                 rest (i + 3) 0
                 (fst st ++ [Opcode i 3 opcode arg], handler)
           | Raise e => Raise e
           end)).
  { cbn [disassemble_loop]. rewrite Hb, Harg. unfold loop_body.
    rewrite (opname_eqb_neq Hext). fold argument.
    replace (i + 1 + 2) with (i + 3) by lia.
    replace (i + 3 - i) with 3 by lia. reflexivity. }
  assert (Hdec :
    decode_argument co_consts co_names co_varnames opcode argument
    = table_entry table opcode argument).
  { unfold decode_argument. now rewrite Harg, Htable. }
  split.
  - intros Hout.
    assert (Hraise :
      decode_argument co_consts co_names co_varnames opcode argument
      = Raise (DisassemblerException
                 (Invalid_argument_for_opcode argument opcode))).
    { rewrite Hdec. unfold table_entry. rewrite Hlen. simpl.
      destruct (Z.geb_spec argument n); [reflexivity | lia]. }
    split; [exact Hraise|]. rewrite Hloop, Hraise. reflexivity.
  - intros Hin l Hseq.
    assert (Hn : n = Z.of_nat (List.length l))
      by (destruct Hseq as [-> | ->]; simpl in Hlen; congruence).
    destruct (@table_entry_sequence table l opcode argument Hseq)
      as (x & Hnth & Hentry); [lia|].
    exists x. split; [exact Hnth|]. rewrite Hloop, Hdec, Hentry.
    split; reflexivity.
Qed.

(** C4. An argument [a] above 65535 and below [2^32], written as an
    EXTENDED_ARG instruction with the high 16 bits of [a] before the
    instruction itself with the low 16 bits, is decoded as [a]: the two
    instructions give one record, whose argument is resolved from [a], and
    the decoder goes on with an accumulator of zero.  The four operand
    bytes are bytes. *)
Theorem extended_arg_folding
    (magic : Z) (co_consts co_names co_varnames : pyobj)
    (b_ext b_op : Z) (opcode : opname) (a : Z) (rest : list Z) (i : Z)
    (st : loop_state) :
  from_bytecode b_ext magic = Some EXTENDED_ARG ->
  has_argument EXTENDED_ARG = true ->
  from_bytecode b_op magic = Some opcode ->
  has_argument opcode = true ->
  opcode <> EXTENDED_ARG ->
  65535 < a < 2 ^ 32 ->
  let high := Z.shiftr a 16 in
  let low := Z.land a 65535 in
  disassemble_loop magic co_consts co_names co_varnames
    (b_ext :: Z.land high 255 :: Z.shiftr high 8
     :: b_op :: Z.land low 255 :: Z.shiftr low 8 :: rest) i 0 st
  = match decode_argument co_consts co_names co_varnames opcode a with
    | Ok arg =>
        match handle opcode arg (snd st) with
        | Ok (_, handler) =>
            disassemble_loop magic co_consts co_names co_varnames
              rest (i + 6) 0
              (fst st ++ [Opcode (i + 3) 3 opcode arg], handler)
        | Raise e => Raise e
        end
    | Raise e => Raise e
    end
  /\ Forall (fun operand => 0 <= operand < 256)
       [Z.land high 255; Z.shiftr high 8; Z.land low 255; Z.shiftr low 8].
Proof.
  intros Hbext Hext Hbop Hop Hne Ha high low. split.
  - cbn [disassemble_loop]. rewrite Hbext, Hext. unfold loop_body at 1.
    rewrite opname_eqb_refl.
    cbn [disassemble_loop]. rewrite Hbop, Hop. unfold loop_body.
    rewrite (opname_eqb_neq Hne).
    assert (Hfold :
      Z.lor (Z.shiftl (Z.lor 0 (Z.lor (Z.land high 255)
                                      (Z.shiftl (Z.shiftr high 8) 8))) 16)
            (Z.lor (Z.land low 255) (Z.shiftl (Z.shiftr low 8) 8))
      = a).
    { rewrite Z.lor_0_l.
      change 255 with (Z.ones 8).
      rewrite !lor_low_high by lia.
      subst high low. change 65535 with (Z.ones 16).
      rewrite Z.lor_comm. apply lor_low_high. lia. }
    rewrite Hfold.
    replace (i + 1 + 2 + 1 + 2) with (i + 6) by lia.
    replace (i + 6 - (i + 1 + 2)) with 3 by lia.
    replace (i + 1 + 2) with (i + 3) by lia.
    unfold rbind. reflexivity.
  - assert (Hhigh : 0 <= high < 65536).
    { subst high. rewrite Z.shiftr_div_pow2 by lia. split.
      - apply Z.div_pos; lia.
      - apply Z.div_lt_upper_bound; lia. }
    assert (Hlow : 0 <= low < 65536).
    { subst low. change 65535 with (Z.ones 16). rewrite Z.land_ones by lia.
      apply Z.mod_pos_bound. lia. }
    assert (Hbyte : forall x, 0 <= Z.land x 255 < 256).
    { intros x. change 255 with (Z.ones 8). rewrite Z.land_ones by lia.
      apply Z.mod_pos_bound. lia. }
    assert (Hshift : forall x, 0 <= x < 65536 -> 0 <= Z.shiftr x 8 < 256).
    { intros x Hx. rewrite Z.shiftr_div_pow2 by lia. split.
      - apply Z.div_pos; lia.
      - apply Z.div_lt_upper_bound; lia. }
    repeat constructor; try apply Hbyte; try (apply Hshift; assumption).
Qed.

End DisassemblerProperties.

(** ** The properties at concrete inputs *)

(** C5 at [-(2^40 - 3)]. *)
Lemma unmarshal_long_roundtrip_witness :
  unmarshal_node 1
    (with_file {| magic := 0; string_table := []; file := [] |}
               (encode_long (- (2 ^ 40 - 3)) ++ []))
  = Ok (PInt (- (2 ^ 40 - 3)),
        with_file {| magic := 0; string_table := []; file := [] |} []).
Proof.
  apply (@unmarshal_long_roundtrip sample_optable sample_runtime
           (- (2 ^ 40 - 3)) 0
           {| magic := 0; string_table := []; file := [] |} []).
  vm_compute. reflexivity.
Defined.

(** The integers that the description of the format names are decoded from
    their encodings. *)
Lemma unmarshal_long_examples :
  Forall (fun n =>
            unmarshal_node 1
              {| magic := 0; string_table := []; file := encode_long n |}
            = Ok (PInt n, {| magic := 0; string_table := []; file := [] |}))
         [0; 1; -1; 2 ^ 15; 2 ^ 30 + 7; - (2 ^ 40 - 3)].
Proof. repeat constructor. Qed.

(** C7 at the string ["hi"], interned in an empty table and referred to by
    the index 0 just after. *)
Lemma interned_then_string_ref_witness :
  unmarshal_node 1
    (with_file {| magic := 0; string_table := []; file := [] |}
               (encode_interned "hi" ++ encode_string_ref 0 ++ []))
  = Ok (PStr "hi",
        {| magic := 0; string_table := ["hi"%string];
           file := encode_string_ref 0 ++ [] |})
  /\ unmarshal_node 1
       {| magic := 0; string_table := ["hi"%string];
          file := encode_string_ref 0 ++ [] |}
     = Ok (PStr "hi",
           {| magic := 0; string_table := ["hi"%string]; file := [] |}).
Proof.
  destruct (@interned_then_string_ref sample_optable sample_runtime
              "hi" 0 {| magic := 0; string_table := []; file := [] |}
              (encode_string_ref 0 ++ []))
    as (Hinterned & Href & _).
  - vm_compute. reflexivity.
  - vm_compute. reflexivity.
  - split; [exact Hinterned|].
    exact (Href {| magic := 0; string_table := ["hi"%string];
                   file := encode_string_ref 0 ++ [] |} 0%nat []
                (later_now _) eq_refl).
Defined.

(** C10 (amended) at a tuple with the count -1, before the byte 0x41. *)
Lemma negative_count_witness :
  unmarshal_node 1
    (with_file {| magic := 0; string_table := []; file := [] |}
               (encode_counted _TYPE_TUPLE (-1) ++ [x41]))
  = Ok (PTuple [],
        with_file {| magic := 0; string_table := []; file := [] |} [x41]).
Proof.
  destruct (@negative_count sample_optable sample_runtime (-1) 0
              {| magic := 0; string_table := []; file := [] |} [x41])
    as (Hcollection & _).
  - vm_compute. split; [discriminate | reflexivity].
  - apply (Hcollection _TYPE_TUPLE tuple (PTuple [])). simpl. now left.
Defined.

(** C10 as stated fails: a string with the count -1 before the byte 0x41
    is not decoded as the empty string with that byte left in the file;
    the byte is read and decoding raises the error of [struct]. *)
Lemma negative_string_count_fails :
  unmarshal_node 1
    {| magic := 0; string_table := [];
       file := [x73; xff; xff; xff; xff; x41] |}
  = Raise struct_error
  /\ unmarshal_node 1
       {| magic := 0; string_table := [];
          file := [x73; xff; xff; xff; xff; x41] |}
     <> Ok (PStr EmptyString, {| magic := 0; string_table := []; file := [x41] |})
  /\ read_int32 {| magic := 0; string_table := [];
                   file := [xff; xff; xff; xff; x41] |}
     = Ok (-1, {| magic := 0; string_table := []; file := [x41] |}).
Proof. split; [reflexivity | split; [discriminate | reflexivity]]. Qed.

(** C6 at [LOAD_CONST 2] with two constants. *)
Lemma table_argument_bounds_witness :
  disassemble_loop 0 (PTuple [PInt 2; PInt 3]) (PTuple []) (PTuple [])
    [100; 2; 0] 0 0 ([], new_CommandHandler)
  = Raise (DisassemblerException (Invalid_argument_for_opcode 2 LOAD_CONST)).
Proof.
  destruct (@table_argument_bounds sample_optable sample_runtime
              0 (PTuple [PInt 2; PInt 3]) (PTuple []) (PTuple [])
              100 2 0 [] 0 0 ([], new_CommandHandler) LOAD_CONST
              (PTuple [PInt 2; PInt 3]) 2)
    as (Hout & _).
  - reflexivity.
  - reflexivity.
  - left. split; reflexivity.
  - reflexivity.
  - apply Hout. vm_compute. discriminate.
Defined.

(** C6 within the table: [LOAD_CONST 1] pushes the constant 3. *)
Lemma load_const_in_range_example :
  disassemble_loop 0 (PTuple [PInt 2; PInt 3]) (PTuple []) (PTuple [])
    [100; 1; 0] 0 0 ([], new_CommandHandler)
  = Ok ([Opcode 0 3 LOAD_CONST (PInt 3)],
        {| stack := [_PyObject (PInt 3) false false]; result := [];
           indent_count := 0 |}).
Proof. reflexivity. Qed.

(** C4 at the argument 65536 of [CALL_FUNCTION], with the callee [f] on
    the stack. *)
Lemma extended_arg_folding_witness :
  disassemble_loop 0 (PTuple []) (PTuple []) (PTuple [])
    [145; 1; 0; 131; 0; 0] 0 0
    ([], {| stack := [_PyObject (PStr "f") true false]; result := [];
            indent_count := 0 |})
  = Ok ([Opcode 3 3 CALL_FUNCTION (PInt 65536)],
        {| stack := [_FuncCall "f" [] [] EmptyString "f()"]; result := [];
           indent_count := 0 |}).
Proof.
  destruct (@extended_arg_folding sample_optable sample_runtime
              0 (PTuple []) (PTuple []) (PTuple [])
              145 131 CALL_FUNCTION 65536 [] 0
              ([], {| stack := [_PyObject (PStr "f") true false];
                      result := []; indent_count := 0 |}))
    as (Hfold & _).
  - reflexivity.
  - reflexivity.
  - reflexivity.
  - reflexivity.
  - discriminate.
  - vm_compute. split; reflexivity.
  - exact Hfold.
Defined.

(** The scenarios of C1, C2 and C3 from the bytes of the instructions, with
    the opcode numbers of CPython 2.7. *)
Lemma scenarios_from_bytecode :
  (* LOAD_NAME f; LOAD_CONST 1; LOAD_CONST 2; CALL_FUNCTION 2; STORE_NAME x *)
  rbind (disassemble_code 0 (PTuple [PInt 1; PInt 2])
           (PTuple [PStr "f"; PStr "x"]) (PTuple [])
           [101; 0; 0; 100; 0; 0; 100; 1; 0; 131; 2; 0; 90; 1; 0])
        (fun st => Ok (result (snd st)))
  = Ok []
  (* LOAD_CONST 2; LOAD_CONST 3; BINARY_ADD; RETURN_VALUE *)
  /\ rbind (disassemble_code 0 (PTuple [PInt 2; PInt 3]) (PTuple [])
              (PTuple []) [100; 0; 0; 100; 1; 0; 23; 83])
           (fun st => Ok (result (snd st)))
     = Ok []
  (* LOAD_CONST 5; LOAD_CONST <code>; MAKE_FUNCTION 1; STORE_NAME name *)
  /\ disassemble_code 0 (PTuple [PInt 5; PCode name_a_b])
       (PTuple [PStr "name"]) (PTuple [])
       [100; 0; 0; 100; 1; 0; 132; 1; 0; 90; 0; 0]
     = Raise IndexError.
Proof. repeat split. Qed.

(** * Further properties *)

(** ** More on the operand stack *)

Lemma list_pop_nil_iff {A} (l : list A) : list_pop l = None <-> l = [].
Proof.
  split; [|intros ->; reflexivity].
  induction l as [|x l IH]; [reflexivity|]. simpl.
  destruct l as [|y l]; [discriminate|].
  destruct (list_pop (y :: l)) as [[z r]|]; [discriminate|].
  intros _. now specialize (IH eq_refl).
Qed.

Lemma list_pop_snoc {A} (l s : list A) (x : A) :
  list_pop l = Some (x, s) -> l = s ++ [x].
Proof.
  revert s. induction l as [|y l IH]; intros s E; [discriminate|].
  simpl in E. destruct l as [|z l].
  - now inversion E.
  - destruct (list_pop (z :: l)) as [[w r]|]; [|discriminate].
    inversion E; subst. simpl. f_equal. now apply IH.
Qed.

(** The rotation of a list, by any shift, has the elements of the list. *)
Lemma rotate_parts (n : Z) (l : list pyobj) :
  exists k, rotate n l = skipn k l ++ firstn k l.
Proof.
  exists (slice_bound (Z.of_nat (List.length l)) n).
  unfold rotate. now rewrite list_slice_to, list_slice_from.
Qed.

(** Rewrites the next [pop] from a stack [rest ++ l] whose end [l] is
    explicit. *)
Ltac pops :=
  match goal with
  | |- context [pop {| stack := ?rest ++ ?l; result := ?r;
                       indent_count := ?i |}] =>
      let p := eval simpl in (list_pop l) in
      match p with
      | Some (?x, ?l') => rewrite (@pop_app_r rest l l' x r i eq_refl)
      end
  end.

Section MoreEngine.
Context {optable : OpTable} {runtime : Runtime}.

(** [pop_n] of the [n] operands at the top of the stack: the top first. *)
Lemma pop_n_app (l rest : list pyobj) (r : list string) (ind : Z) :
  pop_n (List.length l)
    {| stack := rest ++ l; result := r; indent_count := ind |}
  = Ok (rev l, {| stack := rest; result := r; indent_count := ind |}).
Proof.
  induction l as [|x l IH] using rev_ind.
  - simpl. now rewrite app_nil_r.
  - rewrite length_app, Nat.add_1_r. cbn [pop_n]. unfold bind at 1.
    rewrite app_assoc, pop_app. unfold bind. rewrite IH.
    unfold ret. now rewrite rev_app_distr.
Qed.

(** [pop_n] of more operands than the stack has. *)
Lemma pop_n_short (n : nat) (h : _CommandHandler) :
  (List.length (stack h) < n)%nat -> pop_n n h = Raise IndexError.
Proof.
  revert h. induction n as [|n IH]; intros h Hlen; [lia|].
  cbn [pop_n]. unfold bind at 1, pop.
  destruct (list_pop (stack h)) as [[x s]|] eqn:E; [|reflexivity].
  apply list_pop_snoc in E. unfold bind.
  rewrite IH; [reflexivity|]. simpl. rewrite E, length_app in Hlen.
  simpl in Hlen. lia.
Qed.

Lemma pop_n_rev_app (l rest : list pyobj) (r : list string) (ind : Z) :
  pop_n_rev (List.length l)
    {| stack := rest ++ l; result := r; indent_count := ind |}
  = Ok (l, {| stack := rest; result := r; indent_count := ind |}).
Proof.
  unfold pop_n_rev, bind. rewrite pop_n_app. unfold ret.
  now rewrite rev_involutive.
Qed.










End MoreEngine.


Section MoreEngine2.
Context {optable : OpTable} {runtime : Runtime}.

(** X3. A unary instruction writes its prefix before the text of the operand
    at the top of the stack, in place, when that operand is an instance of
    [_PyObject] whose value is text (a name, a slice expression).  It
    raises [TypeError] on an instance whose value is not text, as a
    constant number is, [AttributeError] on a binary operation, a tuple,
    a list or a dict, and [IndexError] on the empty stack. *)
Theorem unary_operator_prefix
    (opcode : opname) (prefix : string) (arg : pyobj)
    (rest : list pyobj) (r : list string) (ind : Z) :
  In (opcode, prefix) unary_prefixes ->
  let on_top := fun o =>
    handle opcode arg
      {| stack := rest ++ [o]; result := r; indent_count := ind |} in
  (forall (s : string) (print_raw skip_it : bool),
     on_top (_PyObject (PStr s) print_raw skip_it)
     = Ok (tt, {| stack := rest ++ [_PyObject (PStr (prefix +++ s))
                                               print_raw skip_it];
                  result := r; indent_count := ind |}))
  /\ (forall (val : pyobj) (print_raw skip_it : bool),
        as_text val = Raise TypeError ->
        on_top (_PyObject val print_raw skip_it) = Raise TypeError)
  /\ (forall o : pyobj,
        get_val o = Raise AttributeError ->
        on_top o = Raise AttributeError)
  /\ handle opcode arg {| stack := []; result := r; indent_count := ind |}
     = Raise IndexError.
Proof.
  intros Hin on_top. subst on_top. unfold unary_prefixes in Hin.
  simpl in Hin.
  destruct Hin as [E|[E|[E|[]]]]; inversion E; subst; clear E;
    (split; [|split; [|split]]);
    try reflexivity;
    try (intros s print_raw skip_it; unfold handle; simpl;
         unfold prefix_top, bind; rewrite top_app; simpl;
         unfold set_top; simpl; now rewrite list_pop_app);
    try (intros val print_raw skip_it Hval; unfold handle; simpl;
         unfold prefix_top, bind; rewrite top_app;
         destruct val; simpl in Hval |- *; try discriminate; reflexivity);
    try (intros o Ho; unfold handle; simpl;
         unfold prefix_top, bind; rewrite top_app;
         destruct o; simpl in Ho |- *; try discriminate; reflexivity).
Qed.

End MoreEngine2.

Lemma unary_operator_prefix_witness :
  handle UNARY_NOT PNone
    {| stack := [] ++ [_PyObject (PStr "x") true false]; result := [];
       indent_count := 0 |}
  = Ok (tt, {| stack := [] ++ [_PyObject (PStr ("not " +++ "x")) true false];
               result := []; indent_count := 0 |}).
Proof.
  apply (@unary_operator_prefix sample_optable sample_runtime
           UNARY_NOT "not " PNone [] [] 0).
  unfold unary_prefixes. simpl. right. left. reflexivity.
Defined.





Section MoreEngine3.
Context {optable : OpTable} {runtime : Runtime}.




End MoreEngine3.


Lemma pop_spec (h h1 : _CommandHandler) (o : pyobj) :
  pop h = Ok (o, h1) ->
  stack h = stack h1 ++ [o]
  /\ result h1 = result h /\ indent_count h1 = indent_count h.
Proof.
  unfold pop. intros E.
  destruct (list_pop (stack h)) as [[x s]|] eqn:Ep; [|discriminate].
  inversion E; subst. simpl. apply list_pop_snoc in Ep. auto.
Qed.

Section MoreEngine4.
Context {optable : OpTable} {runtime : Runtime}.


(** The body of [handle] for [MAKE_FUNCTION]. *)
Lemma handle_make_function (arg : pyobj) :
  handle MAKE_FUNCTION arg
  = (o <- pop ;;
     code_obj <- lift (get_val o) ;;
     match code_obj with
     | PCode co =>
         kwargc <- lift (as_int arg) ;;
         plain <- lift (py_slice (co_varnames co) None
                                 (Some (co_argcount co - kwargc))) ;;
         keys <- lift (py_slice (co_varnames co)
                                (Some (co_argcount co - kwargc))
                                (Some (co_argcount co))) ;;
         vals <- pop_n_rev 2 ;;
         all_args <-
           lift (join_items
                   (plain
                    ++ map (fun kv => PStr (py_str (fst kv) +++ "="
                                            +++ py_str (snd kv)))
                           (combine keys vals))) ;;
         ind <- indent ;;
         append_result (ind +++ "def " +++ py_str (co_name co) +++ "("
                        +++ String.concat ", " all_args +++ "):") ;;;
         push (_PyObject (PInt 0) false true)
     | _ => raise AttributeError
     end).
Proof. reflexivity. Qed.

(** X6. [MAKE_FUNCTION] never succeeds on a stack of fewer than three
    objects, whatever its argument: besides the code object it always pops
    two operands.  So the definition of a function without default values,
    whose code object is alone on the stack, raises an exception. *)
Theorem make_function_needs_three_operands
    (arg : pyobj) (h : _CommandHandler) :
  (List.length (stack h) < 3)%nat ->
  exists e : exn, handle MAKE_FUNCTION arg h = Raise e.
Proof.
  intros Hlen. rewrite handle_make_function. unfold bind at 1.
  destruct (pop h) as [[o h1]|e] eqn:Ep; [|now exists e].
  apply pop_spec in Ep. destruct Ep as (Hs & _ & _).
  rewrite Hs, length_app in Hlen. simpl in Hlen.
  unfold bind at 1.
  destruct (get_val o) as [code_obj|e]; simpl; [|now exists e].
  destruct code_obj; try (now exists AttributeError).
  unfold bind at 1. destruct (as_int arg) as [kwargc|e]; simpl;
    [|now exists e].
  unfold bind at 1.
  destruct (py_slice (co_varnames co) None (Some (co_argcount co - kwargc)))
    as [plain|e]; simpl; [|now exists e].
  unfold bind at 1.
  destruct (py_slice (co_varnames co) (Some (co_argcount co - kwargc))
              (Some (co_argcount co))) as [keys|e]; simpl; [|now exists e].
  unfold bind at 1, pop_n_rev, bind at 1.
  rewrite pop_n_short by lia. now exists IndexError.
Qed.

End MoreEngine4.

Lemma make_function_needs_three_operands_witness :
  exists e : exn,
    handle MAKE_FUNCTION (PInt 0)
      {| stack := [_PyObject (PCode name_a_b) false false]; result := [];
         indent_count := 0 |}
    = Raise e.
Proof.
  apply (@make_function_needs_three_operands sample_optable sample_runtime
           (PInt 0)
           {| stack := [_PyObject (PCode name_a_b) false false];
              result := []; indent_count := 0 |}).
  simpl. lia.
Defined.

(** ** What one instruction does to the output and to the indentation *)

Lemma quiet_ret {A} (a : A) : quiet (ret a).
Proof. intros h a' h' E. inversion E; subst. auto. Qed.

Lemma quiet_raise {A} (e : exn) : quiet (@raise _ A e).
Proof. intros h a h' E. discriminate. Qed.

Lemma quiet_lift {A} (r : res A) : quiet (lift r).
Proof.
  intros h a h' E. unfold lift in E. destruct r; inversion E; subst. auto.
Qed.

Lemma quiet_bind {A B} (m : H A) (k : A -> H B) :
  quiet m -> (forall a, quiet (k a)) -> quiet (bind m k).
Proof.
  intros Hm Hk h b h' E. unfold bind in E.
  destruct (m h) as [[a h1]|] eqn:Em; [|discriminate].
  destruct (Hm _ _ _ Em) as [Hr1 Hi1].
  destruct (Hk a _ _ _ E) as [Hr2 Hi2]. split; congruence.
Qed.

Lemma quiet_set_stack (s : list pyobj) : quiet (set_stack s).
Proof. intros h a h' E. inversion E; subst. auto. Qed.

Lemma quiet_pop : quiet pop.
Proof.
  intros h a h' E. unfold pop in E.
  destruct (list_pop (stack h)) as [[x s]|]; inversion E; subst. auto.
Qed.

Lemma quiet_top : quiet top.
Proof.
  intros h a h' E. unfold top in E.
  destruct (list_pop (stack h)) as [[x s]|]; inversion E; subst. auto.
Qed.

Lemma quiet_push (val : pyobj) : quiet (push val).
Proof. intros h a h' E. inversion E; subst. auto. Qed.

Lemma quiet_indent : quiet indent.
Proof. intros h a h' E. inversion E; subst. auto. Qed.

Lemma quiet_stack_tail (n : Z) : quiet (stack_tail n).
Proof. intros h a h' E. inversion E; subst. auto. Qed.

Lemma quiet_set_stack_tail (n : Z) (l : list pyobj) :
  quiet (set_stack_tail n l).
Proof. intros h a h' E. inversion E; subst. auto. Qed.

Lemma quiet_set_top (o : pyobj) : quiet (set_top o).
Proof.
  intros h a h' E. unfold set_top in E.
  destruct (list_pop (stack h)) as [[x s]|]; inversion E; subst. auto.
Qed.

(** Decomposes a method into the methods it is made of. *)
Ltac quiet_step :=
  match goal with
  | |- quiet (bind _ _) => apply quiet_bind; [|intros ?]
  | |- quiet (ret _) => apply quiet_ret
  | |- quiet (raise _) => apply quiet_raise
  | |- quiet (lift _) => apply quiet_lift
  | |- quiet pop => apply quiet_pop
  | |- quiet top => apply quiet_top
  | |- quiet (push _) => apply quiet_push
  | |- quiet indent => apply quiet_indent
  | |- quiet (set_stack _) => apply quiet_set_stack
  | |- quiet (set_top _) => apply quiet_set_top
  | |- quiet (stack_tail _) => apply quiet_stack_tail
  | |- quiet (set_stack_tail _ _) => apply quiet_set_stack_tail
  | H : quiet ?m |- quiet ?m => exact H
  | H : forall x, quiet (?m x) |- quiet (?m _) => apply H
  | H : forall x y, quiet (?m x y) |- quiet (?m _ _) => apply H
  | |- quiet (if ?c then _ else _) => destruct c
  | |- quiet (match ?x with _ => _ end) => destruct x
  end.

Lemma quiet_pop_n (n : nat) : quiet (pop_n n).
Proof. induction n as [|n IH]; simpl; repeat quiet_step. Qed.

Lemma quiet_pop_n_rev (n : nat) : quiet (pop_n_rev n).
Proof.
  unfold pop_n_rev. apply quiet_bind; [apply quiet_pop_n|].
  intros temp. apply quiet_ret.
Qed.

Lemma quiet_pop_n_rev_rot (shiftn : Z) (popn : nat) :
  quiet (pop_n_rev_rot shiftn popn).
Proof.
  unfold pop_n_rev_rot. apply quiet_bind; [apply quiet_pop_n_rev|].
  intros l. apply quiet_ret.
Qed.

Lemma quiet_make_list (argc : pyobj) : quiet (_make_list argc).
Proof.
  unfold _make_list. apply quiet_bind; [apply quiet_lift|]. intros n.
  apply quiet_bind; [apply quiet_pop_n|]. intros temp. apply quiet_ret.
Qed.

Lemma quiet_read_kargs (num : Z) : quiet (read_kargs num).
Proof.
  unfold read_kargs. generalize (@nil (pyobj * pyobj)).
  induction (Z.to_nat num) as [|n IH]; intros kargs; simpl;
    repeat quiet_step.
Qed.

Lemma quiet_read_pargs (num : Z) : quiet (read_pargs num).
Proof.
  unfold read_pargs. generalize (@nil pyobj).
  induction (Z.to_nat num) as [|n IH]; intros pargs; simpl;
    repeat quiet_step.
Qed.

Lemma quiet_prefix_top (prefix : string) : quiet (prefix_top prefix).
Proof. unfold prefix_top. repeat quiet_step. Qed.

Lemma emits_quiet {A} (m : H A) : quiet m -> emits m.
Proof.
  intros Hm h a h' E. destruct (Hm _ _ _ E) as [Hr Hi]. auto.
Qed.

Lemma emits_append_result (line : string) : emits (append_result line).
Proof.
  intros h a h' E. inversion E; subst. simpl. split; [reflexivity|].
  right. now exists line.
Qed.

Lemma emits_bind {A B} (m : H A) (k : A -> H B) :
  quiet m -> (forall a, emits (k a)) -> emits (bind m k).
Proof.
  intros Hm Hk h b h' E. unfold bind in E.
  destruct (m h) as [[a h1]|] eqn:Em; [|discriminate].
  destruct (Hm _ _ _ Em) as [Hr1 Hi1].
  destruct (Hk a _ _ _ E) as [Hi2 Hr2]. rewrite Hr1, Hi1 in *. auto.
Qed.

Lemma emits_bind_quiet {A B} (m : H A) (k : A -> H B) :
  emits m -> (forall a, quiet (k a)) -> emits (bind m k).
Proof.
  intros Hm Hk h b h' E. unfold bind in E.
  destruct (m h) as [[a h1]|] eqn:Em; [|discriminate].
  destruct (Hm _ _ _ Em) as [Hi1 Hr1].
  destruct (Hk a _ _ _ E) as [Hr2 Hi2]. rewrite Hr2, Hi2. auto.
Qed.

Section MoreEngine5.
Context {optable : OpTable} {runtime : Runtime}.

Lemma emits_emit (template : string) (args : list pyobj) :
  emits (emit template args).
Proof.
  unfold emit. apply emits_bind; [apply quiet_indent|]. intros ind.
  apply emits_bind; [apply quiet_lift|]. intros line.
  apply emits_append_result.
Qed.

(** Proves that a method is [quiet]. *)
Ltac quiet_auto :=
  repeat first
    [ apply quiet_pop_n | apply quiet_pop_n_rev | apply quiet_pop_n_rev_rot
    | apply quiet_make_list | apply quiet_read_kargs
    | apply quiet_read_pargs | apply quiet_prefix_top | quiet_step ].

(** Proves that a method [emits]. *)
Ltac emits_auto :=
  repeat first
    [ apply emits_quiet; solve [quiet_auto]
    | apply emits_append_result
    | apply emits_emit
    | apply emits_bind; [solve [quiet_auto] | intros ?]
    | apply emits_bind_quiet; [ | intros ?; solve [quiet_auto]]
    | match goal with
      | |- emits (if ?c then _ else _) => destruct c
      | |- emits (match ?x with _ => _ end) => destruct x
      end ].

Lemma emits_handle (opcode : opname) (arg : pyobj) :
  opcode <> RETURN_VALUE -> emits (handle opcode arg).
Proof.
  intros Hne. unfold handle. rewrite (opname_eqb_neq Hne).
  repeat match goal with
         | |- emits (if ?c then _ else _) =>
             destruct c; [solve [emits_auto]|]
         end.
  emits_auto.
Qed.

Lemma handle_appends_at_most_one_line_aux
    (opcode : opname) (arg : pyobj) (h h' : _CommandHandler) :
  handle opcode arg h = Ok (tt, h') ->
  (result h' = result h \/ exists line, result h' = result h ++ [line])
  /\ indent_count h'
     = (if opname_eqb opcode RETURN_VALUE then indent_count h - 1
        else indent_count h).
Proof.
  intros E. destruct (opname_eq_dec opcode RETURN_VALUE) as [->|Hne].
  - rewrite return_value_spec in E. inversion E; subst. simpl.
    split; [|reflexivity].
    destruct (py_truth arg); [right; eauto | now left].
  - rewrite (opname_eqb_neq Hne).
    destruct (@emits_handle opcode arg Hne h tt h' E) as [Hi Hr]. auto.
Qed.

(** X7. An instruction that the engine handles without error appends at
    most one line to the output and never changes a line that is there;
    it leaves the indentation counter as it is, except [RETURN_VALUE], which
    decrements it. *)
Theorem handle_appends_at_most_one_line
    (opcode : opname) (arg : pyobj) (h h' : _CommandHandler) :
  handle opcode arg h = Ok (tt, h') ->
  (result h' = result h \/ exists line, result h' = result h ++ [line])
  /\ indent_count h'
     = (if opname_eqb opcode RETURN_VALUE then indent_count h - 1
        else indent_count h).
Proof. apply handle_appends_at_most_one_line_aux. Qed.

(** The engine after a sequence of instructions, from any state. *)
Lemma handle_all_invariant (instrs : list (opname * pyobj)) :
  forall h h' : _CommandHandler,
    handle_all instrs h = Ok (tt, h') ->
    indent_count h'
    = indent_count h
      - Z.of_nat (count_occ opname_eq_dec (map fst instrs) RETURN_VALUE)
    /\ exists lines,
         result h' = result h ++ lines
         /\ (List.length lines <= List.length instrs)%nat.
Proof.
  induction instrs as [|[opcode arg] instrs IH]; intros h h' E.
  - inversion E; subst. simpl. split; [lia|].
    exists []. now rewrite app_nil_r.
  - cbn [handle_all] in E. unfold bind in E.
    destruct (handle opcode arg h) as [[[] h1]|] eqn:E1; [|discriminate].
    destruct (@handle_appends_at_most_one_line_aux opcode arg h h1 E1)
      as [Hr1 Hi1].
    destruct (IH h1 h' E) as (Hi2 & lines & Hr2 & Hlen).
    cbn [map fst count_occ]. split.
    + rewrite Hi2, Hi1. unfold opname_eqb.
      destruct (opname_eq_dec opcode RETURN_VALUE); lia.
    + destruct Hr1 as [Hr1|[line Hr1]]; rewrite Hr1 in Hr2.
      * exists lines. split; [exact Hr2 | simpl; lia].
      * exists (line :: lines). split; [now rewrite <- app_assoc in Hr2
                                       | simpl; lia].
Qed.

(** X8. A fresh engine never indents: after any sequence of instructions
    it has handled, its indentation counter is minus the number of
    [RETURN_VALUE] instructions of the sequence, so that the indentation
    it writes before a line is empty; and it has written at most one line
    for each instruction. *)
Theorem engine_never_indents
    (instrs : list (opname * pyobj)) (h : _CommandHandler) :
  handle_all instrs new_CommandHandler = Ok (tt, h) ->
  indent_count h
  = - Z.of_nat (count_occ opname_eq_dec (map fst instrs) RETURN_VALUE)
  /\ indent h = Ok (EmptyString, h)
  /\ (List.length (result h) <= List.length instrs)%nat.
Proof.
  intros E. destruct (@handle_all_invariant instrs new_CommandHandler h E) as (Hi & lines & Hr & Hl).
  simpl in Hi, Hr. split; [lia|]. split.
  - unfold indent, str_mul. rewrite Hi.
    replace (Z.to_nat (0 - _)) with 0%nat by lia. reflexivity.
  - now rewrite Hr.
Qed.

End MoreEngine5.

Lemma handle_appends_at_most_one_line_witness :
  (result {| stack := []; result := ["del x"%string]; indent_count := 0 |}
   = result new_CommandHandler
   \/ exists line,
        result {| stack := []; result := ["del x"%string];
                  indent_count := 0 |}
        = result new_CommandHandler ++ [line])
  /\ indent_count {| stack := []; result := ["del x"%string];
                     indent_count := 0 |}
     = (if opname_eqb DELETE_NAME RETURN_VALUE
        then indent_count new_CommandHandler - 1
        else indent_count new_CommandHandler).
Proof.
  apply (@handle_appends_at_most_one_line sample_optable sample_runtime
           DELETE_NAME (PStr "x") new_CommandHandler).
  reflexivity.
Defined.

Lemma engine_never_indents_witness :
  indent_count {| stack := []; result := ["del x"%string];
                  indent_count := -1 |}
  = - Z.of_nat (count_occ opname_eq_dec
                  (map fst [(RETURN_VALUE, PNone); (DELETE_NAME, PStr "x")])
                  RETURN_VALUE)
  /\ indent {| stack := []; result := ["del x"%string];
               indent_count := -1 |}
     = Ok (EmptyString,
           {| stack := []; result := ["del x"%string];
              indent_count := -1 |})
  /\ (List.length (result {| stack := []; result := ["del x"%string];
                             indent_count := -1 |})
      <= List.length [(RETURN_VALUE, PNone); (DELETE_NAME, PStr "x")])%nat.
Proof.
  apply (@engine_never_indents sample_optable sample_runtime
           [(RETURN_VALUE, PNone); (DELETE_NAME, PStr "x")]).
  reflexivity.
Defined.

Section MoreEngine6.
Context {optable : OpTable} {runtime : Runtime}.

Lemma py_str_raw (v : pyobj) (skip_it : bool) :
  py_str (_PyObject v true skip_it) = py_str v.
Proof. destruct v; reflexivity. Qed.

Lemma py_str_plain (v : pyobj) (skip_it : bool) :
  py_str (_PyObject v false skip_it) = py_repr 0 v.
Proof. reflexivity. Qed.


End MoreEngine6.

Section MoreEngine7.
Context {optable : OpTable} {runtime : Runtime}.

(** X11. The assignment of a constant or of a name to a name is written as
    one line, and the stack is as before: a constant is written as its
    [repr], a name as it is, after the indentation of four spaces for
    each level.  [DELETE_NAME] writes the statement that deletes its
    argument and touches no operand.  The name and the value are operands
    whose text the model has ([plain]). *)
Theorem name_statements_text
    (name value : pyobj) (h : _CommandHandler) :
  plain name = true -> plain value = true ->
  let line := fun (text : string) =>
    Ok (tt, {| stack := stack h;
               result := result h
                         ++ [str_mul (indent_count h) INDENT_SIZE +++ text];
               indent_count := indent_count h |}) in
  handle_all [(LOAD_CONST, value); (STORE_NAME, name)] h
  = line (py_str name +++ " = " +++ py_repr 0 value)
  /\ handle_all [(LOAD_NAME, value); (STORE_NAME, name)] h
     = line (py_str name +++ " = " +++ py_str value)
  /\ handle DELETE_NAME name h = line ("del " +++ py_str name).
Proof.
  intros _ _ line. subst line. destruct h as [s r ind].
  split; [|split].
  - cbn [handle_all]. unfold bind at 1.
    change (handle LOAD_CONST value
              {| stack := s; result := r; indent_count := ind |})
      with (Ok (tt, {| stack := s ++ [_PyObject value false false];
                       result := r; indent_count := ind |})).
    unfold bind at 1. rewrite store_name_PyObject. reflexivity.
  - cbn [handle_all]. unfold bind at 1.
    change (handle LOAD_NAME value
              {| stack := s; result := r; indent_count := ind |})
      with (Ok (tt, {| stack := s ++ [_PyObject value true false];
                       result := r; indent_count := ind |})).
    unfold bind at 1. rewrite store_name_PyObject, py_str_raw.
    reflexivity.
  - unfold handle. simpl. unfold emit, bind, indent, append_result. simpl.
    now rewrite append_empty_r.
Qed.


(** X13. The import statements.  [IMPORT_NAME] replaces the top of the
    stack by the name of the module, as it is and not as an operand of
    the engine; [IMPORT_FROM] leaves the module and pushes the dotted name
    of the member; [IMPORT_STAR] writes the statement and removes the
    module.  [IMPORT_NAME] removes one of the two operands that the
    compiler pushes for it, the level and the list of names: after a
    statement [from m import *] the level is left on the stack.  The names
    of the module and of the member are operands whose text the model has
    ([plain]), as the byte strings of a Python 2 file are. *)
Theorem import_statements_text
    (arg module member level fromlist : pyobj)
    (rest : list pyobj) (r : list string) (ind : Z) :
  plain module = true -> plain member = true ->
  handle IMPORT_NAME module
    {| stack := rest ++ [level; fromlist]; result := r;
       indent_count := ind |}
  = Ok (tt, {| stack := rest ++ [level; module]; result := r;
               indent_count := ind |})
  /\ handle IMPORT_FROM member
       {| stack := rest ++ [module]; result := r; indent_count := ind |}
     = Ok (tt, {| stack := rest
                           ++ [module;
                               PStr (py_str module +++ "."
                                     +++ py_str member)];
                  result := r; indent_count := ind |})
  /\ handle IMPORT_STAR arg
       {| stack := rest ++ [module]; result := r; indent_count := ind |}
     = Ok (tt, {| stack := rest;
                  result := r ++ [str_mul ind INDENT_SIZE +++ "from "
                                  +++ py_str module +++ " import *"];
                  indent_count := ind |})
  /\ handle_all [(IMPORT_NAME, module); (IMPORT_STAR, arg)]
       {| stack := rest ++ [level; fromlist]; result := r;
          indent_count := ind |}
     = Ok (tt, {| stack := rest ++ [level];
                  result := r ++ [str_mul ind INDENT_SIZE +++ "from "
                                  +++ py_str module +++ " import *"];
                  indent_count := ind |}).
Proof.
  intros _ _.
  assert (Hstar : forall rest',
            handle IMPORT_STAR arg
              {| stack := rest' ++ [module]; result := r;
                 indent_count := ind |}
            = Ok (tt, {| stack := rest';
                         result := r ++ [str_mul ind INDENT_SIZE +++ "from "
                                         +++ py_str module +++ " import *"];
                         indent_count := ind |})).
  { intros rest'. unfold handle; simpl; unfold emit, bind; simpl.
    rewrite pop_app. simpl. unfold indent, append_result. simpl.
    rewrite ?append_empty_r. reflexivity. }
  assert (Hname : handle IMPORT_NAME module
                    {| stack := rest ++ [level; fromlist]; result := r;
                       indent_count := ind |}
                  = Ok (tt, {| stack := (rest ++ [level]) ++ [module];
                               result := r; indent_count := ind |})).
  { unfold handle; simpl; unfold bind; simpl. repeat pops. reflexivity. }
  split; [|split; [|split]].
  - rewrite Hname. now rewrite <- app_assoc.
  - unfold handle; simpl; unfold bind; simpl. rewrite top_app. simpl.
    unfold push. simpl. rewrite <- app_assoc. simpl.
    rewrite ?append_empty_r. reflexivity.
  - apply Hstar.
  - cbn [handle_all]. unfold bind at 1. rewrite Hname.
    unfold bind. now rewrite Hstar.
Qed.

End MoreEngine7.

(** ** More on the deserializer *)

Lemma read_int8_byte (b : byte) (d : _Disassembler) (f : list byte) :
  read_int8 (with_file d (b :: f))
  = Ok (to_signed 8 (byte_to_Z b), with_file d f).
Proof.
  unfold read_int8, bind, read, with_file, file_read. simpl.
  now rewrite Z.lor_0_r.
Qed.

(** Reading an integer of [n] bytes from a file that has fewer. *)
Lemma read_short (n : nat) (d : _Disassembler) :
  (List.length (file d) < n)%nat ->
  (data <- read (Z.of_nat n) ;; lift (unpack_signed n data)) d
  = Raise struct_error.
Proof.
  intros Hlen. unfold bind, read, file_read.
  destruct (Z.ltb_spec (Z.of_nat n) 0); [lia|].
  rewrite Nat2Z.id. unfold lift, unpack_signed, unpack_unsigned. simpl.
  rewrite firstn_all2 by lia.
  destruct (Nat.eqb_spec (List.length (file d)) n); [lia | reflexivity].
Qed.

Section MoreDisassembler.
Context {optable : OpTable} {runtime : Runtime}.

Lemma unmarshal_node_int (fuel : nat) (d : _Disassembler) (f : list byte) :
  unmarshal_node (S fuel) (with_file d (byte_of_Z _TYPE_INT :: f))
  = (n <- read_int32 ;; ret (PInt n)) (with_file d f).
Proof.
  cbn [unmarshal_node]. unfold bind at 1.
  rewrite read_int8_tag by (unfold _TYPE_INT; lia). reflexivity.
Qed.

Lemma unmarshal_node_int64 (fuel : nat) (d : _Disassembler) (f : list byte) :
  unmarshal_node (S fuel) (with_file d (byte_of_Z _TYPE_INT64 :: f))
  = (data <- read 8 ;; n <- lift (unpack_signed 8 data) ;; ret (PInt n))
      (with_file d f).
Proof.
  cbn [unmarshal_node]. unfold bind at 1.
  rewrite read_int8_tag by (unfold _TYPE_INT64; lia). reflexivity.
Qed.

Lemma unmarshal_int_packed (z : Z) (fuel : nat) (d : _Disassembler)
    (rest : list byte) :
  - 2 ^ 31 <= z < 2 ^ 31 ->
  unmarshal_node (S fuel) (with_file d (encode_int z ++ rest))
  = Ok (PInt z, with_file d rest).
Proof.
  intros Hz. unfold encode_int. cbn [app]. rewrite unmarshal_node_int.
  unfold bind. now rewrite read_int32_packed.
Qed.

Lemma unmarshal_string_packed (s : string) (fuel : nat) (d : _Disassembler)
    (rest : list byte) :
  Z.of_nat (String.length s) < 2 ^ 31 ->
  unmarshal_node (S fuel) (with_file d (encode_string s ++ rest))
  = Ok (PStr s, with_file d rest).
Proof.
  intros Hs. unfold encode_string. cbn [app]. rewrite unmarshal_node_string.
  unfold bind at 1. unfold read_string_ascii, bind at 1.
  rewrite <- length_list_byte_of_string in Hs |- *.
  rewrite <- app_assoc, read_byte_array_packed by exact Hs.
  unfold ret. now rewrite string_of_codes_bytes.
Qed.

(** X14. Decoding the encoding of a 32-bit integer, of a 64-bit integer or
    of a string that is not interned returns the integer or the string and
    leaves the rest of the file; the string table is not changed. *)
Theorem scalar_roundtrip
    (fuel : nat) (d : _Disassembler) (rest : list byte) :
  (forall z : Z,
     - 2 ^ 31 <= z < 2 ^ 31 ->
     unmarshal_node (S fuel) (with_file d (encode_int z ++ rest))
     = Ok (PInt z, with_file d rest))
  /\ (forall z : Z,
        - 2 ^ 63 <= z < 2 ^ 63 ->
        unmarshal_node (S fuel) (with_file d (encode_int64 z ++ rest))
        = Ok (PInt z, with_file d rest))
  /\ (forall s : string,
        Z.of_nat (String.length s) < 2 ^ 31 ->
        unmarshal_node (S fuel) (with_file d (encode_string s ++ rest))
        = Ok (PStr s, with_file d rest)).
Proof.
  split; [|split].
  - intros z Hz. now apply unmarshal_int_packed.
  - intros z Hz. unfold encode_int64. cbn [app].
    rewrite unmarshal_node_int64.
    change ((data <- read 8 ;; n <- lift (unpack_signed 8 data) ;;
             ret (PInt n)) (with_file d (pack_le 8 z ++ rest)))
      with ((n <- (data <- read (Z.of_nat 8) ;;
                   lift (unpack_signed 8 data)) ;; ret (PInt n))
              (with_file d (pack_le 8 z ++ rest))).
    unfold bind at 1. rewrite read_packed; [reflexivity | lia | simpl; lia].
  - intros s Hs. now apply unmarshal_string_packed.
Qed.

(** X15. A byte that is not one of the seventeen type tags with a branch
    in [unmarshal_node] raises the exception of an unknown type, with the
    byte read as a signed number.  The tags of the null object, of
    StopIteration, of the ellipsis, of the text forms of floats and
    complex numbers and of dicts are declared and have no branch. *)
Theorem unknown_type_tag
    (b : byte) (fuel : nat) (d : _Disassembler) (rest : list byte) :
  let type := to_signed 8 (byte_to_Z b) in
  (~ In type handled_types ->
   unmarshal_node (S fuel) (with_file d (b :: rest))
   = Raise (DisassemblerException (Cannot_unmarshal_unknown_type type)))
  /\ Forall (fun declared => ~ In declared handled_types)
       [_TYPE_NULL; _TYPE_STOP_ITER; _TYPE_ELLIPSIS; _TYPE_FLOAT;
        _TYPE_COMPLEX; _TYPE_DICT].
Proof.
  intros type. split.
  - intros Hnot. cbn [unmarshal_node]. unfold bind at 1.
    rewrite read_int8_byte. fold type.
    unfold handled_types in Hnot. simpl in Hnot.
    repeat match goal with
           | |- context [type =? ?c] =>
               destruct (Z.eqb_spec type c) as [E|_];
               [symmetry in E; tauto|]
           end.
    reflexivity.
  - repeat constructor; unfold handled_types; simpl; intros H;
      repeat (destruct H as [H|H]; [discriminate|]); exact H.
Qed.

End MoreDisassembler.

Lemma read_int32_short (d : _Disassembler) :
  (List.length (file d) < 4)%nat -> read_int32 d = Raise struct_error.
Proof. intros Hlen. now apply (@read_short 4 d). Qed.

Lemma file_read_all (count : Z) (f : list byte) :
  count < 0 \/ Z.of_nat (List.length f) <= count ->
  file_read count f = (f, []).
Proof.
  intros Hc. unfold file_read.
  destruct (Z.ltb_spec count 0); [reflexivity|].
  rewrite firstn_all2, skipn_all2 by lia. reflexivity.
Qed.

Section MoreDisassembler2.
Context {optable : OpTable} {runtime : Runtime}.

Lemma unmarshal_node_unicode (fuel : nat) (d : _Disassembler)
    (f : list byte) :
  unmarshal_node (S fuel) (with_file d (byte_of_Z _TYPE_UNICODE :: f))
  = (s <- read_string_utf8 ;; ret (PUnicode s)) (with_file d f).
Proof.
  cbn [unmarshal_node]. unfold bind at 1.
  rewrite read_int8_tag by (unfold _TYPE_UNICODE; lia). reflexivity.
Qed.

Lemma unmarshal_node_code (fuel : nat) (d : _Disassembler) (f : list byte) :
  unmarshal_node (S fuel) (with_file d (byte_of_Z _TYPE_CODE :: f))
  = unmarshal_code (unmarshal_node fuel) (with_file d f).
Proof.
  cbn [unmarshal_node]. unfold bind at 1.
  rewrite read_int8_tag by (unfold _TYPE_CODE; lia). reflexivity.
Qed.

(** X16. A truncated file raises the error of [struct]: at the end of the
    file where a value is expected; after the tag of a value that begins
    with a 32-bit field, when fewer than four bytes are left; and in a
    string, interned or not, whose length is more than the number of bytes
    left. *)
Theorem truncated_input_raises_struct_error
    (fuel : nat) (d : _Disassembler) :
  unmarshal_node (S fuel) (with_file d []) = Raise struct_error
  /\ (forall (type : Z) (f : list byte),
        In type [_TYPE_INT; _TYPE_LONG; _TYPE_STRING; _TYPE_INTERNED;
                 _TYPE_STRING_REF; _TYPE_UNICODE; _TYPE_TUPLE; _TYPE_LIST;
                 _TYPE_SET; _TYPE_FROZEN_SET; _TYPE_CODE] ->
        (List.length f < 4)%nat ->
        unmarshal_node (S fuel) (with_file d (byte_of_Z type :: f))
        = Raise struct_error)
  /\ (forall (type count : Z) (data : list byte),
        In type [_TYPE_STRING; _TYPE_INTERNED] ->
        Z.of_nat (List.length data) < count < 2 ^ 31 ->
        unmarshal_node (S fuel)
          (with_file d (encode_counted type count ++ data))
        = Raise struct_error).
Proof.
  split; [reflexivity|]. split.
  - intros type f Hin Hlen.
    assert (Hread : read_int32 (with_file d f) = Raise struct_error)
      by now apply read_int32_short.
    simpl in Hin.
    destruct Hin as [E|[E|[E|[E|[E|[E|Hin]]]]]]; subst.
    + rewrite unmarshal_node_int. unfold bind. now rewrite Hread.
    + rewrite unmarshal_node_long. unfold unmarshal_long, bind.
      now rewrite Hread.
    + rewrite unmarshal_node_string.
      unfold read_string_ascii, read_byte_array, bind. now rewrite Hread.
    + rewrite unmarshal_node_interned.
      unfold read_string_ascii, read_byte_array, bind. now rewrite Hread.
    + rewrite unmarshal_node_string_ref_tag. unfold bind. now rewrite Hread.
    + rewrite unmarshal_node_unicode.
      unfold read_string_utf8, bind. now rewrite Hread.
    + destruct Hin as [E|[E|[E|[E|[E|[]]]]]]; subst.
      * rewrite (@unmarshal_node_collection _ _ fuel d _TYPE_TUPLE tuple)
          by (simpl; tauto).
        unfold unmarshal_collection, bind. now rewrite Hread.
      * rewrite (@unmarshal_node_collection _ _ fuel d _TYPE_LIST list_)
          by (simpl; tauto).
        unfold unmarshal_collection, bind. now rewrite Hread.
      * rewrite (@unmarshal_node_collection _ _ fuel d _TYPE_SET set)
          by (simpl; tauto).
        unfold unmarshal_collection, bind. now rewrite Hread.
      * rewrite (@unmarshal_node_collection _ _ fuel d _TYPE_FROZEN_SET
                   frozenset) by (simpl; tauto).
        unfold unmarshal_collection, bind. now rewrite Hread.
      * rewrite unmarshal_node_code. unfold unmarshal_code, bind, get.
        now rewrite Hread.
  - intros type count data Hin Hc.
    assert (Harr : read_byte_array (with_file d (pack_le 4 count ++ data))
                   = Raise struct_error).
    { unfold read_byte_array, bind. rewrite read_int32_packed by lia.
      unfold read. cbn [file with_file].
      rewrite file_read_all by lia.
      unfold lift, unpack_bytes.
      destruct (Nat.eqb_spec (List.length data) (Z.to_nat count));
        [lia | reflexivity]. }
    unfold encode_counted. cbn [app]. simpl in Hin.
    destruct Hin as [E|[E|[]]]; subst.
    + rewrite unmarshal_node_string.
      unfold read_string_ascii, bind. now rewrite Harr.
    + rewrite unmarshal_node_interned.
      unfold read_string_ascii, bind. now rewrite Harr.
Qed.


(** X18. [disassemble] raises the error of [struct] on a file of fewer than
    eight bytes, and the exception of an unknown magic number, with the
    first four bytes read as a little-endian number, when the opcode table
    has no version for that number or gives the empty string: nothing
    after the header is read then. *)
Theorem disassemble_header_errors (fuel : nat) :
  (forall f : list byte,
     (List.length f < 8)%nat -> disassemble fuel f = Raise struct_error)
  /\ (forall header rest : list byte,
        List.length header = 8%nat ->
        let magic := unpack_le (firstn 4 header) in
        python_version_from_magic magic = None
        \/ python_version_from_magic magic = Some EmptyString ->
        disassemble fuel (header ++ rest)
        = Raise (DisassemblerException (Unknown_magic_header_number magic))).
Proof.
  split.
  - intros f Hlen. unfold disassemble, file_read.
    change (8 <? 0) with false. cbv iota.
    change (Z.to_nat 8) with 8%nat.
    rewrite firstn_all2 by lia.
    destruct (Nat.eqb_spec (List.length f) 8); [lia | reflexivity].
  - intros header rest Hlen magic Hversion. unfold disassemble.
    replace 8 with (Z.of_nat (List.length header)) by lia.
    rewrite file_read_app, Hlen. simpl negb. cbv iota. fold magic.
    destruct Hversion as [-> | ->]; reflexivity.
Qed.

End MoreDisassembler2.


(** ** The file is read from front to end *)

Lemma consumes_ret {A} (a : A) : consumes (ret a).
Proof. intros d a' d' E. inversion E; subst. now exists []. Qed.

Lemma consumes_raise {A} (e : exn) : consumes (@raise _ A e).
Proof. intros d a d' E. discriminate. Qed.

Lemma consumes_lift {A} (r : res A) : consumes (lift r).
Proof.
  intros d a d' E. unfold lift in E. destruct r; inversion E; subst.
  now exists [].
Qed.

Lemma consumes_get : consumes get.
Proof. intros d a d' E. inversion E; subst. now exists []. Qed.

Lemma consumes_bind {A B} (m : D A) (k : A -> D B) :
  consumes m -> (forall a, consumes (k a)) -> consumes (bind m k).
Proof.
  intros Hm Hk d b d' E. unfold bind in E.
  destruct (m d) as [[a d1]|] eqn:Em; [|discriminate].
  destruct (Hm _ _ _ Em) as (c1 & H1). destruct (Hk a _ _ _ E) as (c2 & H2).
  exists (c1 ++ c2). now rewrite H1, H2, app_assoc.
Qed.

Lemma consumes_read (count : Z) : consumes (read count).
Proof.
  intros d a d' E. unfold read, file_read in E.
  destruct (count <? 0); inversion E; subst; simpl.
  - exists (file d). now rewrite app_nil_r.
  - exists (firstn (Z.to_nat count) (file d)). now rewrite firstn_skipn.
Qed.

Lemma consumes_string_table_append (data : string) :
  consumes (string_table_append data).
Proof. intros d a d' E. inversion E; subst. now exists []. Qed.

(** Decomposes a method into the methods it is made of. *)
Ltac consumes_step :=
  match goal with
  | |- consumes (bind _ _) => apply consumes_bind; [|intros ?]
  | |- consumes (ret _) => apply consumes_ret
  | |- consumes (raise _) => apply consumes_raise
  | |- consumes (lift _) => apply consumes_lift
  | |- consumes get => apply consumes_get
  | |- consumes (read _) => apply consumes_read
  | |- consumes (string_table_append _) => apply consumes_string_table_append
  | H : consumes ?m |- consumes ?m => exact H
  | H : forall x y, consumes (?m x y) |- consumes (?m _ _) => apply H
  | |- consumes (if ?c then _ else _) => destruct c
  | |- consumes (match ?x with _ => _ end) => destruct x
  end.

Lemma consumes_read_int8 : consumes read_int8.
Proof. unfold read_int8. repeat consumes_step. Qed.

Lemma consumes_read_int16 : consumes read_int16.
Proof. unfold read_int16. repeat consumes_step. Qed.

Lemma consumes_read_int32 : consumes read_int32.
Proof. unfold read_int32. repeat consumes_step. Qed.

Lemma consumes_read_byte_array : consumes read_byte_array.
Proof.
  unfold read_byte_array. apply consumes_bind; [apply consumes_read_int32|].
  intros count. repeat consumes_step.
Qed.

Lemma consumes_read_string_ascii : consumes read_string_ascii.
Proof.
  unfold read_string_ascii.
  apply consumes_bind; [apply consumes_read_byte_array|].
  intros l. apply consumes_ret.
Qed.

Section Consumes.
Context {optable : OpTable} {runtime : Runtime}.

Lemma consumes_read_string_utf8 : consumes read_string_utf8.
Proof.
  unfold read_string_utf8. apply consumes_bind; [apply consumes_read_int32|].
  intros count. repeat consumes_step.
Qed.

Lemma consumes_read_digits (count : nat) :
  forall i n is_long, consumes (read_digits count i n is_long).
Proof.
  induction count as [|count IH]; intros i n is_long; simpl.
  - apply consumes_ret.
  - apply consumes_bind; [apply consumes_read_int16|]. intros digit.
    apply IH.
Qed.

Lemma consumes_unmarshal_long : consumes unmarshal_long.
Proof.
  unfold unmarshal_long. apply consumes_bind; [apply consumes_read_int32|].
  intros nbits. destruct (nbits =? 0); [apply consumes_ret|].
  apply consumes_bind; [apply consumes_read_digits|]. intros n.
  destruct (nbits >? 0); apply consumes_ret.
Qed.

Lemma consumes_repeat_node (node : D pyobj) (count : nat) :
  consumes node -> consumes (repeat_node node count).
Proof.
  intros Hnode. induction count as [|count IH]; simpl;
    repeat consumes_step.
Qed.

Lemma consumes_unmarshal_collection (node : D pyobj)
    (type : collection_type) :
  consumes node -> consumes (unmarshal_collection node type).
Proof.
  intros Hnode. unfold unmarshal_collection.
  apply consumes_bind; [apply consumes_read_int32|]. intros count.
  apply consumes_bind; [now apply consumes_repeat_node|]. intros nodes.
  apply consumes_lift.
Qed.

Lemma consumes_unmarshal_code (node : D pyobj) :
  consumes node -> consumes (unmarshal_code node).
Proof.
  intros Hnode. unfold unmarshal_code.
  repeat first
    [ apply consumes_read_int32 | apply consumes_read_int8
    | apply consumes_read_byte_array | consumes_step ].
Qed.

(** [unmarshal_node] reads the type tag and takes the branch of the tag. *)
Lemma unmarshal_node_dispatch (fuel : nat) :
  unmarshal_node (S fuel)
  = (type <- read_int8 ;; dispatch (unmarshal_node fuel) type).
Proof. reflexivity. Qed.

Lemma consumes_dispatch (node : D pyobj) (type : Z) :
  consumes node -> consumes (dispatch node type).
Proof.
  intros Hnode. unfold dispatch.
  repeat first
    [ apply consumes_read_int32 | apply consumes_unmarshal_long
    | apply consumes_read_string_ascii | apply consumes_read_string_utf8
    | apply (consumes_unmarshal_collection _ Hnode)
    | apply (consumes_unmarshal_code Hnode)
    | consumes_step ].
Qed.

Lemma consumes_unmarshal_node (fuel : nat) : consumes (unmarshal_node fuel).
Proof.
  induction fuel as [|fuel IH]; [apply consumes_raise|].
  rewrite unmarshal_node_dispatch.
  apply consumes_bind; [apply consumes_read_int8|]. intros type.
  now apply consumes_dispatch.
Qed.

Lemma read_int8_consumes_one (d d1 : _Disassembler) (type : Z) :
  read_int8 d = Ok (type, d1) ->
  exists b, file d = b :: file d1
            /\ magic d1 = magic d /\ string_table d1 = string_table d.
Proof.
  unfold read_int8, bind, read, file_read. simpl.
  destruct (file d) as [|b f] eqn:Ef; simpl; [discriminate|].
  intros E. inversion E; subst. simpl. now exists b.
Qed.

(** X19. A call of [unmarshal_node] that returns a value has taken at least
    one byte, and only from the front of the file: what is left of the
    file is a proper suffix of what it was.  It has not changed the magic
    number, and every entry that the string table had is still there at
    its index. *)
Theorem unmarshal_node_reads_forward
    (fuel : nat) (d d' : _Disassembler) (v : pyobj) :
  unmarshal_node fuel d = Ok (v, d') ->
  (exists consumed,
     file d = consumed ++ file d' /\ consumed <> [])
  /\ magic d' = magic d
  /\ exists appended, string_table d' = string_table d ++ appended.
Proof.
  intros E. split; [|exact (grows_unmarshal_node fuel _ E)].
  destruct fuel as [|fuel]; [discriminate|].
  rewrite unmarshal_node_dispatch in E. unfold bind at 1 in E.
  destruct (read_int8 d) as [[type d1]|] eqn:E1; [|discriminate].
  destruct (read_int8_consumes_one _ E1) as (b & Hb & _ & _).
  assert (Hrest : exists c, file d1 = c ++ file d')
    by exact (consumes_dispatch type (consumes_unmarshal_node fuel) _ E).
  destruct Hrest as (c & Hc). exists (b :: c). split; [|discriminate].
  now rewrite Hb, Hc.
Qed.

End Consumes.

Lemma unmarshal_node_reads_forward_witness :
  (exists consumed,
     encode_interned "ab" ++ encode_int 7 = consumed ++ encode_int 7
     /\ consumed <> [])
  /\ 62211 = 62211
  /\ exists appended, ["x"; "ab"] = ["x"] ++ appended.
Proof.
  apply (@unmarshal_node_reads_forward sample_optable sample_runtime 1
           {| magic := 62211; string_table := ["x"];
              file := encode_interned "ab" ++ encode_int 7 |}
           {| magic := 62211; string_table := ["x"; "ab"];
              file := encode_int 7 |}
           (PStr "ab")).
  vm_compute. reflexivity.
Defined.

Lemma in_order_weaken (lo lo' hi : Z) (recs : list Opcode_t) :
  lo <= lo' -> in_order lo' hi recs = true -> in_order lo hi recs = true.
Proof.
  intros Hlo. destruct recs as [|r recs]; simpl.
  - intros H. apply Z.leb_le in H. apply Z.leb_le. lia.
  - intros H. apply andb_true_iff in H. destruct H as [H1 H2].
    apply Z.leb_le in H1. rewrite H2, andb_true_r. apply Z.leb_le. lia.
Qed.

Section Loop.
Context {optable : OpTable} {runtime : Runtime}.

Lemma record_of_shift (magic : Z) (skipped code : list Z) (i : Z)
    (r : Opcode_t) :
  record_of magic code (i + Z.of_nat (List.length skipped)) r ->
  record_of magic (skipped ++ code) i r.
Proof.
  intros ((b & Hb & Hop) & Hlo & Hrest). split; [|split; [lia | exact Hrest]].
  exists b. split; [|exact Hop].
  replace (Z.to_nat (offset r - i))
    with (List.length skipped
          + Z.to_nat (offset r - (i + Z.of_nat (List.length skipped))))%nat
    by lia.
  now rewrite nth_error_app2, Nat.add_comm, Nat.add_sub by lia.
Qed.

(** The invariant of the loop "Start disassembly". *)
Lemma disassemble_loop_records (magic : Z)
    (co_consts co_names co_varnames : pyobj) (n : nat) :
  forall (code : list Z) (i acc : Z) (st st' : loop_state),
    (List.length code <= n)%nat ->
    disassemble_loop magic co_consts co_names co_varnames code i acc st
    = Ok st' ->
    exists recs,
      fst st' = fst st ++ recs
      /\ handle_all (map instruction_of recs) (snd st) = Ok (tt, snd st')
      /\ Forall (record_of magic code i) recs
      /\ in_order i (i + Z.of_nat (List.length code)) recs = true.
Proof.
  induction n as [|n IH]; intros code i acc st st' Hlen E;
    destruct code as [|b code1]; simpl in Hlen; try lia.
  - inversion E; subst. exists []. rewrite app_nil_r.
    repeat split; [constructor | simpl; apply Z.leb_le; lia].
  - inversion E; subst. exists []. rewrite app_nil_r.
    repeat split; [constructor | simpl; apply Z.leb_le; lia].
  - cbn [disassemble_loop] in E.
    destruct (from_bytecode b magic) as [op|] eqn:Hop; [|discriminate].
    (* one instruction of [k] bytes, then the rest of the code *)
    assert (Hbody : forall (skipped code' : list Z) (argument' : Z),
              b :: code1 = skipped ++ code' ->
              nth_error skipped 0 = Some b ->
              Z.of_nat (List.length skipped)
              = (if has_argument op then 3 else 1) ->
              loop_body co_consts co_names co_varnames i
                (i + Z.of_nat (List.length skipped)) op argument' st
                (disassemble_loop magic co_consts co_names co_varnames
                   code' (i + Z.of_nat (List.length skipped)))
              = Ok st' ->
              exists recs,
                fst st' = fst st ++ recs
                /\ handle_all (map instruction_of recs) (snd st)
                   = Ok (tt, snd st')
                /\ Forall (record_of magic (skipped ++ code') i) recs
                /\ in_order i
                     (i + Z.of_nat (List.length (skipped ++ code'))) recs
                   = true).
    { intros skipped code' argument' Hcode Hb Hsize Eb.
      assert (Hlen' : (List.length code' <= n)%nat).
      { apply (f_equal (@List.length Z)) in Hcode.
        rewrite length_app in Hcode. simpl in Hcode.
        destruct (has_argument op); lia. }
      assert (Hend : i + Z.of_nat (List.length skipped)
                     + Z.of_nat (List.length code')
                     = i + Z.of_nat (List.length (skipped ++ code')))
        by (rewrite length_app; lia).
      unfold loop_body in Eb.
      destruct (opname_eqb op EXTENDED_ARG) eqn:Hext.
      - destruct (IH _ _ _ _ _ Hlen' Eb) as (recs & H1 & H2 & H3 & H4).
        exists recs. split; [exact H1|]. split; [exact H2|]. split.
        + eapply Forall_impl; [|exact H3].
          intros r. apply record_of_shift.
        + rewrite <- Hend.
          apply in_order_weaken with (lo' := i + Z.of_nat (List.length skipped));
            [lia | exact H4].
      - destruct (decode_argument co_consts co_names co_varnames op
                    argument') as [arg|] eqn:Harg; [|discriminate].
        simpl in Eb.
        destruct (handle op arg (snd st)) as [[[] handler]|] eqn:Hh;
          [|discriminate].
        destruct (IH _ _ _ _ _ Hlen' Eb) as (recs & H1 & H2 & H3 & H4).
        simpl in H1, H2.
        exists (Opcode i (i + Z.of_nat (List.length skipped) - i) op arg
                :: recs).
        split; [now rewrite H1, <- app_assoc|].
        split; [simpl; unfold bind; now rewrite Hh|].
        split.
        + constructor.
          * split; [|split; [|split; [|split]]]; simpl.
            -- exists b. rewrite Z.sub_diag. split; [|exact Hop].
               destruct skipped as [|b0 skipped]; [discriminate|].
               simpl in Hb. inversion Hb; subst. reflexivity.
            -- lia.
            -- rewrite <- Hsize. lia.
            -- intros ->. now rewrite opname_eqb_refl in Hext.
            -- intros Hna. unfold decode_argument in Harg.
               rewrite Hna in Harg. now inversion Harg.
          * eapply Forall_impl; [|exact H3].
            intros r. apply record_of_shift.
        + simpl. rewrite Z.leb_refl. simpl. rewrite <- Hend.
          replace (i + (i + Z.of_nat (List.length skipped) - i))
            with (i + Z.of_nat (List.length skipped)) by lia.
          exact H4. }
    destruct (has_argument op) eqn:Harg.
    + destruct code1 as [|lo [|hi code2]]; try discriminate.
      replace (i + 1 + 2) with (i + Z.of_nat (List.length [b; lo; hi]))
        in E by (simpl; lia).
      exact (Hbody [b; lo; hi] code2 _ eq_refl eq_refl eq_refl E).
    + replace (i + 1) with (i + Z.of_nat (List.length [b])) in E
        by (simpl; lia).
      exact (Hbody [b] code1 _ eq_refl eq_refl eq_refl E).
Qed.

(** X21. The records of a code object and the run of the engine agree.
    When the decoding loop of a code object ends without exception, the
    records it has appended are the instructions that the engine has
    handled, in that order, and the engine is in the state that handling
    them one after the other gives.  Each record starts at the byte of
    its opcode, has the size 3 with an argument and 1 without (then its
    argument is [None]), and is not EXTENDED_ARG, which is neither
    recorded nor handled; the records are in the order of their offsets,
    do not overlap, and lie within the bytecode.  No entry of [co_names]
    is a list, so that the engine changes no argument it has recorded. *)
Theorem records_are_what_the_engine_handled (magic : Z)
    (co_consts co_names co_varnames : pyobj) (co_code : list Z)
    (st : loop_state) :
  has_no_list_entry co_names = true ->
  disassemble_code magic co_consts co_names co_varnames co_code = Ok st ->
  handle_all (map instruction_of (fst st)) new_CommandHandler
  = Ok (tt, snd st)
  /\ Forall (record_of magic co_code 0) (fst st)
  /\ in_order 0 (Z.of_nat (List.length co_code)) (fst st) = true.
Proof.
  intros _ E. unfold disassemble_code in E.
  destruct (@disassemble_loop_records magic co_consts co_names co_varnames
              (List.length co_code) co_code 0 0 _ st (Nat.le_refl _) E)
    as (recs & H1 & H2 & H3 & H4).
  simpl in H1, H2. subst recs. repeat split; assumption.
Qed.

End Loop.

Lemma records_are_what_the_engine_handled_witness :
  handle_all (optable := sample_optable) (runtime := sample_runtime)
    (map instruction_of
       [Opcode 0 3 LOAD_CONST (PInt 7); Opcode 3 3 STORE_NAME (PStr "x");
        Opcode 6 3 LOAD_CONST PNone; Opcode 9 1 RETURN_VALUE PNone])
    new_CommandHandler
  = Ok (tt,
        {| stack := [_PyObject PNone false false]; result := ["x = 7"];
           indent_count := -1 |})
  /\ Forall (record_of (optable := sample_optable) 168686339
               [100; 0; 0; 90; 0; 0; 100; 1; 0; 83] 0)
       [Opcode 0 3 LOAD_CONST (PInt 7); Opcode 3 3 STORE_NAME (PStr "x");
        Opcode 6 3 LOAD_CONST PNone; Opcode 9 1 RETURN_VALUE PNone]
  /\ in_order 0 10
       [Opcode 0 3 LOAD_CONST (PInt 7); Opcode 3 3 STORE_NAME (PStr "x");
        Opcode 6 3 LOAD_CONST PNone; Opcode 9 1 RETURN_VALUE PNone]
     = true.
Proof.
  apply (@records_are_what_the_engine_handled sample_optable sample_runtime
           168686339 (PTuple [PInt 7; PNone]) (PTuple [PStr "x"]) (PTuple [])
           [100; 0; 0; 90; 0; 0; 100; 1; 0; 83]
           ([Opcode 0 3 LOAD_CONST (PInt 7); Opcode 3 3 STORE_NAME (PStr "x");
        Opcode 6 3 LOAD_CONST PNone; Opcode 9 1 RETURN_VALUE PNone],
            {| stack := [_PyObject PNone false false]; result := ["x = 7"];
           indent_count := -1 |})).
  - reflexivity.
  - vm_compute. reflexivity.
Defined.

Section Layout.
Context {optable : OpTable} {runtime : Runtime}.

Lemma decodes_all_length (fuel : nat) (d d' : _Disassembler)
    (chunks : list (list byte)) (vs : list pyobj) :
  decodes_all fuel d chunks vs d' -> List.length vs = List.length chunks.
Proof. induction 1; simpl; congruence. Qed.

Lemma repeat_node_chunks (fuel : nat) (d d' : _Disassembler)
    (chunks : list (list byte)) (vs : list pyobj) :
  decodes_all fuel d chunks vs d' ->
  forall rest,
    repeat_node (unmarshal_node fuel) (List.length chunks)
      (with_file d (List.concat chunks ++ rest))
    = Ok (vs, with_file d' rest).
Proof.
  induction 1 as [d|d d1 d2 chunk v chunks vs Hv _ IH]; intros rest.
  - reflexivity.
  - cbn [List.length repeat_node List.concat]. rewrite <- app_assoc.
    unfold bind at 1. rewrite Hv. unfold bind at 1. rewrite IH.
    reflexivity.
Qed.

(** X22. A tuple or a list is written as its tag, the number of its elements
    and the encodings of the elements one after the other: when each
    element is decoded from its bytes in the state the previous one has
    left, the whole is decoded as the tuple or the list of the elements,
    in that order, and what follows it in the file is left unread. *)
Theorem collection_is_count_then_elements
    (fuel : nat) (d d' : _Disassembler)
    (chunks : list (list byte)) (vs : list pyobj) (rest : list byte) :
  decodes_all fuel d chunks vs d' ->
  Z.of_nat (List.length chunks) < 2 ^ 31 ->
  unmarshal_node (S fuel)
    (with_file d (encode_counted _TYPE_TUPLE (Z.of_nat (List.length chunks))
                  ++ List.concat chunks ++ rest))
  = Ok (PTuple vs, with_file d' rest)
  /\ unmarshal_node (S fuel)
       (with_file d (encode_counted _TYPE_LIST (Z.of_nat (List.length chunks))
                     ++ List.concat chunks ++ rest))
     = Ok (PList vs, with_file d' rest).
Proof.
  intros Hall Hlen.
  assert (Hcoll : forall ctype,
            unmarshal_collection (unmarshal_node fuel) ctype
              (with_file d (pack_le 4 (Z.of_nat (List.length chunks))
                            ++ List.concat chunks ++ rest))
            = lift (make_collection ctype vs) (with_file d' rest)).
  { intros ctype. unfold unmarshal_collection. unfold bind at 1.
    rewrite read_int32_packed by lia. unfold bind at 1.
    rewrite Nat2Z.id, (repeat_node_chunks Hall). reflexivity. }
  unfold encode_counted. cbn [app]. split.
  - rewrite (@unmarshal_node_collection _ _ fuel d _TYPE_TUPLE tuple)
      by (simpl; tauto).
    now rewrite Hcoll.
  - rewrite (@unmarshal_node_collection _ _ fuel d _TYPE_LIST list_)
      by (simpl; tauto).
    now rewrite Hcoll.
Qed.

(** X23. The layout of a code object in the file: after the tag come the
    number of arguments, the number of keyword-only arguments when the
    magic number has one, the numbers of locals and of stack entries and
    the flags, as 32-bit integers; the bytecode as a string; the
    constants, names, names of locals, free variables, cell variables,
    file name and name as values; the first line as a 32-bit integer; and
    the table of line numbers as a value.  When the decoding loop of the
    bytecode ends without exception, such a file is decoded as the code
    object of these fields and of the records of the loop.  No entry of
    the names is a list, so that the engine changes no object of the code
    object while the loop runs. *)
Theorem code_object_layout
    (fuel : nat) (d d1 d2 : _Disassembler)
    (argcount kwonlyargcount nlocals stacksize flags firstlineno : Z)
    (code : list byte)
    (c_consts c_names c_varnames c_freevars c_cellvars c_filename c_name
       c_lnotab : list byte)
    (consts names varnames freevars cellvars filename name lnotab : pyobj)
    (st : loop_state) (rest : list byte) :
  Forall (fun z => - 2 ^ 31 <= z < 2 ^ 31)
    [argcount; kwonlyargcount; nlocals; stacksize; flags; firstlineno] ->
  Z.of_nat (List.length code) < 2 ^ 31 ->
  decodes_all fuel d
    [c_consts; c_names; c_varnames; c_freevars; c_cellvars; c_filename;
     c_name]
    [consts; names; varnames; freevars; cellvars; filename; name] d1 ->
  decodes fuel d1 c_lnotab lnotab d2 ->
  has_no_list_entry names = true ->
  disassemble_code (magic d) consts names varnames (map byte_to_Z code)
  = Ok st ->
  unmarshal_node (S fuel)
    (with_file d
       (encode_code_header (has_kwonlyargcount (magic d)) argcount
          kwonlyargcount nlocals stacksize flags code
        ++ List.concat [c_consts; c_names; c_varnames; c_freevars;
                        c_cellvars; c_filename; c_name]
        ++ pack_le 4 firstlineno ++ c_lnotab ++ rest))
  = Ok (PCode (CodeObject argcount
                 (if has_kwonlyargcount (magic d) then kwonlyargcount
                  else 0)
                 nlocals stacksize flags (map byte_to_Z code) consts
                 names varnames freevars cellvars filename name
                 firstlineno lnotab (fst st)),
        with_file d2 rest).
Proof.
  intros Hints Hcode Hall Hlnotab _ Hloop.
  repeat match goal with
         | H : Forall _ (_ :: _) |- _ => inversion H; subst; clear H
         | H : Forall _ [] |- _ => clear H
         end.
  repeat match goal with
         | H : decodes_all _ _ (_ :: _) _ _ |- _ => inversion H; subst; clear H
         | H : decodes_all _ _ [] _ _ |- _ => inversion H; subst; clear H
         end.
  unfold encode_code_header. cbn [app List.concat].
  repeat first [rewrite <- app_assoc | progress cbn [app]].
  rewrite unmarshal_node_code. unfold unmarshal_code.
  unfold bind at 1. unfold get at 1. cbn [magic with_file].
  unfold bind at 1. rewrite read_int32_packed by lia.
  unfold bind at 1.
  assert (Hkw : forall f,
            (if has_kwonlyargcount (magic d) then read_int32 else ret 0)
              (with_file d
                 ((if has_kwonlyargcount (magic d)
                   then pack_le 4 kwonlyargcount else []) ++ f))
            = Ok ((if has_kwonlyargcount (magic d) then kwonlyargcount
                   else 0), with_file d f)).
  { intros f. destruct (has_kwonlyargcount (magic d)).
    - now rewrite read_int32_packed by lia.
    - reflexivity. }
  rewrite Hkw. clear Hkw.
  unfold bind at 1. rewrite read_int32_packed by lia.
  unfold bind at 1. rewrite read_int32_packed by lia.
  unfold bind at 1. rewrite read_int32_packed by lia.
  unfold bind at 1.
  rewrite read_int8_tag by (unfold _TYPE_STRING; lia).
  rewrite Z.eqb_refl. cbn [negb].
  unfold bind at 1. rewrite read_byte_array_packed by lia.
  repeat match goal with
         | H : decodes _ _ ?c _ _ |- context [with_file _ (?c ++ ?r)] =>
             unfold bind at 1; rewrite (H r); clear H
         end.
  unfold bind at 1. rewrite read_int32_packed by lia.
  unfold bind at 1. rewrite (Hlnotab rest).
  unfold bind at 1. unfold lift at 1. rewrite Hloop. reflexivity.
Qed.

Lemma firstn_length_app {A} (l l' : list A) (n : nat) :
  n = List.length l -> firstn n (l ++ l') = l.
Proof.
  intros ->. now rewrite firstn_app, Nat.sub_diag, firstn_all, app_nil_r.
Qed.

Lemma skipn_length_app {A} (l l' : list A) (n : nat) :
  n = List.length l -> skipn n (l ++ l') = l'.
Proof. intros ->. now rewrite skipn_app, Nat.sub_diag, skipn_all. Qed.

(** X24. A compiled module is its magic number and its time stamp, two
    unsigned 32-bit numbers in little-endian order, and then one value,
    which is decoded with an empty string table.  [disassemble] returns
    the magic number, the time stamp, the version that the opcode table
    has for the magic number after the word Python, and the value; what
    follows the value in the file is never read. *)
Theorem module_is_header_then_body
    (fuel : nat) (magic timestamp : Z) (version : string)
    (chunk trailing : list byte) (v : pyobj) (d' : _Disassembler) :
  0 <= magic < 2 ^ 32 ->
  0 <= timestamp < 2 ^ 32 ->
  python_version_from_magic magic = Some version ->
  version <> EmptyString ->
  decodes fuel {| magic := magic; string_table := []; file := [] |}
    chunk v d' ->
  disassemble fuel
    (pack_le 4 magic ++ pack_le 4 timestamp ++ chunk ++ trailing)
  = Ok {| module_magic := magic; timestamp := timestamp;
          python_version := "Python " +++ version; body := v |}.
Proof.
  intros Hmagic Hts Hversion Hne Hbody. unfold disassemble.
  rewrite app_assoc.
  replace 8 with (Z.of_nat (List.length (pack_le 4 magic
                                         ++ pack_le 4 timestamp)))
    by (rewrite length_app, !length_pack_le; reflexivity).
  rewrite file_read_app.
  rewrite length_app, !length_pack_le. cbn [Nat.add Nat.eqb negb].
  rewrite (@firstn_length_app _ (pack_le 4 magic) _ 4)
    by now rewrite length_pack_le.
  rewrite (@skipn_length_app _ (pack_le 4 magic) _ 4)
    by now rewrite length_pack_le.
  rewrite !unpack_pack_le.
  change (2 ^ (8 * Z.of_nat 4)) with (2 ^ 32).
  rewrite !Z.mod_small by lia. rewrite Hversion.
  destruct (String.eqb_spec version EmptyString) as [->|_];
    [now contradiction Hne|].
  specialize (Hbody trailing). unfold with_file in Hbody.
  simpl in Hbody. rewrite Hbody. reflexivity.
Qed.

End Layout.

Lemma collection_is_count_then_elements_witness :
  unmarshal_node (optable := sample_optable) (runtime := sample_runtime) 2
    (with_file {| magic := 168686339; string_table := []; file := [] |}
       (encode_counted _TYPE_TUPLE 3
        ++ List.concat [encode_int 1; encode_interned "ab";
                        encode_string_ref 0]
        ++ [x4e]))
  = Ok (PTuple [PInt 1; PStr "ab"; PStr "ab"],
        with_file {| magic := 168686339; string_table := ["ab"];
                     file := [] |} [x4e])
  /\ unmarshal_node (optable := sample_optable) (runtime := sample_runtime) 2
       (with_file {| magic := 168686339; string_table := []; file := [] |}
          (encode_counted _TYPE_LIST 3
           ++ List.concat [encode_int 1; encode_interned "ab";
                           encode_string_ref 0]
           ++ [x4e]))
     = Ok (PList [PInt 1; PStr "ab"; PStr "ab"],
           with_file {| magic := 168686339; string_table := ["ab"];
                        file := [] |} [x4e]).
Proof.
  apply (@collection_is_count_then_elements sample_optable sample_runtime 1
           {| magic := 168686339; string_table := []; file := [] |}
           {| magic := 168686339; string_table := ["ab"]; file := [] |}
           [encode_int 1; encode_interned "ab"; encode_string_ref 0]
           [PInt 1; PStr "ab"; PStr "ab"] [x4e]).
  - apply decodes_cons
      with (d1 := {| magic := 168686339; string_table := [];
                     file := [] |});
      [intros rest; vm_compute; reflexivity|].
    apply decodes_cons
      with (d1 := {| magic := 168686339; string_table := ["ab"];
                     file := [] |});
      [intros rest; vm_compute; reflexivity|].
    apply decodes_cons
      with (d1 := {| magic := 168686339; string_table := ["ab"];
                     file := [] |});
      [intros rest; vm_compute; reflexivity|].
    apply decodes_nil.
  - vm_compute. reflexivity.
Defined.

Lemma code_object_layout_witness :
  unmarshal_node (optable := sample_optable) (runtime := sample_runtime) 3
    (with_file {| magic := 168686339; string_table := []; file := [] |}
       (encode_code_header false 2 0 2 1 67 [x64; x00; x00; x53]
        ++ List.concat
             [encode_counted _TYPE_TUPLE 1 ++ [x4e];
              encode_counted _TYPE_TUPLE 0;
              encode_counted _TYPE_TUPLE 2
              ++ encode_interned "a" ++ encode_interned "b";
              encode_counted _TYPE_TUPLE 0;
              encode_counted _TYPE_TUPLE 0;
              encode_string "m.py";
              encode_interned "name"]
        ++ pack_le 4 1 ++ encode_string EmptyString ++ []))
  = Ok (PCode name_a_b,
        with_file {| magic := 168686339; string_table := ["a"; "b"; "name"];
                     file := [] |} []).
Proof.
  apply (@code_object_layout sample_optable sample_runtime 2
           {| magic := 168686339; string_table := []; file := [] |}
           {| magic := 168686339; string_table := ["a"; "b"; "name"];
              file := [] |}
           {| magic := 168686339; string_table := ["a"; "b"; "name"];
              file := [] |}
           2 0 2 1 67 1 [x64; x00; x00; x53]
           (encode_counted _TYPE_TUPLE 1 ++ [x4e])
           (encode_counted _TYPE_TUPLE 0)
           (encode_counted _TYPE_TUPLE 2
            ++ encode_interned "a" ++ encode_interned "b")
           (encode_counted _TYPE_TUPLE 0)
           (encode_counted _TYPE_TUPLE 0)
           (encode_string "m.py")
           (encode_interned "name")
           (encode_string EmptyString)
           (PTuple [PNone]) (PTuple []) (PTuple [PStr "a"; PStr "b"])
           (PTuple []) (PTuple []) (PStr "m.py") (PStr "name")
           (PStr EmptyString)
           ([Opcode 0 3 LOAD_CONST PNone; Opcode 3 1 RETURN_VALUE PNone],
            {| stack := [_PyObject PNone false false]; result := [];
               indent_count := -1 |})
           []).
  - repeat constructor; lia.
  - simpl. lia.
  - apply decodes_cons
      with (d1 := {| magic := 168686339; string_table := [];
                     file := [] |});
      [intros rest; vm_compute; reflexivity|].
    apply decodes_cons
      with (d1 := {| magic := 168686339; string_table := [];
                     file := [] |});
      [intros rest; vm_compute; reflexivity|].
    apply decodes_cons
      with (d1 := {| magic := 168686339; string_table := ["a"; "b"];
                     file := [] |});
      [intros rest; vm_compute; reflexivity|].
    apply decodes_cons
      with (d1 := {| magic := 168686339; string_table := ["a"; "b"];
                     file := [] |});
      [intros rest; vm_compute; reflexivity|].
    apply decodes_cons
      with (d1 := {| magic := 168686339; string_table := ["a"; "b"];
                     file := [] |});
      [intros rest; vm_compute; reflexivity|].
    apply decodes_cons
      with (d1 := {| magic := 168686339; string_table := ["a"; "b"];
                     file := [] |});
      [intros rest; vm_compute; reflexivity|].
    apply decodes_cons
      with (d1 := {| magic := 168686339;
                     string_table := ["a"; "b"; "name"]; file := [] |});
      [intros rest; vm_compute; reflexivity|].
    apply decodes_nil.
  - intros rest. vm_compute. reflexivity.
  - reflexivity.
  - vm_compute. reflexivity.
Defined.

Lemma module_is_header_then_body_witness :
  disassemble (optable := sample_optable) (runtime := sample_runtime) 1
    (pack_le 4 168686339 ++ pack_le 4 1700000000 ++ encode_int 7 ++ [x00])
  = Ok {| module_magic := 168686339; timestamp := 1700000000;
          python_version := "Python " +++ "2.7"; body := PInt 7 |}.
Proof.
  apply (@module_is_header_then_body sample_optable sample_runtime 1
           168686339 1700000000 "2.7" (encode_int 7) [x00] (PInt 7)
           {| magic := 168686339; string_table := []; file := [] |}).
  - lia.
  - lia.
  - reflexivity.
  - discriminate.
  - intros rest. vm_compute. reflexivity.
Defined.

(** ** The properties above on concrete inputs *)




Lemma name_statements_text_witness :
  handle_all (optable := sample_optable) (runtime := sample_runtime)
    [(LOAD_CONST, PInt 7); (STORE_NAME, PStr "x")] new_CommandHandler
  = Ok (tt, {| stack := []; result := [] ++ ["x = 7"];
               indent_count := 0 |}).
Proof.
  apply (@name_statements_text sample_optable sample_runtime
           (PStr "x") (PInt 7) new_CommandHandler).
  - reflexivity.
  - reflexivity.
Defined.


Lemma import_statements_text_witness :
  handle_all (optable := sample_optable) (runtime := sample_runtime)
    [(IMPORT_NAME, PStr "os"); (IMPORT_STAR, PNone)]
    {| stack := [] ++ [_PyObject (PInt (-1)) false false;
                       _PyObject (PTuple [PStr "*"]) false false];
       result := []; indent_count := 0 |}
  = Ok (tt, {| stack := [] ++ [_PyObject (PInt (-1)) false false];
               result := [] ++ ["from os import *"];
               indent_count := 0 |}).
Proof.
  apply (@import_statements_text sample_optable sample_runtime PNone
           (PStr "os") (PStr "path") (_PyObject (PInt (-1)) false false)
           (_PyObject (PTuple [PStr "*"]) false false) [] [] 0).
  - reflexivity.
  - reflexivity.
Defined.

Lemma scalar_roundtrip_witness :
  unmarshal_node (optable := sample_optable) (runtime := sample_runtime) 1
    (with_file {| magic := 0; string_table := []; file := [] |}
       (encode_int (- 5) ++ [x4e]))
  = Ok (PInt (- 5),
        with_file {| magic := 0; string_table := []; file := [] |} [x4e])
  /\ unmarshal_node (optable := sample_optable) (runtime := sample_runtime) 1
       (with_file {| magic := 0; string_table := []; file := [] |}
          (encode_int64 (2 ^ 40) ++ [x4e]))
     = Ok (PInt (2 ^ 40),
           with_file {| magic := 0; string_table := []; file := [] |} [x4e])
  /\ unmarshal_node (optable := sample_optable) (runtime := sample_runtime) 1
       (with_file {| magic := 0; string_table := []; file := [] |}
          (encode_string "m.py" ++ [x4e]))
     = Ok (PStr "m.py",
           with_file {| magic := 0; string_table := []; file := [] |} [x4e]).
Proof.
  pose proof (@scalar_roundtrip sample_optable sample_runtime 0
                {| magic := 0; string_table := []; file := [] |} [x4e])
    as (Hint & Hint64 & Hstring).
  split; [|split].
  - apply Hint. lia.
  - apply Hint64. lia.
  - apply Hstring. simpl. lia.
Defined.

Lemma unknown_type_tag_witness :
  unmarshal_node (optable := sample_optable) (runtime := sample_runtime) 1
    (with_file {| magic := 0; string_table := []; file := [] |} [x7b; x30])
  = Raise (DisassemblerException (Cannot_unmarshal_unknown_type 123)).
Proof.
  apply (proj1 (@unknown_type_tag sample_optable sample_runtime x7b 0
                  {| magic := 0; string_table := []; file := [] |} [x30])).
  vm_compute. intros H.
  repeat (destruct H as [H|H]; [discriminate H|]). exact H.
Defined.

Lemma truncated_input_raises_struct_error_witness :
  unmarshal_node (optable := sample_optable) (runtime := sample_runtime) 1
    (with_file {| magic := 0; string_table := []; file := [] |}
       (byte_of_Z _TYPE_INT :: [x01; x02]))
  = Raise struct_error
  /\ unmarshal_node (optable := sample_optable) (runtime := sample_runtime) 1
       (with_file {| magic := 0; string_table := []; file := [] |}
          (encode_counted _TYPE_STRING 5 ++ [x61; x62]))
     = Raise struct_error.
Proof.
  pose proof (@truncated_input_raises_struct_error sample_optable
                sample_runtime 0
                {| magic := 0; string_table := []; file := [] |})
    as (_ & Hfield & Hstring).
  split.
  - apply Hfield; [simpl; tauto | simpl; lia].
  - apply Hstring; [simpl; tauto | simpl; lia].
Defined.

Lemma disassemble_header_errors_witness :
  disassemble (optable := sample_optable) (runtime := sample_runtime) 1
    [x03; xf3; x0d]
  = Raise struct_error
  /\ disassemble (optable := sample_optable) (runtime := sample_runtime) 1
       ([x01; x00; x00; x00; x00; x00; x00; x00] ++ [x4e])
     = Raise (DisassemblerException (Unknown_magic_header_number 1)).
Proof.
  pose proof (@disassemble_header_errors sample_optable sample_runtime 1)
    as (Hshort & Hmagic).
  split.
  - apply Hshort. simpl. lia.
  - apply (Hmagic [x01; x00; x00; x00; x00; x00; x00; x00] [x4e]);
      [reflexivity | left; reflexivity].
Defined.
